(** * Webcam UV Texture Stream: a shallow embedding of [src/__init__.py]
    and [src/scripts/package_addon.py]

    The add-on copies webcam frames into a Blender image that a material of
    the target object shows.  The Python code is embedded as pure functions
    over an explicit [World]: the module globals ([STATE], [_CV2_AVAILABLE]),
    the part of [bpy.data] and of the context that the code touches, the
    capture handles of [cv2], and the files written by [Image.save].  The
    panel is embedded as the list of what it draws, [register] and
    [unregister] as functions on the classes and scene properties Blender
    knows, and the packaging script as a function on a file system.

    Conventions.
    - A Python reference to a datablock (image, material, mesh), to a capture
      handle, a timer or an operator instance is the index of that value in
      its store; the add-on never removes a datablock, so indices are stable.
    - A scene object is the record of the attributes the add-on reads
      ([name], [type], [data]); the add-on never writes to an object.
    - A function returns [None] when the Python code raises; a normal return
      is [Some (value, world)].  [build_zip] returns the exception next to
      the file system it leaves.
    - [str] values are Rocq strings whose characters stand for the code points
      below 256.
    - [bpy], [cv2], [pathlib], [shutil] and [zipfile] are not part of the
      repository.  Their operations are modelled after the documented
      behaviour of Blender 2.93 (the version [bl_info] names), of
      NumPy/OpenCV and of the Python standard library; names are assumed to
      fit the host's length limit, so a free name is stored as requested. *)

From Stdlib Require Import ZArith String Ascii Strings.Byte Floats.SpecFloat Lia.
From stdpp Require Import base option list strings pretty gmap.

Open Scope string_scope.
Open Scope list_scope.
Open Scope Z_scope.

(** ** Python strings *)

(** [str.isspace] on one character (code points below 256). *)
Definition isspace (c : ascii) : bool :=
  let n := N_of_ascii c in
  ((9 <=? n) && (n <=? 13) || (28 <=? n) && (n <=? 32) || (n =? 133) || (n =? 160))%N.

Fixpoint lstrip (s : string) : string :=
  match s with
  | EmptyString => EmptyString
  | String c s' => if isspace c then lstrip s' else s
  end.

Fixpoint rstrip (s : string) : string :=
  match s with
  | EmptyString => EmptyString
  | String c s' =>
      match rstrip s' with
      | EmptyString => if isspace c then EmptyString else String c EmptyString
      | r => String c r
      end
  end.

(** [s.strip()] *)
Definition strip (s : string) : string := rstrip (lstrip s).

(** [str.lower] on one character (code points below 256). *)
Definition lower_char (c : ascii) : ascii :=
  let n := N_of_ascii c in
  if ((65 <=? n) && (n <=? 90) || (192 <=? n) && (n <=? 222) && negb (n =? 215))%N
  then ascii_of_N (n + 32) else c.

Fixpoint lower (s : string) : string :=
  match s with
  | EmptyString => EmptyString
  | String c s' => String (lower_char c) (lower s')
  end.

(** [s.endswith(suffix)] *)
Definition endswith (s suffix : string) : bool :=
  let n := String.length s in
  let m := String.length suffix in
  (m <=? n)%nat && String.eqb (substring (n - m) m s) suffix.

(** [a or b] on strings: the empty string is falsy. *)
Definition str_or (a b : string) : string :=
  match a with EmptyString => b | _ => a end.

(** ** float32 values *)

(** NumPy's [float32] is IEEE binary32: 24 bits of precision, [emax = 128]. *)
Definition float32 : Set := spec_float.
Definition f32_of_Z (z : Z) : float32 := binary_normalize 24 128 z 0 false.
Definition f32_div (x y : float32) : float32 := SFdiv 24 128 x y.
Definition f32_zero : float32 := f32_of_Z 0.
Definition f32_one : float32 := f32_of_Z 1.

(** ** Host data: images, node trees, materials, meshes, objects *)

Record Image := {
  image_name : string;
  image_size : Z * Z;                (* (width, height) *)
  image_channels : Z;
  image_pixels : list float32;       (* the flat sequence last assigned to [pixels] *)
  image_filepath_raw : string;
  image_file_format : string
}.

(** A socket is known by its node, its side and its position on that side. *)
Record Socket := {
  socket_node : nat;
  socket_is_output : bool;
  socket_index : nat
}.

Record NodeLink := {
  from_socket : Socket;
  to_socket : Socket
}.

Record Node := {
  node_name : string;
  node_label : string;
  node_bl_idname : string;
  node_location : Z * Z;
  node_image : option (option nat);  (* [None]: this node type has no [image] attribute *)
  node_inputs : list string;         (* socket names, in order *)
  node_outputs : list string
}.

Record NodeTree := {
  nodes : list Node;
  links : list NodeLink
}.

Record Material := {
  material_name : string;
  use_nodes : bool;
  node_tree : option NodeTree
}.

Record Mesh := {
  mesh_materials : list (option nat)  (* material slots; an empty slot is [None] *)
}.

Record Object := {
  object_name : string;
  object_type : string;
  object_data : nat                  (* the mesh of a ['MESH'] object *)
}.

#[global] Instance Socket_eq_dec : EqDecision Socket.
Proof. solve_decision. Defined.

(** ** Module globals, scene properties, window manager, cv2, operators *)

Inductive Status := FINISHED | CANCELLED | PASS_THROUGH | RUNNING_MODAL.

Record _WebcamState := {
  running : bool;
  last_error : string;
  operator : option nat
}.

Record BlendData := {
  images : list Image;
  materials : list Material;
  meshes : list Mesh
}.

Record Scene := {
  webcam_image_name : string;
  webcam_material_name : string;
  webcam_target_object : option Object;
  webcam_image_width : Z;
  webcam_image_height : Z
}.

Record Timer := {
  timer_time_step_ms : Z;
  timer_removed : bool
}.

Record WindowManager := {
  timers : list Timer;
  modal_handlers : list nat
}.

Record Area := {
  area_type : string;
  area_redraw_tags : nat
}.

(** A [cv2.VideoCapture] handle. [capture_reads] counts the calls of [read]. *)
Record VideoCapture := {
  capture_index : Z;
  capture_props : list (string * Z);
  capture_released : bool;
  capture_reads : nat
}.

(** An instance of [WM_OT_webcam_stream_start].  In Python [_obj] is a
    reference to the object, so [self._obj.name] is the name the object has
    now.  There is no store of objects here: an [Object] value stands for
    the object as it is in the world at hand, in [_obj] as in the scene's
    target.  A world in which the bound object has been renamed therefore has
    the new name in both places; with the old name left in [_obj] it stands
    for a target that is another object. *)
Record StreamOperator := {
  _timer : option nat;
  _cap : option nat;
  _img : option nat;
  _size : option (Z * Z);
  _obj : option Object
}.

Record World := {
  _CV2_AVAILABLE : bool;
  STATE : _WebcamState;
  stdout : list string;
  data : BlendData;
  scene : Scene;
  window_manager : WindowManager;
  screen_areas : list Area;
  captures : list VideoCapture;
  stream_operators : list StreamOperator;
  read_only_paths : list string;              (* where [Image.save] fails *)
  disk : list (string * list float32)         (* PNG files written: path, pixels *)
}.

Definition set_STATE (f : _WebcamState -> _WebcamState) (w : World) : World :=
  {| _CV2_AVAILABLE := _CV2_AVAILABLE w; STATE := f (STATE w); stdout := stdout w;
     data := data w; scene := scene w; window_manager := window_manager w;
     screen_areas := screen_areas w; captures := captures w;
     stream_operators := stream_operators w; read_only_paths := read_only_paths w;
     disk := disk w |}.

Definition set_stdout (f : list string -> list string) (w : World) : World :=
  {| _CV2_AVAILABLE := _CV2_AVAILABLE w; STATE := STATE w; stdout := f (stdout w);
     data := data w; scene := scene w; window_manager := window_manager w;
     screen_areas := screen_areas w; captures := captures w;
     stream_operators := stream_operators w; read_only_paths := read_only_paths w;
     disk := disk w |}.

Definition set_data (f : BlendData -> BlendData) (w : World) : World :=
  {| _CV2_AVAILABLE := _CV2_AVAILABLE w; STATE := STATE w; stdout := stdout w;
     data := f (data w); scene := scene w; window_manager := window_manager w;
     screen_areas := screen_areas w; captures := captures w;
     stream_operators := stream_operators w; read_only_paths := read_only_paths w;
     disk := disk w |}.

Definition set_window_manager (f : WindowManager -> WindowManager) (w : World) : World :=
  {| _CV2_AVAILABLE := _CV2_AVAILABLE w; STATE := STATE w; stdout := stdout w;
     data := data w; scene := scene w; window_manager := f (window_manager w);
     screen_areas := screen_areas w; captures := captures w;
     stream_operators := stream_operators w; read_only_paths := read_only_paths w;
     disk := disk w |}.

Definition set_screen_areas (f : list Area -> list Area) (w : World) : World :=
  {| _CV2_AVAILABLE := _CV2_AVAILABLE w; STATE := STATE w; stdout := stdout w;
     data := data w; scene := scene w; window_manager := window_manager w;
     screen_areas := f (screen_areas w); captures := captures w;
     stream_operators := stream_operators w; read_only_paths := read_only_paths w;
     disk := disk w |}.

Definition set_captures (f : list VideoCapture -> list VideoCapture) (w : World) : World :=
  {| _CV2_AVAILABLE := _CV2_AVAILABLE w; STATE := STATE w; stdout := stdout w;
     data := data w; scene := scene w; window_manager := window_manager w;
     screen_areas := screen_areas w; captures := f (captures w);
     stream_operators := stream_operators w; read_only_paths := read_only_paths w;
     disk := disk w |}.

Definition set_stream_operators (f : list StreamOperator -> list StreamOperator)
    (w : World) : World :=
  {| _CV2_AVAILABLE := _CV2_AVAILABLE w; STATE := STATE w; stdout := stdout w;
     data := data w; scene := scene w; window_manager := window_manager w;
     screen_areas := screen_areas w; captures := captures w;
     stream_operators := f (stream_operators w); read_only_paths := read_only_paths w;
     disk := disk w |}.

Definition set_disk (f : list (string * list float32) -> list (string * list float32))
    (w : World) : World :=
  {| _CV2_AVAILABLE := _CV2_AVAILABLE w; STATE := STATE w; stdout := stdout w;
     data := data w; scene := scene w; window_manager := window_manager w;
     screen_areas := screen_areas w; captures := captures w;
     stream_operators := stream_operators w; read_only_paths := read_only_paths w;
     disk := f (disk w) |}.

Definition set_images (f : list Image -> list Image) (d : BlendData) : BlendData :=
  {| images := f (images d); materials := materials d; meshes := meshes d |}.

Definition set_materials (f : list Material -> list Material) (d : BlendData) : BlendData :=
  {| images := images d; materials := f (materials d); meshes := meshes d |}.

Definition set_meshes (f : list Mesh -> list Mesh) (d : BlendData) : BlendData :=
  {| images := images d; materials := materials d; meshes := f (meshes d) |}.

(** ** The host operations the add-on calls *)

(** Blender stores the name of a datablock in at most 63 bytes of UTF-8 (the
    limit of Blender 2.93, which [bl_info] asks for) and cuts a longer one
    after the last character that fits; a character below 128 takes one
    byte, every other character of these strings two. *)
Definition utf8_bytes (c : ascii) : nat :=
  if (nat_of_ascii c <? 128)%nat then 1%nat else 2%nat.

Fixpoint utf8_length (s : string) : nat :=
  match s with
  | EmptyString => 0%nat
  | String c s => (utf8_bytes c + utf8_length s)%nat
  end.

Definition MAX_NAME_BYTES : nat := 63.

Fixpoint truncate_utf8 (n : nat) (s : string) : string :=
  match s with
  | EmptyString => EmptyString
  | String c s' =>
      if (utf8_bytes c <=? n)%nat
      then String c (truncate_utf8 (n - utf8_bytes c) s')
      else EmptyString
  end.

(** Blender keeps names unique inside a collection: the name, cut to 63
    bytes, is kept when it is free; a taken name gets the first free suffix
    [.001], [.002], ..., the name being cut further to make room for it. *)
Definition pad3 (k : nat) : string :=
  let s := pretty k in
  match String.length s with
  | 1%nat => "00" +:+ s
  | 2%nat => "0" +:+ s
  | _ => s
  end.

Definition unique_name (taken : list string) (name : string) : string :=
  let base := truncate_utf8 MAX_NAME_BYTES name in
  if decide (base ∈ taken) then
    let candidates :=
      (λ k, let suffix := "." +:+ pad3 k in
            truncate_utf8 (MAX_NAME_BYTES - String.length suffix) base +:+ suffix)
        <$> seq 1 (S (length taken)) in
    default base (head (filter (λ c, c ∉ taken) candidates))
  else base.

(** [bpy.data.images.get(name)] *)
Definition images_get (name : string) (imgs : list Image) : option nat :=
  fst <$> list_find (λ i, image_name i = name) imgs.

(** [bpy.data.images.new(name, width=w, height=h, alpha=True, float_buffer=False)]:
    a generated opaque black RGBA image, under the name Blender gives it. *)
Definition images_new (name : string) (width height : Z) (imgs : list Image)
    : nat * list Image :=
  (length imgs,
   imgs ++ [ {| image_name := unique_name (image_name <$> imgs) name;
                image_size := (width, height);
                image_channels := 4;
                image_pixels :=
                  mjoin (replicate (Z.to_nat (width * height))
                           [f32_zero; f32_zero; f32_zero; f32_one]);
                image_filepath_raw := "";
                image_file_format := "TARGA" |} ]).

(** [bpy.data.materials.get(name)] *)
Definition materials_get (name : string) (mats : list Material) : option nat :=
  fst <$> list_find (λ m, material_name m = name) mats.

(** [bpy.data.materials.new(name=name)]: a material without a node tree,
    under the name Blender gives it. *)
Definition materials_new (name : string) (mats : list Material) : nat * list Material :=
  (length mats,
   mats ++ [ {| material_name := unique_name (material_name <$> mats) name;
                use_nodes := false;
                node_tree := None |} ]).

Definition Principled_BSDF_inputs : list string :=
  [ "Base Color"; "Subsurface"; "Subsurface Radius"; "Subsurface Color"; "Metallic";
    "Specular"; "Specular Tint"; "Roughness"; "Anisotropic"; "Anisotropic Rotation";
    "Sheen"; "Sheen Tint"; "Clearcoat"; "Clearcoat Roughness"; "IOR"; "Transmission";
    "Transmission Roughness"; "Emission"; "Emission Strength"; "Alpha"; "Normal";
    "Clearcoat Normal"; "Tangent" ].

(** A fresh node of a shader node type, before it is named and placed. *)
Definition node_template (bl_idname : string) : option Node :=
  if decide (bl_idname = "ShaderNodeTexImage") then
    Some {| node_name := "Image Texture"; node_label := "";
            node_bl_idname := bl_idname; node_location := (0, 0);
            node_image := Some None;
            node_inputs := ["Vector"]; node_outputs := ["Color"; "Alpha"] |}
  else if decide (bl_idname = "ShaderNodeBsdfPrincipled") then
    Some {| node_name := "Principled BSDF"; node_label := "";
            node_bl_idname := bl_idname; node_location := (0, 0);
            node_image := None;
            node_inputs := Principled_BSDF_inputs; node_outputs := ["BSDF"] |}
  else if decide (bl_idname = "ShaderNodeOutputMaterial") then
    Some {| node_name := "Material Output"; node_label := "";
            node_bl_idname := bl_idname; node_location := (0, 0);
            node_image := None;
            node_inputs := ["Surface"; "Volume"; "Displacement"]; node_outputs := [] |}
  else None.

Definition with_name (name : string) (n : Node) : Node :=
  {| node_name := name; node_label := node_label n; node_bl_idname := node_bl_idname n;
     node_location := node_location n; node_image := node_image n;
     node_inputs := node_inputs n; node_outputs := node_outputs n |}.

Definition with_label (label : string) (n : Node) : Node :=
  {| node_name := node_name n; node_label := label; node_bl_idname := node_bl_idname n;
     node_location := node_location n; node_image := node_image n;
     node_inputs := node_inputs n; node_outputs := node_outputs n |}.

Definition with_location (loc : Z * Z) (n : Node) : Node :=
  {| node_name := node_name n; node_label := node_label n; node_bl_idname := node_bl_idname n;
     node_location := loc; node_image := node_image n;
     node_inputs := node_inputs n; node_outputs := node_outputs n |}.

Definition with_image (img : option nat) (n : Node) : Node :=
  {| node_name := node_name n; node_label := node_label n; node_bl_idname := node_bl_idname n;
     node_location := node_location n; node_image := Some img;
     node_inputs := node_inputs n; node_outputs := node_outputs n |}.

Definition update_node (i : nat) (f : Node -> Node) (t : NodeTree) : NodeTree :=
  {| nodes := alter f i (nodes t); links := links t |}.

(** [nodes.get(name)] *)
Definition nodes_get (name : string) (t : NodeTree) : option nat :=
  fst <$> list_find (λ n, node_name n = name) (nodes t).

(** [nodes.new(type)]: raises for an unknown type. *)
Definition nodes_new (bl_idname : string) (t : NodeTree) : option (nat * NodeTree) :=
  n ← node_template bl_idname;
  Some (length (nodes t),
        {| nodes := nodes t ++ [with_name (unique_name (node_name <$> nodes t) (node_name n)) n];
           links := links t |}).

(** [node.name = name]: the name is made unique among the other nodes. *)
Definition node_rename (i : nat) (name : string) (t : NodeTree) : NodeTree :=
  update_node i
    (with_name (unique_name (node_name <$> (take i (nodes t) ++ drop (S i) (nodes t))) name)) t.

(** [node.image = img]: raises when the node type has no such attribute. *)
Definition node_set_image (i : nat) (img : nat) (t : NodeTree) : option NodeTree :=
  n ← nodes t !! i;
  _ ← node_image n;
  Some (update_node i (with_image (Some img)) t).

(** [node.outputs.get(name)] and [node.inputs.get(name)] *)
Definition outputs_get (t : NodeTree) (i : nat) (name : string) : option Socket :=
  n ← nodes t !! i;
  '(k, _) ← list_find (λ s, s = name) (node_outputs n);
  Some {| socket_node := i; socket_is_output := true; socket_index := k |}.

Definition inputs_get (t : NodeTree) (i : nat) (name : string) : option Socket :=
  n ← nodes t !! i;
  '(k, _) ← list_find (λ s, s = name) (node_inputs n);
  Some {| socket_node := i; socket_is_output := false; socket_index := k |}.

(** [links.new(out_socket, in_socket)]: raises on [None]; an input takes one
    link, so the links that already enter [in_socket] are removed first. *)
Definition links_new (out_socket in_socket : option Socket) (t : NodeTree)
    : option NodeTree :=
  match out_socket, in_socket with
  | Some o, Some i =>
      Some {| nodes := nodes t;
              links := filter (λ l, to_socket l ≠ i) (links t)
                       ++ [ {| from_socket := o; to_socket := i |} ] |}
  | _, _ => None
  end.

(** The tree a material gets when nodes are first enabled on it. *)
Definition default_node_tree : NodeTree :=
  {| nodes :=
       [ {| node_name := "Principled BSDF"; node_label := "";
            node_bl_idname := "ShaderNodeBsdfPrincipled"; node_location := (10, 300);
            node_image := None;
            node_inputs := Principled_BSDF_inputs; node_outputs := ["BSDF"] |};
         {| node_name := "Material Output"; node_label := "";
            node_bl_idname := "ShaderNodeOutputMaterial"; node_location := (300, 300);
            node_image := None;
            node_inputs := ["Surface"; "Volume"; "Displacement"]; node_outputs := [] |} ];
     links :=
       [ {| from_socket := {| socket_node := 0; socket_is_output := true; socket_index := 0 |};
            to_socket := {| socket_node := 1; socket_is_output := false; socket_index := 0 |} |} ] |}.

(** [mat.use_nodes = True] *)
Definition enable_nodes (m : Material) : Material :=
  {| material_name := material_name m;
     use_nodes := true;
     node_tree := Some (default default_node_tree (node_tree m)) |}.

Definition with_node_tree (t : NodeTree) (m : Material) : Material :=
  {| material_name := material_name m; use_nodes := use_nodes m; node_tree := Some t |}.

(** ** The add-on: constants and [STATE] *)

Definition IMAGE_DEFAULT : string := "Webcam_Feed".
Definition FRAME_INTERVAL : Z := 30.   (* 0.03 seconds, held in milliseconds *)
Definition DEFAULT_MATERIAL_NAME : string := "Webcam_Material".

(** [_WebcamState.set_error] on the global [STATE] *)
Definition set_error (msg : string) (w : World) : World :=
  set_stdout (λ out, out ++ ["[Webcam UV Stream] " +:+ msg])
    (set_STATE (λ st, {| running := running st; last_error := msg;
                         operator := operator st |}) w).

(** ** [_ensure_material_for_object] *)

(** The local function [ensure_link] (lines 90-94). *)
Definition ensure_link (out_socket in_socket : option Socket) (t : NodeTree)
    : option NodeTree :=
  if existsb (λ link, bool_decide (Some (from_socket link) = out_socket)
                       && bool_decide (Some (to_socket link) = in_socket)) (links t)
  then Some t
  else links_new out_socket in_socket t.

(** Lines 72-77: the image texture node, made and named when it is missing. *)
Definition webcam_image_node (t : NodeTree) : option (nat * NodeTree) :=
  match nodes_get "Webcam Image" t with
  | Some tex_node => Some (tex_node, t)
  | None =>
      '(tex_node, t) ← nodes_new "ShaderNodeTexImage" t;
      Some (tex_node,
            update_node tex_node (with_location (-400, 300))
              (update_node tex_node (with_label "Webcam Image")
                 (node_rename tex_node "Webcam Image" t)))
  end.

(** Lines 80-83 *)
Definition principled_bsdf_node (t : NodeTree) : option (nat * NodeTree) :=
  match nodes_get "Principled BSDF" t with
  | Some bsdf => Some (bsdf, t)
  | None =>
      '(bsdf, t) ← nodes_new "ShaderNodeBsdfPrincipled" t;
      Some (bsdf, update_node bsdf (with_location (0, 300)) t)
  end.

(** Lines 85-88 *)
Definition material_output_node (t : NodeTree) : option (nat * NodeTree) :=
  match nodes_get "Material Output" t with
  | Some output => Some (output, t)
  | None =>
      '(output, t) ← nodes_new "ShaderNodeOutputMaterial" t;
      Some (output, update_node output (with_location (300, 300)) t)
  end.

(** Lines 72-97: the three nodes and the two links of the material's tree. *)
Definition ensure_nodes_and_links (img : nat) (t : NodeTree) : option NodeTree :=
  '(tex_node, t) ← webcam_image_node t;
  t ← node_set_image tex_node img t;
  '(bsdf, t) ← principled_bsdf_node t;
  '(output, t) ← material_output_node t;
  t ← ensure_link (outputs_get t tex_node "Color") (inputs_get t bsdf "Base Color") t;
  ensure_link (outputs_get t bsdf "BSDF") (inputs_get t output "Surface") t.

(** Lines 99-102: the first material slot of the object's mesh. *)
Definition assign_first_slot (mat : nat) (me : Mesh) : Mesh :=
  match mesh_materials me with
  | [] => {| mesh_materials := [Some mat] |}
  | _ :: rest => {| mesh_materials := Some mat :: rest |}
  end.

(** Lines 62-104, entered once the image [img] is known. *)
Definition ensure_material (w : World) (obj : Object) (img : nat)
    : option ((option nat * option nat) * World) :=
  let mat_base := str_or (strip (webcam_material_name (scene w))) DEFAULT_MATERIAL_NAME in
  let mat_name := mat_base +:+ "_" +:+ object_name obj in
  let '(mat, mats) :=
    match materials_get mat_name (materials (data w)) with
    | Some mat => (mat, materials (data w))
    | None => materials_new mat_name (materials (data w))
    end in
  let mats := alter enable_nodes mat mats in
  m ← mats !! mat;
  t ← node_tree m;
  t ← ensure_nodes_and_links img t;
  let mats := <[mat := with_node_tree t m]> mats in
  me ← meshes (data w) !! object_data obj;
  let mshs := <[object_data obj := assign_first_slot mat me]> (meshes (data w)) in
  Some ((Some img, Some mat),
        set_data (λ d, set_meshes (λ _, mshs) (set_materials (λ _, mats) d)) w).

(** Lines 42-104.  The result is the pair [(img, mat)] and the new world. *)
Definition _ensure_material_for_object (w : World) (obj : option Object)
    : option ((option nat * option nat) * World) :=
  match obj with
  | None => Some ((None, None), set_error "No target object selected." w)
  | Some obj =>
      if decide (object_type obj ≠ "MESH") then
        Some ((None, None), set_error "Target object must be a mesh." w)
      else
        let img_base := str_or (strip (webcam_image_name (scene w))) IMAGE_DEFAULT in
        let img_name := img_base +:+ "_" +:+ object_name obj in
        match images_get img_name (images (data w)) with
        | Some img => ensure_material w obj img
        | None =>
            let w_ := webcam_image_width (scene w) in
            let h := webcam_image_height (scene w) in
            if (w_ <=? 0) || (h <=? 0) then
              Some ((None, None), set_error "Invalid image size." w)
            else
              let '(img, imgs) := images_new img_name w_ h (images (data w)) in
              ensure_material (set_data (set_images (λ _, imgs)) w) obj img
        end
  end.

(** [_on_target_object_update] (lines 107-111) *)
Definition _on_target_object_update (w : World) : option World :=
  match webcam_target_object (scene w) with
  | None => Some w
  | Some obj => snd <$> _ensure_material_for_object w (Some obj)
  end.

(** ** Frames: OpenCV and NumPy *)

(** A frame as [VideoCapture.read] returns it: rows of BGR pixels, [uint8]. *)
Definition Pixel : Set := (byte * byte * byte)%type.
Definition Frame : Set := list (list Pixel).

(** [cv2.cvtColor(frame, cv2.COLOR_BGR2RGB)] *)
Definition swap_red_blue (p : Pixel) : Pixel :=
  let '(b, g, r) := p in (r, g, b).

Definition cvtColor_BGR2RGB (frame : Frame) : Frame :=
  fmap (M := list) (fmap (M := list) swap_red_blue) frame.

(** One channel of [rgb.astype(np.float32) / 255.0] *)
Definition normalize (v : byte) : float32 :=
  f32_div (f32_of_Z (Z.of_N (Byte.to_N v))) (f32_of_Z 255).

(** [rgb.astype(np.float32) / 255.0]: an array of shape (rows, columns, 3) *)
Definition normalize_pixel (p : Pixel) : list float32 :=
  let '(r, g, b) := p in [normalize r; normalize g; normalize b].

Definition astype_float32_div_255 (rgb : Frame) : list (list (list float32)) :=
  fmap (M := list) (fmap (M := list) normalize_pixel) rgb.

(** [np.ones((h, w, 4), dtype=np.float32)]: raises on a negative dimension. *)
Definition np_ones (h w : Z) : option (list (list (list float32))) :=
  if (h <? 0) || (w <? 0) then None
  else Some (replicate (Z.to_nat h)
               (replicate (Z.to_nat w) [f32_one; f32_one; f32_one; f32_one])).

(** NumPy broadcasting along one axis: a source of the same length is taken as
    it is, a source of length one is repeated, anything else raises. *)
Definition broadcast {A : Type} (n : nat) (l : list A) : option (list A) :=
  if decide (length l = n) then Some l
  else match l with
       | [x] => Some (replicate n x)
       | _ => None
       end.

(** One row of [rgba[:,:,:3] = src]: the first three channels of every pixel
    of the row are overwritten. *)
Definition assign_row (row : list (list float32) * list (list float32))
    : option (list (list float32)) :=
  let '(dst_row, src_row) := row in
  cols ← broadcast (length dst_row) src_row;
  Some (zip_with (λ dst px, px ++ drop 3 dst) dst_row cols).

(** [rgba[:,:,:3] = src] *)
Definition assign_first_three (rgba src : list (list (list float32)))
    : option (list (list (list float32))) :=
  rows ← broadcast (length rgba) src;
  mapM assign_row (zip rgba rows).

(** [rgba.flatten()] *)
Definition flatten (rgba : list (list (list float32))) : list float32 :=
  mjoin (mjoin rgba).

(** [image.pixels = flat]: raises unless the sequence has one value per channel
    of every pixel of the image. *)
Definition image_set_pixels (img : nat) (flat : list float32) (w : World) : option World :=
  im ← images (data w) !! img;
  if decide (Z.of_nat (length flat)
             = fst (image_size im) * snd (image_size im) * image_channels im) then
    Some (set_data (set_images (λ imgs,
            <[img := {| image_name := image_name im; image_size := image_size im;
                        image_channels := image_channels im; image_pixels := flat;
                        image_filepath_raw := image_filepath_raw im;
                        image_file_format := image_file_format im |}]> imgs)) w)
  else None.

(** [area.tag_redraw()] for every ['VIEW_3D'] area (lines 160-162) *)
Definition tag_redraw_view_3d (w : World) : World :=
  set_screen_areas
    (fmap (λ area, if decide (area_type area = "VIEW_3D")
                  then {| area_type := area_type area;
                          area_redraw_tags := S (area_redraw_tags area) |}
                  else area)) w.

(** [cv2.VideoCapture(0)] *)
Definition VideoCapture_open (index : Z) (w : World) : nat * World :=
  (length (captures w),
   set_captures (λ cs, cs ++ [ {| capture_index := index; capture_props := [];
                                  capture_released := false; capture_reads := 0 |} ]) w).

(** [cap.set(prop, value)] *)
Definition VideoCapture_set (cap : nat) (prop : string) (value : Z) (w : World) : World :=
  set_captures
    (alter (λ c, {| capture_index := capture_index c;
                    capture_props := capture_props c ++ [(prop, value)];
                    capture_released := capture_released c;
                    capture_reads := capture_reads c |}) cap) w.

(** [cap.release()] *)
Definition VideoCapture_release (cap : nat) (w : World) : World :=
  set_captures
    (alter (λ c, {| capture_index := capture_index c; capture_props := capture_props c;
                    capture_released := true; capture_reads := capture_reads c |}) cap) w.

(** The effect of [cap.read()] on the handle; the frame it returns is an
    input of the tick. *)
Definition VideoCapture_read (cap : nat) (w : World) : option World :=
  c ← captures w !! cap;
  Some (set_captures
          (λ cs, <[cap := {| capture_index := capture_index c;
                             capture_props := capture_props c;
                             capture_released := capture_released c;
                             capture_reads := S (capture_reads c) |}]> cs) w).

(** [wm.event_timer_add(FRAME_INTERVAL, window=context.window)] *)
Definition event_timer_add (time_step_ms : Z) (w : World) : nat * World :=
  (length (timers (window_manager w)),
   set_window_manager
     (λ wm, {| timers := timers wm ++ [ {| timer_time_step_ms := time_step_ms;
                                            timer_removed := false |} ];
               modal_handlers := modal_handlers wm |}) w).

(** [wm.event_timer_remove(timer)] *)
Definition event_timer_remove (timer : nat) (w : World) : World :=
  set_window_manager
    (λ wm, {| timers := alter (λ t, {| timer_time_step_ms := timer_time_step_ms t;
                                       timer_removed := true |}) timer (timers wm);
              modal_handlers := modal_handlers wm |}) w.

(** [wm.modal_handler_add(self)] *)
Definition modal_handler_add (self : nat) (w : World) : World :=
  set_window_manager
    (λ wm, {| timers := timers wm; modal_handlers := modal_handlers wm ++ [self] |}) w.

(** ** [WM_OT_webcam_stream_start] *)

(** Lines 134-140 of [modal]: the operator follows a change of the target.
    [inl]: the tick returns at once; [inr]: it goes on to read a frame.
    The test compares the two names as the world has them (see
    [StreamOperator] for a renamed object). *)
Definition rebind_target (w : World) (self : nat) (current_obj : Object)
    : option (World + World) :=
  op ← stream_operators w !! self;
  let changed :=
    match _obj op with
    | None => true
    | Some obj => negb (String.eqb (object_name current_obj) (object_name obj))
    end in
  if changed then
    '((img, _mat), w) ← _ensure_material_for_object w (Some current_obj);
    match img with
    | None => Some (inl w)
    | Some img =>
        im ← images (data w) !! img;
        Some (inr (set_stream_operators
                     (λ ops, <[self := {| _timer := _timer op; _cap := _cap op;
                                          _img := Some img;
                                          _size := Some (image_size im);
                                          _obj := Some current_obj |}]> ops) w))
    end
  else Some (inr w).

Section Stream.

(** [cv2.resize(frame, dsize, interpolation=cv2.INTER_AREA)]: the resampled
    frame, or [None] when OpenCV raises.  The interpolation is left open. *)
Variable cv2_resize : Frame -> Z * Z -> option Frame.

(** Lines 146-157, up to the value assigned to [self._img.pixels].  The
    comment of lines 148-149 speaks of a vertical flip; the code does none,
    and the rows stay in the order [cv2.resize] gives them. *)
Definition frame_to_pixels (size : Z * Z) (frame : Frame) : option (list float32) :=
  resized ← cv2_resize frame size;
  let rgb := cvtColor_BGR2RGB resized in
  rgba ← np_ones (snd size) (fst size);
  rgba ← assign_first_three rgba (astype_float32_div_255 rgb);
  Some (flatten rgba).

Definition WM_OT_webcam_stream_start_cancel (w : World) (self : nat) : option World :=
  op ← stream_operators w !! self;
  let w := match _timer op with
           | Some timer => event_timer_remove timer w
           | None => w
           end in
  let w := match _cap op with
           | Some cap => VideoCapture_release cap w
           | None => w
           end in
  Some (set_STATE (λ st, {| running := false; last_error := last_error st;
                            operator := None |}) w).

(** [read_result] is what [self._cap.read()] gives in this tick, should the
    tick get to it: [Some frame] for [(True, frame)], [None] for a failed read. *)
Definition WM_OT_webcam_stream_start_modal (w : World) (self : nat)
    (event_type : string) (read_result : option Frame) : option (Status * World) :=
  if decide (event_type = "ESC") then
    w ← WM_OT_webcam_stream_start_cancel w self;
    Some (CANCELLED, w)
  else if decide (event_type = "TIMER") then
    match webcam_target_object (scene w) with
    | None => Some (PASS_THROUGH, w)
    | Some current_obj =>
        next ← rebind_target w self current_obj;
        match next with
        | inl w => Some (PASS_THROUGH, w)
        | inr w =>
            op ← stream_operators w !! self;
            cap ← _cap op;
            w ← VideoCapture_read cap w;
            match read_result with
            | Some frame =>
                size ← _size op;
                flat ← frame_to_pixels size frame;
                img ← _img op;
                w ← image_set_pixels img flat w;
                Some (PASS_THROUGH, tag_redraw_view_3d w)
            | None => Some (PASS_THROUGH, w)
            end
        end
    end
  else Some (PASS_THROUGH, w).

End Stream.

Definition WM_OT_webcam_stream_start_execute (w : World) (self : nat)
    : option (Status * World) :=
  if running (STATE w) then Some (FINISHED, w)
  else if negb (_CV2_AVAILABLE w) then
    Some (CANCELLED,
          set_error "OpenCV (cv2) is not available. Install it in Blender's Python environment." w)
  else
    let obj := webcam_target_object (scene w) in
    '((img, _mat), w) ← _ensure_material_for_object w obj;
    match img with
    | None => Some (CANCELLED, w)
    | Some img =>
        let '(cap, w) := VideoCapture_open 0 w in
        let w := VideoCapture_set cap "CAP_PROP_FRAME_WIDTH" 1280 w in
        let w := VideoCapture_set cap "CAP_PROP_FRAME_HEIGHT" 720 w in
        _ ← stream_operators w !! self;
        im ← images (data w) !! img;
        let '(timer, w) := event_timer_add FRAME_INTERVAL w in
        let w := set_stream_operators
                   (λ ops, <[self := {| _timer := Some timer; _cap := Some cap;
                                        _img := Some img; _size := Some (image_size im);
                                        _obj := obj |}]> ops) w in
        let w := set_STATE (λ _, {| running := true; last_error := "";
                                    operator := Some self |}) w in
        Some (RUNNING_MODAL, modal_handler_add self w)
    end.

(** ** [WM_OT_webcam_stream_stop] *)

Definition WM_OT_webcam_stream_stop_execute (w : World) : option (Status * World) :=
  w ← match operator (STATE w) with
      | Some op => WM_OT_webcam_stream_start_cancel w op
      | None => Some w
      end;
  Some (FINISHED,
        set_STATE (λ st, {| running := false; last_error := last_error st;
                            operator := operator st |}) w).

(** ** [WM_OT_webcam_save_png] *)

(** [img.save()]: raises when the file cannot be written. *)
Definition image_save (img : nat) (w : World) : option World :=
  im ← images (data w) !! img;
  if decide (image_filepath_raw im ∈ read_only_paths w) then None
  else Some (set_disk (λ fs, fs ++ [(image_filepath_raw im, image_pixels im)]) w).

Definition WM_OT_webcam_save_png_execute (w : World) (filepath : string)
    : option (Status * World) :=
  match webcam_target_object (scene w) with
  | None => Some (CANCELLED, set_error "No target object selected." w)
  | Some obj =>
      let img_base := str_or (strip (webcam_image_name (scene w))) IMAGE_DEFAULT in
      let img_name := img_base +:+ "_" +:+ object_name obj in
      match images_get img_name (images (data w)) with
      | None => Some (CANCELLED, set_error ("Image not found: " +:+ img_name) w)
      | Some img =>
          let path := strip filepath in
          if decide (path = "") then
            Some (CANCELLED, set_error "No file path selected." w)
          else
            let path := if negb (endswith (lower path) ".png")
                        then path +:+ ".png" else path in
            let w := set_data (set_images
                       (alter (λ im, {| image_name := image_name im;
                                        image_size := image_size im;
                                        image_channels := image_channels im;
                                        image_pixels := image_pixels im;
                                        image_filepath_raw := path;
                                        image_file_format := "PNG" |}) img)) w in
            w ← image_save img w;
            Some (FINISHED, w)
      end
  end.

(** ** [WM_OT_webcam_setup_object] *)

Definition WM_OT_webcam_setup_object_execute (w : World) : option (Status * World) :=
  '((img, mat), w) ← _ensure_material_for_object w (webcam_target_object (scene w));
  match img, mat with
  | Some _, Some _ => Some (FINISHED, w)
  | _, _ => Some (CANCELLED, w)
  end.

(** ** [VIEW3D_PT_webcam_stream] *)

(** What [draw] puts into a layout, in order.  A row or a box holds the
    widgets put into it; a row is enabled unless [draw] says otherwise. *)
Inductive Widget :=
| ui_prop (property text : string)
| ui_label (text : string)
| ui_operator (bl_idname text : string).

Inductive UIItem :=
| ui_item (widget : Widget)
| ui_separator
| ui_row (enabled : bool) (items : list Widget)
| ui_box (items : list Widget).

(** [draw] (lines 288-317) *)
Definition VIEW3D_PT_webcam_stream_draw (w : World) : list UIItem :=
  let status := if running (STATE w) then "Running" else "Stopped" in
  [ ui_item (ui_prop "webcam_image_name" "Image");
    ui_item (ui_prop "webcam_target_object" "Target");
    ui_row true [ui_label ("Status: " +:+ status)] ]
  ++ (if decide (last_error (STATE w) = "") then []
      else [ ui_box [ ui_label "Last error:";
                      ui_label (substring 0 120 (last_error (STATE w))) ] ])
  ++ [ ui_row (negb (running (STATE w))) [ui_operator "wm.webcam_stream_start" "Start"];
       ui_row (running (STATE w)) [ui_operator "wm.webcam_stream_stop" "Stop"];
       ui_separator;
       ui_item (ui_prop "webcam_material_name" "Material");
       ui_row true [ ui_prop "webcam_image_width" "Width";
                     ui_prop "webcam_image_height" "Height" ];
       ui_separator;
       ui_item (ui_operator "wm.webcam_save_png" "Save PNG") ].

(** ** [register] and [unregister] *)

(** A property definition made by [bpy.props]. *)
Inductive PropertyDef :=
| StringProperty (name default : string)
| PointerProperty (name type_ update : string)
| IntProperty (name : string) (default min : Z).

(** The classes registered with [bpy.utils] and the properties defined on
    [bpy.types.Scene]. *)
Record Registry := {
  registered_classes : gset string;
  Scene_properties : gmap string PropertyDef
}.

(** [bpy.utils.register_class(cls)]: raises when the class is registered. *)
Definition register_class (cls : string) (r : Registry) : option Registry :=
  if decide (cls ∈ registered_classes r) then None
  else Some {| registered_classes := registered_classes r ∪ {[cls]};
               Scene_properties := Scene_properties r |}.

(** [bpy.utils.unregister_class(cls)]: raises when the class is not registered. *)
Definition unregister_class (cls : string) (r : Registry) : option Registry :=
  if decide (cls ∈ registered_classes r) then
    Some {| registered_classes := registered_classes r ∖ {[cls]};
            Scene_properties := Scene_properties r |}
  else None.

(** [bpy.types.Scene.<name> = definition] *)
Definition Scene_setattr (name : string) (definition : PropertyDef) (r : Registry)
    : Registry :=
  {| registered_classes := registered_classes r;
     Scene_properties := <[name := definition]> (Scene_properties r) |}.

(** [del bpy.types.Scene.<name>]: raises when there is no such attribute. *)
Definition Scene_delattr (name : string) (r : Registry) : option Registry :=
  match Scene_properties r !! name with
  | Some _ => Some {| registered_classes := registered_classes r;
                      Scene_properties := delete name (Scene_properties r) |}
  | None => None
  end.

(** [register] (lines 320-349) *)
Definition register (r : Registry) : option Registry :=
  r ← register_class "WM_OT_webcam_stream_start" r;
  r ← register_class "WM_OT_webcam_stream_stop" r;
  r ← register_class "WM_OT_webcam_save_png" r;
  r ← register_class "WM_OT_webcam_setup_object" r;
  r ← register_class "VIEW3D_PT_webcam_stream" r;
  let r := Scene_setattr "webcam_image_name"
             (StringProperty "Webcam Image" IMAGE_DEFAULT) r in
  let r := Scene_setattr "webcam_material_name"
             (StringProperty "Webcam Material" DEFAULT_MATERIAL_NAME) r in
  let r := Scene_setattr "webcam_target_object"
             (PointerProperty "Target Object" "Object" "_on_target_object_update") r in
  let r := Scene_setattr "webcam_image_width" (IntProperty "Image Width" 1024 1) r in
  let r := Scene_setattr "webcam_image_height" (IntProperty "Image Height" 1024 1) r in
  Some r.

(** [unregister] (lines 352-363) *)
Definition unregister (r : Registry) : option Registry :=
  r ← Scene_delattr "webcam_image_name" r;
  r ← Scene_delattr "webcam_material_name" r;
  r ← Scene_delattr "webcam_target_object" r;
  r ← Scene_delattr "webcam_image_width" r;
  r ← Scene_delattr "webcam_image_height" r;
  r ← unregister_class "VIEW3D_PT_webcam_stream" r;
  r ← unregister_class "WM_OT_webcam_setup_object" r;
  r ← unregister_class "WM_OT_webcam_save_png" r;
  r ← unregister_class "WM_OT_webcam_stream_stop" r;
  unregister_class "WM_OT_webcam_stream_start" r.

(** * The packaging script: a shallow embedding of [src/scripts/package_addon.py]

    [build_zip] works on the file system.  A path is the list of its
    components below the root, the root being the empty list; the file
    system maps the paths that exist to a file with its bytes or to a
    directory.  [addon_name] is one path component, as the default
    ["webcam_uv_texture_stream"] is.  The temporary directory is new, private
    to the call, outside [wheels_dir], and removed when the [with] block is
    left: it is a file system of its own, with paths relative to [tmp_root].
    A raised exception is returned with the file system as it is then. *)

Inductive Entry :=
| File (content : list byte)
| Directory.

Inductive OSError :=
| Missing_addon_entrypoint (src_init : list string)      (* [FileNotFoundError], line 18 *)
| Wheels_directory_not_found (wheels_dir : list string)  (* [FileNotFoundError], line 28 *)
| FileExistsError
| NotADirectoryError
| IsADirectoryError.

(** [Path.exists], [Path.is_dir]: what is at the path. *)
Definition stat (fs : gmap (list string) Entry) (p : list string) : option Entry :=
  match p with
  | [] => Some Directory
  | _ => fs !! p
  end.

(** [Path.mkdir(parents=True, exist_ok=True)]: the missing directories of the
    path are made from the top; it raises, making nothing, when a component
    of the path is a file. *)
Fixpoint mkdir_parents (above below : list string) (fs : gmap (list string) Entry)
    : OSError + gmap (list string) Entry :=
  match below with
  | [] => inr fs
  | name :: below =>
      let p := above ++ [name] in
      match fs !! p with
      | Some (File _) => inl (match below with
                              | [] => FileExistsError
                              | _ => NotADirectoryError
                              end)
      | Some Directory => mkdir_parents p below fs
      | None => mkdir_parents p below (<[p := Directory]> fs)
      end
  end.

(** [path.relative_to(base)], [None] when [path] is not below [base]. *)
Fixpoint relative_to (base p : list string) : option (list string) :=
  match base, p with
  | [], _ => Some p
  | b :: base, c :: p => if decide (b = c) then relative_to base p else None
  | _ :: _, [] => None
  end.

(** [shutil.copytree(src, dst)] into a directory tree where [dst] is new:
    the entries it makes, [dst] included. *)
Definition copytree (src dst : list string) (fs : gmap (list string) Entry)
    : gmap (list string) Entry :=
  set_to_map (λ rel, (dst ++ rel, default Directory (fs !! (src ++ rel))))
    (set_omap (relative_to src) (dom fs) : gset (list string)).

(** [dir.rglob("*")]: everything below [dir]. *)
Definition below (dir p : list string) : bool :=
  match relative_to dir p with
  | Some (_ :: _) => true
  | _ => false
  end.

Definition rglob (dir : list string) (fs : gmap (list string) Entry)
    : gmap (list string) Entry :=
  filter (λ entry, below dir entry.1) fs.

Definition file_content (e : Entry) : option (list byte) :=
  match e with
  | File content => Some content
  | Directory => None
  end.

Section Packaging.

(** The bytes of a [ZIP_DEFLATED] archive with the given members: member
    name (its components, joined by ["/"] in the archive) and content. *)
Variable zip_deflated : gmap (list string) (list byte) -> list byte.

(** [build_zip] (lines 11-41).  [addon_name] is taken as one component of a
    path, which is what [root_dir / "dist" / f"{addon_name}.zip"] and
    [tmp_root / addon_name] make of a name that is a [path_component]; for a
    name that is empty, is ["."] or [".."], or holds a ["/"], pathlib makes
    other paths, and the properties below leave such names out. *)
Definition build_zip (fs : gmap (list string) Entry) (root_dir : list string)
    (addon_name : string) (include_wheels : bool) (wheels_dir : list string)
    : gmap (list string) Entry * (OSError + list string) :=
  let dist_dir := root_dir ++ ["dist"] in
  match mkdir_parents [] dist_dir fs with
  | inl e => (fs, inl e)
  | inr fs =>
      let zip_path := dist_dir ++ [addon_name +:+ ".zip"] in
      let src_init := root_dir ++ ["__init__.py"] in
      match stat fs src_init with
      | None => (fs, inl (Missing_addon_entrypoint src_init))
      | Some Directory => (fs, inl IsADirectoryError)
      | Some (File init) =>
          let addon_dir := [addon_name] in
          let tmp : gmap (list string) Entry :=
            <[addon_dir ++ ["__init__.py"] := File init]> {[ addon_dir := Directory ]} in
          let staged :=
            if include_wheels then
              match stat fs wheels_dir with
              | None => inl (Wheels_directory_not_found wheels_dir)
              | Some (File _) => inl NotADirectoryError
              | Some Directory =>
                  inr (copytree wheels_dir (addon_dir ++ ["wheels"]) fs ∪ tmp)
              end
            else inr tmp in
          match staged with
          | inl e => (fs, inl e)
          | inr tmp =>
              let unlinked :=
                match stat fs zip_path with
                | None => inr fs
                | Some (File _) => inr (delete zip_path fs)
                | Some Directory => inl IsADirectoryError
                end in
              match unlinked with
              | inl e => (fs, inl e)
              | inr fs =>
                  let members := omap file_content (rglob addon_dir tmp) in
                  (<[zip_path := File (zip_deflated members)]> fs, inr zip_path)
              end
          end
      end
  end.

End Packaging.

(** * Vocabulary of the properties *)

(** [w'] is [w] with an error message recorded and nothing else changed. *)
Definition error_recorded (w w' : World) : Prop :=
  ∃ msg, msg ≠ "" ∧ w' = set_error msg w.

(** The image name as the specification words it: the stripped prefix, or
    ["Webcam_Feed"] when that is empty, then ["_"], then the object's name. *)
Definition bound_image_name (prefix object_name : string) : string :=
  (if decide (strip prefix = "") then "Webcam_Feed" else strip prefix)
  +:+ "_" +:+ object_name.

(** The name fits Blender's limit, so it is stored as it is when it is free. *)
Definition fits_name (name : string) : Prop :=
  (utf8_length name <= MAX_NAME_BYTES)%nat.

(** When the specification says the resolver fails: no object, an object
    that is not a mesh, or a width or height that is not positive. *)
Definition failure_expected (w : World) (obj : option Object) : Prop :=
  obj = None
  ∨ (∃ o, obj = Some o ∧ object_type o ≠ "MESH")
  ∨ webcam_image_width (scene w) <= 0
  ∨ webcam_image_height (scene w) <= 0.

(** When the code makes it fail: the size is only looked at when the image
    has to be created. *)
Definition failure_condition (w : World) (obj : option Object) : Prop :=
  obj = None
  ∨ (∃ o, obj = Some o ∧ object_type o ≠ "MESH")
  ∨ (∃ o, obj = Some o
        ∧ images_get (bound_image_name (webcam_image_name (scene w)) (object_name o))
            (images (data w)) = None
        ∧ (webcam_image_width (scene w) <= 0 ∨ webcam_image_height (scene w) <= 0)).

(** The destination as the specification words it: [".png"] is appended
    unless the path already ends in it (whatever the case of the letters). *)
Definition png_destination (path : string) : string :=
  if endswith (lower path) ".png" then path else path +:+ ".png".

(** The image the operator would save: the one found under the name made of
    the scene's prefix and the target's name. *)
Definition image_to_save (w : World) : option nat :=
  o ← webcam_target_object (scene w);
  images_get (bound_image_name (webcam_image_name (scene w)) (object_name o))
    (images (data w)).

(** The paths last written, oldest first. *)
Definition written_paths (w : World) : list string := fst <$> disk w.

(** The three ways a save fails, as the specification lists them. *)
Definition save_failure_condition (w : World) (filepath : string) : Prop :=
  webcam_target_object (scene w) = None
  ∨ (∃ o, webcam_target_object (scene w) = Some o
        ∧ images_get (bound_image_name (webcam_image_name (scene w)) (object_name o))
            (images (data w)) = None)
  ∨ strip filepath = "".

(** One pixel of the buffer, from a BGR pixel of the resized frame. *)
Definition rgba_of_bgr (p : Pixel) : list float32 :=
  let '(b, g, r) := p in [normalize r; normalize g; normalize b; f32_one].

(** The buffer made of a BGR frame: row after row in the frame's order (no
    row is flipped), pixel after pixel, the red, green and blue bytes divided
    by 255 and then the alpha value 1.0. *)
Definition rgba_buffer (resized : Frame) : list float32 :=
  mjoin (rgba_of_bgr <$> mjoin resized).

(** The frame has [height] rows of [width] pixels, [size] being
    [(width, height)]: what [cv2.resize] returns for that size. *)
Definition has_size (size : Z * Z) (resized : Frame) : Prop :=
  length resized = Z.to_nat (snd size)
  ∧ Forall (λ row : list Pixel, length row = Z.to_nat (fst size)) resized.

(** [flat] is the buffer of the frame that [cv2.resize] makes of [frame] for
    the size [size].  OpenCV returns a frame of the size asked for; the
    equation is stated for such a result. *)
Definition resized_into (cv2_resize : Frame -> Z * Z -> option Frame)
    (size : Z * Z) (frame : Frame) (flat : list float32) : Prop :=
  ∃ resized, cv2_resize frame size = Some resized
             ∧ (has_size size resized -> flat = rgba_buffer resized).

(** The number of frames asked of the capture handles so far. *)
Definition device_reads (w : World) : nat :=
  sum_list (capture_reads <$> captures w).

(** The image [im] with [flat] as its pixels. *)
Definition with_pixels (flat : list float32) (im : Image) : Image :=
  {| image_name := image_name im; image_size := image_size im;
     image_channels := image_channels im; image_pixels := flat;
     image_filepath_raw := image_filepath_raw im;
     image_file_format := image_file_format im |}.

(** A float of the buffer lies between 0.0 and 1.0. *)
Definition in_unit_interval (x : float32) : bool :=
  SFleb f32_zero x && SFleb x f32_one.

(** The size the operator holds is the size of the image it is bound to. *)
Definition holds_image_size (w : World) (self : nat) : Prop :=
  ∀ op img im,
    stream_operators w !! self = Some op ->
    _img op = Some img ->
    images (data w) !! img = Some im ->
    _size op = Some (image_size im).

(** The tree has the three nodes under their names, the image on the
    texture node, and the two links. *)
Definition wired (img : nat) (t : NodeTree) : Prop :=
  ∃ tex bsdf output n c bc bo su,
    nodes_get "Webcam Image" t = Some tex
    ∧ nodes t !! tex = Some n
    ∧ node_image n = Some (Some img)
    ∧ nodes_get "Principled BSDF" t = Some bsdf
    ∧ nodes_get "Material Output" t = Some output
    ∧ outputs_get t tex "Color" = Some c
    ∧ inputs_get t bsdf "Base Color" = Some bc
    ∧ outputs_get t bsdf "BSDF" = Some bo
    ∧ inputs_get t output "Surface" = Some su
    ∧ {| from_socket := c; to_socket := bc |} ∈ links t
    ∧ {| from_socket := bo; to_socket := su |} ∈ links t.

(** [t'] has the nodes of [t], perhaps followed by new ones, and its links. *)
Definition grown (t t' : NodeTree) : Prop :=
  links t' = links t ∧ ∃ extra, nodes t' = nodes t ++ extra.

(** The material name the resolver computes for [obj] in [w]. *)
Definition bound_material_name (w : World) (obj : Object) : string :=
  str_or (strip (webcam_material_name (scene w))) DEFAULT_MATERIAL_NAME
  +:+ "_" +:+ object_name obj.

(** The two names the resolver computes for the object in [w], if there is
    one, fit Blender's limit of 63 bytes. *)
Definition names_fit (w : World) (obj : option Object) : Prop :=
  match obj with
  | Some o =>
      fits_name (bound_image_name (webcam_image_name (scene w)) (object_name o))
      ∧ fits_name (bound_material_name w o)
  | None => True
  end.

(** The material of [obj] is in place: found under its name, with nodes
    enabled and a wired tree, and in the first slot of the object's mesh. *)
Definition material_bound (w : World) (obj : Object) (img mat : nat) : Prop :=
  materials_get (bound_material_name w obj) (materials (data w)) = Some mat
  ∧ ∃ M t me,
      materials (data w) !! mat = Some M
      ∧ use_nodes M = true
      ∧ node_tree M = Some t
      ∧ wired img t
      ∧ meshes (data w) !! object_data obj = Some me
      ∧ assign_first_slot mat me = me.

(** The capture handle as a start leaves it: device 0, the two resolution
    requests in order, not released, nothing read yet. *)
Definition opened_capture : VideoCapture :=
  {| capture_index := 0;
     capture_props := [("CAP_PROP_FRAME_WIDTH", 1280); ("CAP_PROP_FRAME_HEIGHT", 720)];
     capture_released := false;
     capture_reads := 0 |}.

(** The timer a start registers. *)
Definition frame_timer : Timer :=
  {| timer_time_step_ms := FRAME_INTERVAL; timer_removed := false |}.

(** * Sample worlds *)

Definition Cube : Object :=
  {| object_name := "Cube"; object_type := "MESH"; object_data := 0 |}.

Definition Lamp : Object :=
  {| object_name := "Light"; object_type := "LIGHT"; object_data := 0 |}.

Definition new_operator : StreamOperator :=
  {| _timer := None; _cap := None; _img := None; _size := None; _obj := None |}.

(** A new file with one mesh object, the scene properties at the given
    values, and one operator instance ready to be executed. *)
Definition sample_world (target : option Object) (width height : Z) : World :=
  {| _CV2_AVAILABLE := true;
     STATE := {| running := false; last_error := ""; operator := None |};
     stdout := [];
     data := {| images := []; materials := []; meshes := [ {| mesh_materials := [] |} ] |};
     scene := {| webcam_image_name := IMAGE_DEFAULT;
                 webcam_material_name := DEFAULT_MATERIAL_NAME;
                 webcam_target_object := target;
                 webcam_image_width := width;
                 webcam_image_height := height |};
     window_manager := {| timers := []; modal_handlers := [] |};
     screen_areas := [ {| area_type := "VIEW_3D"; area_redraw_tags := 0 |} ];
     captures := [];
     stream_operators := [new_operator];
     read_only_paths := [];
     disk := [] |}.

(** The sample world after a successful start on the cube. *)
Definition started_world : World :=
  match WM_OT_webcam_stream_start_execute (sample_world (Some Cube) 2 1) 0 with
  | Some (_, w) => w
  | None => sample_world (Some Cube) 2 1
  end.

(** The user sets the width and height properties of the scene. *)
Definition configure_size (width height : Z) (w : World) : World :=
  {| _CV2_AVAILABLE := _CV2_AVAILABLE w; STATE := STATE w; stdout := stdout w;
     data := data w;
     scene := {| webcam_image_name := webcam_image_name (scene w);
                 webcam_material_name := webcam_material_name (scene w);
                 webcam_target_object := webcam_target_object (scene w);
                 webcam_image_width := width;
                 webcam_image_height := height |};
     window_manager := window_manager w; screen_areas := screen_areas w;
     captures := captures w; stream_operators := stream_operators w;
     read_only_paths := read_only_paths w; disk := disk w |}.

(** The sample world after the resolver has run once on the cube. *)
Definition resolved_world : World :=
  match _ensure_material_for_object (sample_world (Some Cube) 2 1) (Some Cube) with
  | Some (_, w) => w
  | None => sample_world (Some Cube) 2 1
  end.

(** The sample world with the cube's image in place and a path that cannot
    be written. *)
Definition resolved_world_read_only : World :=
  {| _CV2_AVAILABLE := _CV2_AVAILABLE resolved_world; STATE := STATE resolved_world;
     stdout := stdout resolved_world; data := data resolved_world;
     scene := scene resolved_world; window_manager := window_manager resolved_world;
     screen_areas := screen_areas resolved_world; captures := captures resolved_world;
     stream_operators := stream_operators resolved_world;
     read_only_paths := ["/proc/frame.png"]; disk := disk resolved_world |}.

(** A mesh object whose name has sixty letters (Blender allows 63 bytes). *)
Definition long_name : string :=
  "AAAAAAAAAAAAAAAAAAAAAAAAAAAAAAAAAAAAAAAAAAAAAAAAAAAAAAAAAAAA".

Definition Long_named : Object :=
  {| object_name := long_name; object_type := "MESH"; object_data := 0 |}.

(** The sample world after the resolver has run once on that object. *)
Definition resolved_long_world : World :=
  match _ensure_material_for_object (sample_world (Some Long_named) 2 1)
          (Some Long_named) with
  | Some (_, w) => w
  | None => sample_world (Some Long_named) 2 1
  end.

(** A stand-in for [cv2.resize] on sample frames: every pixel of the result
    is the first pixel of the frame. *)
Definition sample_resize (frame : Frame) (size : Z * Z) : option Frame :=
  if (fst size <=? 0) || (snd size <=? 0) then None
  else match frame with
       | (p :: _) :: _ =>
           Some (replicate (Z.to_nat (snd size)) (replicate (Z.to_nat (fst size)) p))
       | _ => None
       end.

(** A frame of one pixel: blue 0, green 128, red 255. *)
Definition sample_frame : Frame := [[(x00, x80, xff)]].

Definition tick (w : World) (read_result : option Frame) : World :=
  match WM_OT_webcam_stream_start_modal sample_resize w 0 "TIMER" read_result with
  | Some (_, w') => w'
  | None => w
  end.

(** A start with 4 x 2 configured before the image exists. *)
Definition started_4_2 : World :=
  match WM_OT_webcam_stream_start_execute (sample_world (Some Cube) 4 2) 0 with
  | Some (_, w) => w
  | None => sample_world (Some Cube) 4 2
  end.

(** The started sample world after [cancel]. *)
Definition cancelled_world : World :=
  match WM_OT_webcam_stream_start_cancel started_world 0 with
  | Some w => w
  | None => started_world
  end.

(** The user picks another target. *)
Definition select_target (target : option Object) (w : World) : World :=
  {| _CV2_AVAILABLE := _CV2_AVAILABLE w; STATE := STATE w; stdout := stdout w;
     data := data w;
     scene := {| webcam_image_name := webcam_image_name (scene w);
                 webcam_material_name := webcam_material_name (scene w);
                 webcam_target_object := target;
                 webcam_image_width := webcam_image_width (scene w);
                 webcam_image_height := webcam_image_height (scene w) |};
     window_manager := window_manager w; screen_areas := screen_areas w;
     captures := captures w; stream_operators := stream_operators w;
     read_only_paths := read_only_paths w; disk := disk w |}.

(** A linked duplicate of the cube: another object on the same mesh. *)
Definition Cube_001 : Object :=
  {| object_name := "Cube.001"; object_type := "MESH"; object_data := 0 |}.

(** The classes and the scene properties of the add-on. *)
Definition addon_classes : list string :=
  [ "WM_OT_webcam_stream_start"; "WM_OT_webcam_stream_stop"; "WM_OT_webcam_save_png";
    "WM_OT_webcam_setup_object"; "VIEW3D_PT_webcam_stream" ].

Definition addon_properties : list string :=
  [ "webcam_image_name"; "webcam_material_name"; "webcam_target_object";
    "webcam_image_width"; "webcam_image_height" ].

(** The value a scene holds for an integer property: the default until a
    value is assigned, and an assigned value raised to the hard minimum. *)
Definition int_property_value (definition : PropertyDef) (assigned : option Z)
    : option Z :=
  match definition with
  | IntProperty _ default min =>
      Some (match assigned with
            | None => default
            | Some v => Z.max min v
            end)
  | _ => None
  end.

(** A Blender in which the add-on is not registered, with one class and one
    scene property of another add-on. *)
Definition sample_registry : Registry :=
  {| registered_classes := {[ "OBJECT_OT_other" ]};
     Scene_properties := {[ "other_setting" := IntProperty "Other" 0 0 ]} |}.

(** [name] is one component of a POSIX path, as the name of an add-on
    folder is: it is not empty, not ["."] and not [".."], it holds neither
    ["/"] nor the NUL character, and with [".zip"] appended it has at most
    255 bytes, the limit of a file name. *)
Definition path_component (name : string) : Prop :=
  name ≠ "" ∧ name ≠ "." ∧ name ≠ ".."
  ∧ Forall (λ c : ascii, c ≠ "/"%char ∧ c ≠ Ascii.zero) (list_ascii_of_string name)
  ∧ (utf8_length (name +:+ ".zip") <= 255)%nat.

(** The path [p] and everything above it are directories. *)
Definition directory_path (fs : gmap (list string) Entry) (p : list string) : Prop :=
  ∀ q, q ≠ [] -> q `prefix_of` p -> fs !! q = Some Directory.

(** A checkout of the repository with a wheels directory, and no [dist]. *)
Definition sample_fs : gmap (list string) Entry :=
  {[ ["repo"] := Directory;
     ["repo"; "__init__.py"] := File [x69; x6d; x70];
     ["repo"; "wheels"] := Directory;
     ["repo"; "wheels"; "cv2.whl"] := File [x50; x4b] ]}.

(** A stand-in for the archive format: the contents of the members, in the
    order of their names. *)
Definition sample_zip (members : gmap (list string) (list byte)) : list byte :=
  mjoin (map_to_list members).*2.

(** The sample checkout after a build with wheels. *)
Definition sample_built : gmap (list string) Entry :=
  (build_zip sample_zip sample_fs ["repo"] "addon" true ["repo"; "wheels"]).1.

(** * Sessions

    The host drives the add-on: it executes the operators, sends events to a
    modal operator, runs the update callback, and creates operator
    instances; the user edits the scene properties in between. *)

Inductive Call :=
| call_start (self : nat)
| call_modal (self : nat) (event_type : string) (read_result : option Frame)
| call_stop
| call_save_png (filepath : string)
| call_setup_object
| call_target_update
| edit_scene (s : Scene)
| new_stream_operator.

Definition set_scene (s : Scene) (w : World) : World :=
  {| _CV2_AVAILABLE := _CV2_AVAILABLE w; STATE := STATE w; stdout := stdout w;
     data := data w; scene := s; window_manager := window_manager w;
     screen_areas := screen_areas w; captures := captures w;
     stream_operators := stream_operators w; read_only_paths := read_only_paths w;
     disk := disk w |}.

Section Session.

Variable cv2_resize : Frame -> Z * Z -> option Frame.

(** The world after one call that returns. *)
Definition call (w : World) (c : Call) : option World :=
  match c with
  | call_start self => snd <$> WM_OT_webcam_stream_start_execute w self
  | call_modal self event_type read_result =>
      snd <$> WM_OT_webcam_stream_start_modal cv2_resize w self event_type read_result
  | call_stop => snd <$> WM_OT_webcam_stream_stop_execute w
  | call_save_png filepath => snd <$> WM_OT_webcam_save_png_execute w filepath
  | call_setup_object => snd <$> WM_OT_webcam_setup_object_execute w
  | call_target_update => _on_target_object_update w
  | edit_scene s => Some (set_scene s w)
  | new_stream_operator =>
      Some (set_stream_operators (λ ops, ops ++ [new_operator]) w)
  end.

(** While a session runs, [ESC] reaches the operator of that session and no
    older instance. *)
Definition esc_reaches_session (w : World) (c : Call) : Prop :=
  match c with
  | call_modal self event_type _ =>
      event_type = "ESC" -> running (STATE w) = true -> operator (STATE w) = Some self
  | _ => True
  end.

(** A sequence of calls, each of which returns. *)
Inductive runs : World -> list Call -> World -> Prop :=
| runs_nil (w : World) : runs w [] w
| runs_cons (w : World) (c : Call) (w1 : World) (cs : list Call) (w2 : World) :
    esc_reaches_session w c ->
    call w c = Some w1 ->
    runs w1 cs w2 ->
    runs w (c :: cs) w2.

End Session.

(** The operator [self] holds the capture handle [c], and [c] is not released. *)
Definition holds_open_handle (w : World) (self c : nat) : Prop :=
  (_cap <$> stream_operators w) !! self = Some (Some c)
  ∧ (capture_released <$> captures w) !! c = Some false.

(** A running session has a registered operator that holds an open handle,
    and every open handle is held by the registered operator of a running
    session. *)
Definition session_consistent (w : World) : Prop :=
  (running (STATE w) = true ->
   ∃ self c, operator (STATE w) = Some self ∧ holds_open_handle w self c)
  ∧ (∀ c, (capture_released <$> captures w) !! c = Some false ->
       running (STATE w) = true
       ∧ ∃ self, operator (STATE w) = Some self
                 ∧ (_cap <$> stream_operators w) !! self = Some (Some c)).

(** The number of capture handles that are not released. *)
Definition open_handles (w : World) : nat :=
  length (filter (λ released : bool, released = false)
            (capture_released <$> captures w)).

(** The sample world started again after [cancel]. *)
Definition restarted_world : World :=
  match WM_OT_webcam_stream_start_execute cancelled_world 0 with
  | Some (_, w) => w
  | None => cancelled_world
  end.

(** * Properties *)

#[global] Arguments _ensure_material_for_object : simpl never.
#[global] Arguments ensure_material : simpl never.
#[global] Arguments rebind_target : simpl never.
#[global] Arguments frame_to_pixels : simpl never.
#[global] Arguments ensure_nodes_and_links : simpl never.
#[global] Arguments default_node_tree : simpl never.

(** ** What the resolver leaves alone *)

Lemma error_recorded_intro (msg : string) (w : World) :
  msg ≠ "" -> error_recorded w (set_error msg w).
Proof. intros Hmsg. exists msg. done. Qed.

Lemma ensure_material_spec (w : World) (obj : Object) (img : nat) r w' :
  ensure_material w obj img = Some (r, w') ->
  ∃ mat d', r = (Some img, Some mat) ∧ w' = set_data (λ _, d') w
            ∧ images d' = images (data w).
Proof.
  unfold ensure_material. intros H.
  destruct (match materials_get _ _ with Some mat => _ | None => _ end) as [mat mats].
  simplify_option_eq. eexists _, _. split; [reflexivity|]. split; reflexivity.
Qed.

(** A call of the resolver either fails, and then only records an error, or
    succeeds, and then changes nothing outside [bpy.data] and keeps every
    image that was there. *)
Lemma ensure_cases (w : World) (obj : option Object) r w' :
  _ensure_material_for_object w obj = Some (r, w') ->
  (r = (None, None) ∧ error_recorded w w')
  ∨ (∃ img mat d', r = (Some img, Some mat) ∧ w' = set_data (λ _, d') w
       ∧ ∃ extra, images d' = images (data w) ++ extra).
Proof.
  unfold _ensure_material_for_object. intros H.
  destruct obj as [obj|].
  - destruct (decide _).
    { left. simplify_eq. split; [done|]. by apply error_recorded_intro. }
    destruct (images_get _ _) as [img|] eqn:Hget.
    + apply ensure_material_spec in H as (mat & d' & -> & -> & Him).
      right. eexists _, _, _. split; [done|]. split; [done|].
      exists []. by rewrite app_nil_r.
    + destruct (_ || _).
      { left. simplify_eq. split; [done|]. by apply error_recorded_intro. }
      unfold images_new in H.
      apply ensure_material_spec in H as (mat & d' & -> & -> & Him).
      right. eexists _, _, _. split; [done|]. split; [done|]. simpl in Him. eauto.
  - left. simplify_eq. split; [done|]. by apply error_recorded_intro.
Qed.

(** Whatever the resolver does, it leaves the session, the window manager,
    the capture handles and the operator instances alone. *)
Lemma ensure_keeps_session (w : World) (obj : option Object) r w' :
  _ensure_material_for_object w obj = Some (r, w') ->
  running (STATE w') = running (STATE w)
  ∧ operator (STATE w') = operator (STATE w)
  ∧ scene w' = scene w
  ∧ window_manager w' = window_manager w
  ∧ captures w' = captures w
  ∧ stream_operators w' = stream_operators w
  ∧ read_only_paths w' = read_only_paths w
  ∧ disk w' = disk w.
Proof.
  intros H. apply ensure_cases in H as [[_ (msg & _ & ->)]|(i & m & d' & _ & -> & _)];
    repeat split; reflexivity.
Qed.

(** ** Start *)

(** C2. When the session is already running, [execute] of the start operator
    returns [FINISHED] and leaves the whole world as it was: no capture
    handle is opened, no timer or modal handler is registered, and [STATE]
    and the operator instances are untouched. *)
Theorem start_when_running_is_noop (w : World) (self : nat) :
  running (STATE w) = true ->
  WM_OT_webcam_stream_start_execute w self = Some (FINISHED, w).
Proof.
  intros Hrun. unfold WM_OT_webcam_stream_start_execute. by rewrite Hrun.
Qed.

Lemma start_when_running_is_noop_witness :
  running (STATE started_world) = true
  ∧ length (captures started_world) = 1%nat
  ∧ WM_OT_webcam_stream_start_execute started_world 0 = Some (FINISHED, started_world).
Proof.
  split; [reflexivity|]. split; [reflexivity|].
  apply (start_when_running_is_noop started_world 0). reflexivity.
Defined.

(** C8. A start that returns [CANCELLED] was not running before and is not
    running after, it opened no capture handle, registered no timer and no
    modal handler, and left the operator instances as they were; and it was
    cancelled because cv2 is missing or because the resolver gave no image. *)
Theorem failed_start_opens_nothing (w : World) (self : nat) (w' : World) :
  WM_OT_webcam_stream_start_execute w self = Some (CANCELLED, w') ->
  running (STATE w) = false
  ∧ running (STATE w') = false
  ∧ operator (STATE w') = operator (STATE w)
  ∧ captures w' = captures w
  ∧ window_manager w' = window_manager w
  ∧ stream_operators w' = stream_operators w
  ∧ (_CV2_AVAILABLE w = false
     ∨ ∃ mat, _ensure_material_for_object w (webcam_target_object (scene w))
              = Some ((None, mat), w')).
Proof.
  unfold WM_OT_webcam_stream_start_execute. intros H.
  destruct (running (STATE w)) eqn:Hrun; [discriminate|].
  destruct (_CV2_AVAILABLE w) eqn:Hcv; simpl in H.
  - destruct (_ensure_material_for_object _ _) as [[[img mat] w1]|] eqn:Hens;
      simpl in H; [|discriminate].
    destruct img as [img|].
    + repeat case_match; simplify_option_eq.
    + simplify_eq.
      destruct (ensure_keeps_session _ _ _ _ Hens) as (Hr & Ho & _ & Hwm & Hc & Hops & _).
      rewrite Hr, Ho, Hwm, Hc, Hops. repeat split; eauto.
  - simplify_eq. repeat split; auto.
Qed.

Lemma failed_start_opens_nothing_witness :
  ∃ w',
    WM_OT_webcam_stream_start_execute (sample_world (Some Lamp) 2 1) 0 = Some (CANCELLED, w')
    ∧ running (STATE w') = false
    ∧ captures w' = []
    ∧ timers (window_manager w') = [].
Proof.
  eexists. split; [reflexivity|].
  destruct (failed_start_opens_nothing (sample_world (Some Lamp) 2 1) 0 _ eq_refl)
    as (_ & Hr & _ & Hc & Hwm & _).
  split; [exact Hr|]. split; [exact Hc|]. by rewrite Hwm.
Defined.

(** ** Names *)

Lemma str_or_strip (prefix : string) :
  str_or (strip prefix) IMAGE_DEFAULT
  = if decide (strip prefix = "") then "Webcam_Feed" else strip prefix.
Proof. destruct (strip prefix); reflexivity. Qed.

Lemma truncate_utf8_fits (n : nat) (s : string) :
  (utf8_length s <= n)%nat -> truncate_utf8 n s = s.
Proof.
  revert n. induction s as [|c s IH]; intros n Hlen; simpl in *; [done|].
  rewrite (proj2 (Nat.leb_le _ _)) by lia. rewrite IH by lia. done.
Qed.

Lemma unique_name_free (taken : list string) (name : string) :
  fits_name name -> name ∉ taken -> unique_name taken name = name.
Proof.
  intros Hfits Hfree. unfold unique_name.
  rewrite (truncate_utf8_fits _ _ Hfits). by rewrite decide_False.
Qed.

Lemma images_get_Some (name : string) (imgs : list Image) (i : nat) :
  images_get name imgs = Some i ->
  ∃ im, imgs !! i = Some im ∧ image_name im = name.
Proof.
  unfold images_get. intros H.
  destruct (list_find _ imgs) as [[j im]|] eqn:Hfind; simplify_eq/=.
  apply list_find_Some in Hfind as (Hl & Hn & _). eauto.
Qed.

Lemma images_get_None (name : string) (imgs : list Image) :
  images_get name imgs = None -> name ∉ image_name <$> imgs.
Proof.
  unfold images_get. intros H.
  destruct (list_find _ imgs) as [[j im]|] eqn:Hfind; simplify_eq/=.
  rewrite list_find_None, Forall_forall in Hfind.
  intros (im & -> & Him)%list_elem_of_fmap. by eapply Hfind.
Qed.

Lemma images_get_new (name : string) (width height : Z) (imgs : list Image) :
  fits_name name ->
  images_get name imgs = None ->
  images_get name (snd (images_new name width height imgs)) = Some (length imgs)
  ∧ fst (images_new name width height imgs) = length imgs.
Proof.
  intros Hfits Hnone. split; [|reflexivity].
  pose proof (images_get_None _ _ Hnone) as Hfree.
  unfold images_get in *. simpl.
  destruct (list_find _ imgs) as [[j im]|] eqn:Hfind; simplify_eq/=.
  rewrite list_find_app_r by done. simpl.
  rewrite decide_True by (by apply unique_name_free). done.
Qed.

(** A successful call returns an image that is there: the one found under
    the name made of the scene's prefix and the object's name, or a new one
    of the configured size.  The image is findable under that name
    afterwards when it was before, or when the name fits Blender's limit. *)
Lemma ensure_image_bound (w : World) (o : Object) (img : nat) mat w1 :
  _ensure_material_for_object w (Some o) = Some ((Some img, mat), w1) ->
  let name := bound_image_name (webcam_image_name (scene w)) (object_name o) in
  (fits_name name ∨ is_Some (images_get name (images (data w))) ->
   images_get name (images (data w1)) = Some img)
  ∧ (images_get name (images (data w)) = Some img
     ∨ images_get name (images (data w)) = None
       ∧ 0 < webcam_image_width (scene w) ∧ 0 < webcam_image_height (scene w)
       ∧ img = length (images (data w))
       ∧ ∃ im, images (data w1) !! img = Some im
               ∧ image_size im
                 = (webcam_image_width (scene w), webcam_image_height (scene w)))
  ∧ is_Some (images (data w1) !! img).
Proof.
  unfold _ensure_material_for_object, bound_image_name. rewrite <- str_or_strip.
  intros H. cbv zeta.
  destruct (decide _); [discriminate|].
  destruct (images_get _ (images (data w))) as [i|] eqn:Hget.
  - apply ensure_material_spec in H as (m & d' & ? & -> & Him). simplify_eq.
    simpl. rewrite Him. split; [done|]. split; [by left|].
    apply images_get_Some in Hget as (im & -> & _). eauto.
  - destruct (_ || _) eqn:Hsize; [discriminate|].
    apply orb_false_elim in Hsize as [Hw Hh].
    destruct (images_new _ _ _ _) as [i imgs] eqn:Hmk.
    apply ensure_material_spec in H as (m & d' & ? & -> & Him). simplify_eq.
    simpl in *. rewrite Him.
    assert (Hlook : ∃ im, imgs !! i = Some im
                          ∧ image_size im
                            = (webcam_image_width (scene w),
                               webcam_image_height (scene w))).
    { unfold images_new in Hmk. injection Hmk as <- <-.
      rewrite lookup_app_r, Nat.sub_diag by done. simpl. eauto. }
    split; [|split].
    + intros [Hfits|[? [=]]].
      destruct (images_get_new _ (webcam_image_width (scene w))
                  (webcam_image_height (scene w)) _ Hfits Hget) as [Hnew Hidx].
      rewrite Hmk in Hnew, Hidx. simpl in *. by subst.
    + right. split; [done|]. split; [lia|]. split; [lia|].
      split; [|done]. unfold images_new in Hmk. by injection Hmk as <- _.
    + destruct Hlook as (im & -> & _). eauto.
Qed.

(** ** Failure of the resolver *)

(** C6, as stated, fails: with the image of the cube already there and the
    width and height set to 0, the resolver succeeds. *)
Lemma resolver_ignores_size_of_existing_image :
  failure_expected (configure_size 0 0 resolved_world) (Some Cube)
  ∧ fst <$> _ensure_material_for_object (configure_size 0 0 resolved_world) (Some Cube)
    = Some (Some 0%nat, Some 0%nat).
Proof.
  split; [|reflexivity].
  right. right. left. simpl. lia.
Qed.

(** Under the failure condition the resolver returns [(None, None)] and the
    world with one error message recorded. *)
Lemma failure_condition_fails (w : World) (obj : option Object) :
  failure_condition w obj ->
  ∃ msg, msg ≠ ""
         ∧ _ensure_material_for_object w obj = Some ((None, None), set_error msg w).
Proof.
  unfold _ensure_material_for_object.
  intros [->|[(o & -> & Htype)|(o & -> & Hget & Hsize)]].
  - eexists. split; [|reflexivity]. done.
  - rewrite decide_True by done. eexists. split; [|reflexivity]. done.
  - destruct (decide _); [eexists; split; [|reflexivity]; done|].
    unfold bound_image_name in Hget. rewrite <- str_or_strip in Hget.
    cbv zeta. rewrite Hget.
    replace (_ || _) with true; [eexists; split; [|reflexivity]; done|].
    symmetry. apply orb_true_iff. rewrite !Z.leb_le. done.
Qed.

(** C6, amended. The resolver returns [(None, None)], records a non-empty
    error message and changes nothing else (no image, material, node, link or
    material slot) whenever the object is absent, the object is not a mesh,
    or the image does not exist yet and the configured width or height is
    not positive. *)
Theorem resolver_failure (w : World) (obj : option Object) :
  failure_condition w obj ->
  ∃ w', _ensure_material_for_object w obj = Some ((None, None), w')
        ∧ error_recorded w w'
        ∧ last_error (STATE w') ≠ ""
        ∧ data w' = data w
        ∧ running (STATE w') = running (STATE w)
        ∧ disk w' = disk w.
Proof.
  intros Hfail.
  destruct (failure_condition_fails w obj Hfail) as (msg & Hmsg & Hres).
  exists (set_error msg w). split; [exact Hres|].
  split; [by apply error_recorded_intro|].
  split; [exact Hmsg|]. by repeat split.
Qed.

Lemma resolver_failure_witness :
  ∃ w', _ensure_material_for_object (sample_world (Some Cube) 0 32) (Some Cube)
        = Some ((None, None), w')
        ∧ last_error (STATE w') = "Invalid image size."
        ∧ images (data w') = [] ∧ materials (data w') = [].
Proof.
  destruct (resolver_failure (sample_world (Some Cube) 0 32) (Some Cube))
    as (w' & Hres & _ & _ & Hdata & _).
  { right. right. exists Cube. split; [reflexivity|]. split; [reflexivity|].
    left. simpl. lia. }
  exists w'. split; [exact Hres|].
  split; [|by rewrite Hdata].
  vm_compute in Hres. by injection Hres as <-.
Defined.

(** ** Save as PNG *)

Lemma lower_app (a b : string) : lower (a +:+ b) = lower a +:+ lower b.
Proof. induction a as [|c a IH]; simpl; [done|]. by rewrite IH. Qed.

Lemma length_append (a b : string) :
  String.length (a +:+ b) = (String.length a + String.length b)%nat.
Proof. induction a as [|c a IH]; simpl; [done|]. by rewrite IH. Qed.

Lemma substring_all (b : string) : substring 0 (String.length b) b = b.
Proof. induction b as [|c b IH]; simpl; [done|]. by rewrite IH. Qed.

Lemma substring_append (a b : string) :
  substring (String.length a) (String.length b) (a +:+ b) = b.
Proof. induction a as [|c a IH]; simpl; [apply substring_all|done]. Qed.

Lemma endswith_append (a b : string) : endswith (a +:+ b) b = true.
Proof.
  unfold endswith. rewrite length_append.
  replace (String.length a + String.length b - String.length b)%nat
    with (String.length a) by lia.
  rewrite substring_append, String.eqb_refl, andb_true_r.
  apply Nat.leb_le. lia.
Qed.

Lemma png_destination_cases (path : string) :
  (endswith (lower path) ".png" = true -> png_destination path = path)
  ∧ (endswith (lower path) ".png" = false -> png_destination path = path +:+ ".png")
  ∧ endswith (lower (png_destination path)) ".png" = true
  ∧ png_destination (png_destination path) = png_destination path.
Proof.
  destruct (endswith (lower path) ".png") eqn:He.
  - assert (Hd : png_destination path = path).
    { unfold png_destination. by rewrite He. }
    rewrite !Hd. done.
  - assert (Hd : png_destination path = path +:+ ".png").
    { unfold png_destination. by rewrite He. }
    assert (Hends : endswith (lower (path +:+ ".png")) ".png" = true).
    { rewrite lower_app. apply endswith_append. }
    rewrite !Hd. repeat split; try done.
    unfold png_destination. by rewrite Hends.
Qed.

(** What a save does when it gets as far as writing. *)
Lemma save_png_writes (w : World) (img : nat) (filepath : string) :
  image_to_save w = Some img ->
  strip filepath ≠ "" ->
  ∃ im, images (data w) !! img = Some im
    ∧ (png_destination (strip filepath) ∉ read_only_paths w ->
       ∃ w', WM_OT_webcam_save_png_execute w filepath = Some (FINISHED, w')
             ∧ disk w' = disk w ++ [(png_destination (strip filepath), image_pixels im)]
             ∧ (image_filepath_raw <$> images (data w') !! img)
               = Some (png_destination (strip filepath))
             ∧ (image_file_format <$> images (data w') !! img) = Some "PNG")
    ∧ (png_destination (strip filepath) ∈ read_only_paths w ->
       WM_OT_webcam_save_png_execute w filepath = None).
Proof.
  unfold image_to_save, WM_OT_webcam_save_png_execute, bound_image_name.
  rewrite <- str_or_strip. intros Himg Hpath.
  destruct (webcam_target_object (scene w)) as [o|]; [|discriminate]. simpl in Himg.
  cbv zeta. rewrite Himg.
  apply images_get_Some in Himg as (im & Him & _). exists im. split; [done|].
  rewrite decide_False by done.
  assert (Hdest : (if negb (endswith (lower (strip filepath)) ".png")
                   then strip filepath +:+ ".png" else strip filepath)
                  = png_destination (strip filepath)).
  { unfold png_destination. by destruct (endswith _ _). }
  rewrite Hdest. unfold image_save. simpl.
  rewrite list_lookup_alter_eq, Him. simpl.
  split; intros Hro.
  - rewrite decide_False by done. eexists. split; [reflexivity|]. simpl.
    rewrite list_lookup_alter_eq, Him. done.
  - by rewrite decide_True.
Qed.

(** C4, as stated, fails on a path with white space around it and on an
    upper-case extension: ["foo "] lacks [".png"] and is written to
    ["foo.png"], not to ["foo .png"]; [" "] is not empty and nothing is
    written; ["foo.PNG"] does not end in [".png"] and is written as it is. *)
Lemma save_png_strips_and_ignores_case :
  (written_paths <$> (snd <$> WM_OT_webcam_save_png_execute resolved_world "foo "))
  = Some ["foo.png"]
  ∧ "foo.png" ≠ "foo " +:+ ".png"
  ∧ (fst <$> WM_OT_webcam_save_png_execute resolved_world " ") = Some CANCELLED
  ∧ (written_paths <$> (snd <$> WM_OT_webcam_save_png_execute resolved_world "foo.PNG"))
    = Some ["foo.PNG"]
  ∧ endswith "foo.PNG" ".png" = false.
Proof. repeat split; done. Qed.

(** C4, amended. With the target's image in place and a destination whose
    stripped form [p] is not empty (and can be written), the operator returns
    [FINISHED] and writes the image's pixels to one file: to [p] itself when
    the lower-cased [p] ends in [".png"], to [p + ".png"] otherwise.  The path
    written always ends in [".png"] up to case, and a path that the operator
    produced is left as it is when given again. *)
Theorem save_png_destination (w : World) (img : nat) (filepath : string) :
  image_to_save w = Some img ->
  strip filepath ≠ "" ->
  png_destination (strip filepath) ∉ read_only_paths w ->
  ∃ w' im dest,
    WM_OT_webcam_save_png_execute w filepath = Some (FINISHED, w')
    ∧ images (data w) !! img = Some im
    ∧ disk w' = disk w ++ [(dest, image_pixels im)]
    ∧ (endswith (lower (strip filepath)) ".png" = true -> dest = strip filepath)
    ∧ (endswith (lower (strip filepath)) ".png" = false
       -> dest = strip filepath +:+ ".png")
    ∧ endswith (lower dest) ".png" = true
    ∧ png_destination dest = dest.
Proof.
  intros Himg Hpath Hro.
  destruct (save_png_writes w img filepath Himg Hpath) as (im & Him & Hok & _).
  destruct (Hok Hro) as (w' & Hexec & Hdisk & _).
  destruct (png_destination_cases (strip filepath)) as (H1 & H2 & H3 & H4).
  exists w', im, (png_destination (strip filepath)). repeat split; done.
Qed.

Lemma save_png_destination_witness :
  ∃ w', WM_OT_webcam_save_png_execute resolved_world "foo" = Some (FINISHED, w')
        ∧ written_paths w' = ["foo.png"].
Proof.
  destruct (save_png_destination resolved_world 0 "foo")
    as (w' & im & dest & Hexec & _ & Hdisk & _ & Hadd & _);
    [reflexivity | done | vm_compute; by intros ?%elem_of_nil | ].
  exists w'. split; [exact Hexec|].
  unfold written_paths. rewrite Hdisk, (Hadd eq_refl). reflexivity.
Defined.

(** The two paths of the specification's example. *)
Example save_png_foo :
  (written_paths <$> (snd <$> WM_OT_webcam_save_png_execute resolved_world "foo"))
  = Some ["foo.png"]
  ∧ (written_paths <$> (snd <$> WM_OT_webcam_save_png_execute resolved_world "foo.png"))
    = Some ["foo.png"].
Proof. split; reflexivity. Qed.

(** A cancelled save met one of the three conditions and only recorded an
    error. *)
Lemma save_png_cancelled_inv (w : World) (filepath : string) (w' : World) :
  WM_OT_webcam_save_png_execute w filepath = Some (CANCELLED, w') ->
  save_failure_condition w filepath ∧ error_recorded w w'.
Proof.
  unfold save_failure_condition, WM_OT_webcam_save_png_execute, bound_image_name.
  rewrite <- str_or_strip. cbv zeta.
  destruct (webcam_target_object (scene w)) as [o|].
  - destruct (images_get _ _) as [img|] eqn:Hget.
    + destruct (decide (strip filepath = "")) as [He|He].
      * intros [= <-]. split; [auto|]. by apply error_recorded_intro.
      * intros H. destruct (image_save _ _); simplify_eq/=.
    + intros [= <-]. split; [eauto 10|]. by apply error_recorded_intro.
  - intros [= <-]. split; [auto|]. by apply error_recorded_intro.
Qed.

(** Each of the three conditions cancels the save. *)
Lemma save_png_cancelled_intro (w : World) (filepath : string) :
  save_failure_condition w filepath ->
  ∃ w', WM_OT_webcam_save_png_execute w filepath = Some (CANCELLED, w').
Proof.
  unfold save_failure_condition, WM_OT_webcam_save_png_execute, bound_image_name.
  rewrite <- str_or_strip. cbv zeta.
  intros [->|[(o & -> & ->)|Hempty]]; [by eexists|by eexists|].
  destruct (webcam_target_object (scene w)) as [o|]; [|by eexists].
  destruct (images_get _ _) as [img|]; [|by eexists].
  rewrite decide_True by done. by eexists.
Qed.

(** C7. The save operator returns [CANCELLED] exactly when the target is
    unset, or no image has the name computed from the prefix and the target,
    or the stripped destination is empty; and whenever it returns [CANCELLED]
    it has recorded a non-empty error message, written no file and left
    [bpy.data] as it was (so it did not create the missing image). *)
Theorem save_png_fails_exactly_when (w : World) (filepath : string) :
  ((∃ w', WM_OT_webcam_save_png_execute w filepath = Some (CANCELLED, w'))
   ↔ save_failure_condition w filepath)
  ∧ (∀ w', WM_OT_webcam_save_png_execute w filepath = Some (CANCELLED, w') ->
       error_recorded w w'
       ∧ last_error (STATE w') ≠ ""
       ∧ disk w' = disk w
       ∧ data w' = data w).
Proof.
  split.
  - split.
    + intros [w' H]. by apply save_png_cancelled_inv in H as [? _].
    + apply save_png_cancelled_intro.
  - intros w' H. apply save_png_cancelled_inv in H as [_ Herr].
    split; [exact Herr|]. destruct Herr as (msg & Hmsg & ->). by repeat split.
Qed.

(** The three failures, and a save that goes through, on sample worlds. *)
Example save_png_outcomes :
  (fst <$> WM_OT_webcam_save_png_execute (sample_world None 2 1) "foo") = Some CANCELLED
  ∧ (fst <$> WM_OT_webcam_save_png_execute (sample_world (Some Cube) 2 1) "foo")
    = Some CANCELLED
  ∧ (images <$> (data <$> (snd <$>
       WM_OT_webcam_save_png_execute (sample_world (Some Cube) 2 1) "foo"))) = Some []
  ∧ (fst <$> WM_OT_webcam_save_png_execute resolved_world "  ") = Some CANCELLED
  ∧ (fst <$> WM_OT_webcam_save_png_execute resolved_world "foo") = Some FINISHED
  ∧ WM_OT_webcam_save_png_execute resolved_world_read_only "/proc/frame" = None.
Proof. repeat split; reflexivity. Qed.

(** C10, as stated, fails: the cube named with sixty letters gets an image
    whose name Blender cuts at 63 bytes, the save operator looks the full
    name up, and right after a successful call of the resolver it returns
    [CANCELLED]: no image is found under the name. *)
Lemma save_misses_image_of_long_name :
  (fst <$> _ensure_material_for_object (sample_world (Some Long_named) 2 1)
             (Some Long_named)) = Some (Some 0%nat, Some 0%nat)
  ∧ image_to_save resolved_long_world = None
  ∧ (fst <$> WM_OT_webcam_save_png_execute resolved_long_world "foo") = Some CANCELLED
  ∧ (last_error <$> (STATE <$> (snd <$>
       WM_OT_webcam_save_png_execute resolved_long_world "foo")))
    = Some ("Image not found: Webcam_Feed_" +:+ long_name).
Proof. repeat split; vm_compute; reflexivity. Qed.

(** C10, amended. After the resolver has returned an image for the scene's
    target, and when the image name fits the 63 bytes Blender stores, the
    save operator looks up that very image: the image carries the name made
    of the stripped prefix (or ["Webcam_Feed"]), ["_"] and the object's name,
    the lookup under that name gives it, and a save can only be cancelled for
    an empty destination; with a destination that can be written, the file
    holds the pixels of that image. *)
Theorem save_finds_resolved_image (w : World) (o : Object) (img : nat) mat
    (w1 : World) (filepath : string) :
  webcam_target_object (scene w) = Some o ->
  _ensure_material_for_object w (Some o) = Some ((Some img, mat), w1) ->
  fits_name (bound_image_name (webcam_image_name (scene w)) (object_name o)) ->
  ∃ im,
    images (data w1) !! img = Some im
    ∧ image_name im = bound_image_name (webcam_image_name (scene w)) (object_name o)
    ∧ image_to_save w1 = Some img
    ∧ (∀ w2, WM_OT_webcam_save_png_execute w1 filepath = Some (CANCELLED, w2) ->
         strip filepath = "")
    ∧ (strip filepath ≠ "" ->
       png_destination (strip filepath) ∉ read_only_paths w1 ->
       ∃ w2, WM_OT_webcam_save_png_execute w1 filepath = Some (FINISHED, w2)
             ∧ disk w2 = disk w1 ++ [(png_destination (strip filepath), image_pixels im)]).
Proof.
  intros Htarget Hens Hfits.
  destruct (ensure_image_bound _ _ _ _ _ Hens) as [Hget _].
  specialize (Hget (or_introl Hfits)).
  destruct (ensure_keeps_session _ _ _ _ Hens) as (_ & _ & Hscene & _).
  destruct (images_get_Some _ _ _ Hget) as (im & Him & Hname).
  assert (Hsave : image_to_save w1 = Some img).
  { unfold image_to_save. rewrite Hscene, Htarget. exact Hget. }
  exists im. split; [done|]. split; [done|]. split; [done|]. split.
  - intros w2 Hcancel.
    apply save_png_cancelled_inv in Hcancel as [Hcond _].
    destruct Hcond as [Hnone|[(o' & Ho' & Hnone)|Hempty]]; [| |done].
    + rewrite Hscene, Htarget in Hnone. discriminate.
    + unfold image_to_save in Hsave. rewrite Ho' in Hsave. simpl in Hsave.
      rewrite Hnone in Hsave. discriminate.
  - intros Hpath Hro.
    destruct (save_png_writes w1 img filepath Hsave Hpath) as (im' & Him' & Hok & _).
    destruct (Hok Hro) as (w2 & Hexec & Hdisk & _). simplify_eq. eauto.
Qed.

Lemma save_finds_resolved_image_witness :
  ∃ im, images (data resolved_world) !! 0%nat = Some im
        ∧ image_name im = "Webcam_Feed_Cube"
        ∧ image_to_save resolved_world = Some 0%nat.
Proof.
  destruct (save_finds_resolved_image (sample_world (Some Cube) 2 1) Cube 0 (Some 0%nat)
              resolved_world "foo" eq_refl eq_refl)
    as (im & Him & Hname & Hsave & _).
  { vm_compute. lia. }
  exists im. split; [exact Him|]. split; [exact Hname|exact Hsave].
Defined.

(** ** The pixel buffer of a tick *)

Lemma normalize_unit_interval (v : byte) :
  SFleb f32_zero (normalize v) = true ∧ SFleb (normalize v) f32_one = true.
Proof. destruct v; vm_compute; split; reflexivity. Qed.

Lemma np_ones_Some (h w : Z) rgba :
  np_ones h w = Some rgba ->
  0 <= h ∧ 0 <= w
  ∧ rgba = replicate (Z.to_nat h)
             (replicate (Z.to_nat w) [f32_one; f32_one; f32_one; f32_one]).
Proof.
  unfold np_ones. destruct (_ || _) eqn:Hneg; [discriminate|].
  apply orb_false_elim in Hneg as [Hh%Z.ltb_ge Hw%Z.ltb_ge]. by intros [= <-].
Qed.

Lemma broadcast_fmap {A B : Type} (f : A -> B) (n : nat) (l : list A) (l' : list B) :
  broadcast n (f <$> l) = Some l' ->
  ∃ l0, l' = f <$> l0 ∧ length l0 = n.
Proof.
  unfold broadcast. destruct (decide _) as [Hlen|Hlen].
  - intros [= <-]. exists l. by rewrite length_fmap in Hlen.
  - destruct l as [|x [|y l]]; simpl; try discriminate.
    intros [= <-]. exists (replicate n x).
    by rewrite fmap_replicate, length_replicate.
Qed.

Lemma assign_rows (w : nat) (px0 : list (list Pixel)) (out : list (list (list float32))) :
  mapM assign_row
       (zip (replicate (length px0) (replicate w [f32_one; f32_one; f32_one; f32_one]))
            (fmap (M := list) (normalize_pixel ∘ swap_red_blue) <$> px0))
  = Some out ->
  ∃ px : list (list Pixel),
    length px = length px0
    ∧ Forall (λ row, length row = w) px
    ∧ out = fmap (M := list) rgba_of_bgr <$> px.
Proof.
  revert out. induction px0 as [|p px0 IH]; intros out; simpl.
  - intros [= <-]. by exists [].
  - rewrite length_replicate. intros H. simplify_option_eq.
    match goal with H : broadcast _ _ = Some _ |- _ =>
      apply broadcast_fmap in H as (p' & -> & Hp') end.
    match goal with H : mapM _ _ = Some _ |- _ =>
      apply IH in H as (px & Hlen & Hall & ->) end.
    exists (p' :: px). split; [simpl; lia|]. split; [by constructor|].
    simpl. f_equal.
    rewrite zip_with_replicate_l by (rewrite length_fmap; lia).
    rewrite <- list_fmap_compose. apply list_fmap_ext. by intros _ [[b g] r] _.
Qed.

(** The buffer of a tick is made of one [rgba_of_bgr] group per pixel of a
    frame with [height] rows of [width] pixels. *)
Lemma frame_to_pixels_shape (cv2_resize : Frame -> Z * Z -> option Frame)
    (size : Z * Z) (frame : Frame) (flat : list float32) :
  frame_to_pixels cv2_resize size frame = Some flat ->
  0 <= fst size ∧ 0 <= snd size
  ∧ ∃ px : list Pixel,
      length px = (Z.to_nat (snd size) * Z.to_nat (fst size))%nat
      ∧ flat = mjoin (rgba_of_bgr <$> px).
Proof.
  unfold frame_to_pixels. intros H. simplify_option_eq.
  match goal with H : np_ones _ _ = Some _ |- _ =>
    apply np_ones_Some in H as (Hh & Hw & ->) end.
  match goal with H : assign_first_three _ _ = Some _ |- _ => rename H into Hassign end.
  unfold assign_first_three in Hassign. simplify_option_eq.
  match goal with H : broadcast _ _ = Some _ |- _ => rename H into Hrows end.
  unfold astype_float32_div_255, cvtColor_BGR2RGB in Hrows.
  rewrite <- list_fmap_compose in Hrows.
  apply broadcast_fmap in Hrows as (px0 & -> & Hlen).
  rewrite length_replicate in Hlen.
  match goal with H : mapM _ _ = Some _ |- _ => rename H into Hmap end.
  rewrite <- Hlen in Hmap.
  erewrite (list_fmap_ext _ (fmap (M := list) (normalize_pixel ∘ swap_red_blue)) px0) in Hmap;
    last first.
  { intros _ row _. simpl. by rewrite <- list_fmap_compose. }
  apply assign_rows in Hmap as (px & Hpx & Hall & ->).
  split; [done|]. split; [done|].
  exists (mjoin px). split.
  - rewrite length_join, (sum_list_fmap_same (Z.to_nat (fst size))) by done. lia.
  - unfold flatten. clear. induction px as [|row px IH]; simpl; [done|].
    rewrite fmap_app, !join_app. f_equal. exact IH.
Qed.

(** Every group of four values of such a buffer is red, green, blue (each a
    byte divided by 255) and the alpha value 1.0. *)
Lemma pixel_groups (px : list Pixel) (k : nat) :
  (k < length px)%nat ->
  ∃ r g b : byte,
    mjoin (rgba_of_bgr <$> px) !! (4 * k)%nat = Some (normalize r)
    ∧ mjoin (rgba_of_bgr <$> px) !! (4 * k + 1)%nat = Some (normalize g)
    ∧ mjoin (rgba_of_bgr <$> px) !! (4 * k + 2)%nat = Some (normalize b)
    ∧ mjoin (rgba_of_bgr <$> px) !! (4 * k + 3)%nat = Some f32_one.
Proof.
  intros Hk. destruct (lookup_lt_is_Some_2 px k Hk) as [[[b g] r] Hp].
  assert (Hall : Forall (λ l : list float32, length l = 4%nat) (rgba_of_bgr <$> px)).
  { apply Forall_fmap, Forall_true. by intros [[??]?]. }
  assert (Hgroup : (rgba_of_bgr <$> px) !! k = Some (rgba_of_bgr (b, g, r))).
  { by rewrite list_lookup_fmap, Hp. }
  exists r, g, b.
  replace (4 * k)%nat with (k * 4 + 0)%nat by lia.
  replace (k * 4 + 0 + 1)%nat with (k * 4 + 1)%nat by lia.
  replace (k * 4 + 0 + 2)%nat with (k * 4 + 2)%nat by lia.
  replace (k * 4 + 0 + 3)%nat with (k * 4 + 3)%nat by lia.
  repeat split; (apply (join_lookup_Some_same_length' 4); [done|lia|]);
    eexists; (split; [exact Hgroup|reflexivity]).
Qed.

Lemma length_pixel_groups (px : list Pixel) :
  length (mjoin (rgba_of_bgr <$> px)) = (length px * 4)%nat.
Proof.
  rewrite length_join, <- list_fmap_compose.
  rewrite (sum_list_fmap_same 4); [done|].
  apply Forall_true. by intros [[??]?].
Qed.

Lemma broadcast_same {A : Type} (n : nat) (l : list A) :
  length l = n -> broadcast n l = Some l.
Proof. intros H. unfold broadcast. by rewrite decide_True. Qed.

Lemma assign_row_exact (w : nat) (row : list Pixel) :
  length row = w ->
  assign_row (replicate w [f32_one; f32_one; f32_one; f32_one],
              (normalize_pixel ∘ swap_red_blue) <$> row)
  = Some (rgba_of_bgr <$> row).
Proof.
  intros <-. unfold assign_row. rewrite length_replicate.
  rewrite broadcast_same by (by rewrite length_fmap). simpl. f_equal.
  rewrite zip_with_replicate_l by (by rewrite length_fmap).
  rewrite <- list_fmap_compose. apply list_fmap_ext. by intros _ [[b g] r] _.
Qed.

Lemma mapM_cons_Some {A B : Type} (f : A -> option B) (x : A) (l : list A)
    (y : B) (k : list B) :
  f x = Some y -> mapM f l = Some k -> mapM f (x :: l) = Some (y :: k).
Proof. intros Hx Hl. simpl. rewrite Hx. simpl. by rewrite Hl. Qed.

Lemma assign_rows_exact (w : nat) (px0 : list (list Pixel)) :
  Forall (λ row, length row = w) px0 ->
  mapM assign_row
       (zip (replicate (length px0) (replicate w [f32_one; f32_one; f32_one; f32_one]))
            (fmap (M := list) (normalize_pixel ∘ swap_red_blue) <$> px0))
  = Some (fmap (M := list) rgba_of_bgr <$> px0).
Proof.
  induction 1 as [|row px0 Hrow _ IH]; [done|].
  apply mapM_cons_Some; [by apply assign_row_exact|exact IH].
Qed.

Lemma flatten_rgba_buffer (resized : Frame) :
  flatten (fmap (M := list) rgba_of_bgr <$> resized) = rgba_buffer resized.
Proof.
  unfold flatten, rgba_buffer. induction resized as [|row px IH]; simpl; [done|].
  rewrite fmap_app, !join_app. f_equal. exact IH.
Qed.

(** The value assigned to the pixels is made of the frame that [cv2.resize]
    returns for the operator's size. *)
Lemma frame_to_pixels_resized (cv2_resize : Frame -> Z * Z -> option Frame)
    (size : Z * Z) (frame : Frame) (flat : list float32) :
  frame_to_pixels cv2_resize size frame = Some flat ->
  resized_into cv2_resize size frame flat.
Proof.
  unfold frame_to_pixels, resized_into. intros H.
  destruct (cv2_resize frame size) as [resized|] eqn:Hres; simplify_eq/=.
  exists resized. split; [done|]. intros [Hrows Hcols].
  destruct (np_ones _ _) as [rgba|] eqn:Hones; simplify_eq/=.
  apply np_ones_Some in Hones as (Hh & Hw & ->).
  unfold assign_first_three in H. rewrite length_replicate in H.
  unfold astype_float32_div_255, cvtColor_BGR2RGB in H.
  rewrite <- list_fmap_compose in H.
  rewrite broadcast_same in H by (by rewrite length_fmap).
  simpl in H.
  erewrite (list_fmap_ext _ (fmap (M := list) (normalize_pixel ∘ swap_red_blue)) resized)
    in H; last first.
  { intros _ row _. simpl. by rewrite <- list_fmap_compose. }
  rewrite <- Hrows in H. rewrite assign_rows_exact in H by done.
  simpl in H. injection H as <-. apply flatten_rgba_buffer.
Qed.

(** When [cv2.resize] returns a frame of the size asked for, the conversion
    goes through. *)
Lemma frame_to_pixels_returns (cv2_resize : Frame -> Z * Z -> option Frame)
    (size : Z * Z) (frame resized : Frame) :
  0 <= fst size -> 0 <= snd size ->
  cv2_resize frame size = Some resized ->
  has_size size resized ->
  frame_to_pixels cv2_resize size frame = Some (rgba_buffer resized).
Proof.
  intros Hw Hh Hres [Hrows Hcols]. unfold frame_to_pixels. rewrite Hres. simpl.
  unfold np_ones.
  rewrite (proj2 (Z.ltb_ge _ _) Hh), (proj2 (Z.ltb_ge _ _) Hw). simpl.
  unfold assign_first_three. rewrite length_replicate.
  unfold astype_float32_div_255, cvtColor_BGR2RGB.
  rewrite <- list_fmap_compose.
  rewrite broadcast_same by (by rewrite length_fmap).
  simpl.
  erewrite (list_fmap_ext _ (fmap (M := list) (normalize_pixel ∘ swap_red_blue)) resized);
    last first.
  { intros _ row _. simpl. by rewrite <- list_fmap_compose. }
  rewrite <- Hrows. rewrite assign_rows_exact by done.
  simpl. by rewrite flatten_rgba_buffer.
Qed.

(** ** Ticks *)

Lemma reads_alter (f : VideoCapture -> VideoCapture) (cap : nat) (cs : list VideoCapture) :
  (∀ c, capture_reads (f c) = capture_reads c) ->
  capture_reads <$> alter f cap cs = capture_reads <$> cs.
Proof.
  intros Hf. apply list_eq. intros i. rewrite !list_lookup_fmap.
  destruct (decide (i = cap)) as [->|Hne].
  - rewrite list_lookup_alter_eq. destruct (cs !! cap); simpl; [|done]. by rewrite Hf.
  - by rewrite list_lookup_alter_ne.
Qed.

Lemma reads_insert (cap : nat) (c c' : VideoCapture) (cs : list VideoCapture) :
  cs !! cap = Some c ->
  capture_reads c' = S (capture_reads c) ->
  sum_list (capture_reads <$> <[cap := c']> cs) = S (sum_list (capture_reads <$> cs)).
Proof.
  revert cap. induction cs as [|c0 cs IH]; intros [|cap] Hc Hreads; simplify_eq/=.
  - lia.
  - rewrite (IH cap) by done. lia.
Qed.

Lemma cancel_keeps_reads (w : World) (self : nat) (w' : World) :
  WM_OT_webcam_stream_start_cancel w self = Some w' ->
  device_reads w' = device_reads w ∧ data w' = data w
  ∧ stream_operators w' = stream_operators w.
Proof.
  unfold WM_OT_webcam_stream_start_cancel. intros H. simplify_option_eq.
  unfold device_reads.
  repeat case_match; simpl; rewrite ?reads_alter; done.
Qed.

Lemma read_spec (cap : nat) (w w' : World) :
  VideoCapture_read cap w = Some w' ->
  device_reads w' = S (device_reads w)
  ∧ STATE w' = STATE w ∧ data w' = data w
  ∧ stream_operators w' = stream_operators w.
Proof.
  unfold VideoCapture_read. intros H. simplify_option_eq.
  split; [|done]. unfold device_reads. simpl. by erewrite reads_insert.
Qed.

Lemma rebind_target_inl (w : World) (self : nat) (current_obj : Object) (w1 : World) :
  rebind_target w self current_obj = Some (inl w1) -> error_recorded w w1.
Proof.
  unfold rebind_target. intros H.
  destruct (stream_operators w !! self) as [op|] eqn:Hop; simplify_eq/=.
  destruct (match _obj op with Some _ => _ | None => _ end); simplify_eq/=.
  destruct (_ensure_material_for_object _ _) as [[[[img|] mat] w0]|] eqn:Hens;
    simplify_eq/=.
  - destruct (images (data w0) !! img); simplify_eq/=.
  - by apply ensure_cases in Hens as [[_ Herr]|(i & m & d' & ? & _)].
Qed.

(** A tick that goes on has either kept the operator as it was or bound it
    to the image the resolver returned, with that image's size. *)
Lemma rebind_target_inr (w : World) (self : nat) (current_obj : Object) (w1 : World) :
  rebind_target w self current_obj = Some (inr w1) ->
  STATE w1 = STATE w
  ∧ captures w1 = captures w
  ∧ (∃ extra, images (data w1) = images (data w) ++ extra)
  ∧ (w1 = w
     ∨ ∃ op img im,
         stream_operators w1 !! self = Some op
         ∧ _img op = Some img
         ∧ images (data w1) !! img = Some im
         ∧ _size op = Some (image_size im)).
Proof.
  unfold rebind_target. intros H.
  destruct (stream_operators w !! self) as [op|] eqn:Hop; simplify_eq/=.
  destruct (match _obj op with Some _ => _ | None => _ end); simplify_eq/=; last first.
  { repeat split; auto. exists []. by rewrite app_nil_r. }
  destruct (_ensure_material_for_object _ _) as [[[[img|] mat] w0]|] eqn:Hens;
    simplify_eq/=.
  destruct (images (data w0) !! img) as [im|] eqn:Him; simplify_eq/=.
  pose proof (ensure_keeps_session _ _ _ _ Hens) as (_ & _ & _ & _ & Hcap & Hops & _).
  apply ensure_cases in Hens as [[? _]|(i & m & d' & ? & -> & Hextra)]; simplify_eq/=.
  repeat split; auto.
  right. eexists _, i, im.
  split; [apply list_lookup_insert_eq; by eapply lookup_lt_Some|]. done.
Qed.

Lemma image_set_pixels_spec (img : nat) (flat : list float32) (w w' : World) :
  image_set_pixels img flat w = Some w' ->
  ∃ im, images (data w) !! img = Some im
        ∧ Z.of_nat (length flat)
          = fst (image_size im) * snd (image_size im) * image_channels im
        ∧ images (data w') = <[img := with_pixels flat im]> (images (data w))
        ∧ STATE w' = STATE w
        ∧ captures w' = captures w
        ∧ stream_operators w' = stream_operators w.
Proof.
  unfold image_set_pixels. intros H.
  destruct (images (data w) !! img) as [im|] eqn:Him; simplify_eq/=.
  destruct (decide _); simplify_eq/=. exists im. done.
Qed.

Section Ticks.

Variable cv2_resize : Frame -> Z * Z -> option Frame.

(** A tick either returns before it asks the device for a frame, and then
    it has touched neither [bpy.data] nor the operator instances, or it goes
    through the steps below. *)
Lemma modal_cases (w : World) (self : nat) (event_type : string)
    (read_result : option Frame) (st : Status) (w' : World) :
  WM_OT_webcam_stream_start_modal cv2_resize w self event_type read_result
  = Some (st, w') ->
  (device_reads w' = device_reads w ∧ data w' = data w
   ∧ stream_operators w' = stream_operators w)
  ∨ ∃ current_obj w1 op cap w2,
      st = PASS_THROUGH
      ∧ rebind_target w self current_obj = Some (inr w1)
      ∧ stream_operators w1 !! self = Some op
      ∧ _cap op = Some cap
      ∧ VideoCapture_read cap w1 = Some w2
      ∧ match read_result with
        | None => w' = w2
        | Some frame =>
            ∃ size flat img w3,
              _size op = Some size
              ∧ frame_to_pixels cv2_resize size frame = Some flat
              ∧ _img op = Some img
              ∧ image_set_pixels img flat w2 = Some w3
              ∧ w' = tag_redraw_view_3d w3
        end.
Proof.
  unfold WM_OT_webcam_stream_start_modal. intros H.
  destruct (decide (event_type = "ESC")).
  { destruct (WM_OT_webcam_stream_start_cancel w self) as [w0|] eqn:Hc; simplify_eq/=.
    left. apply cancel_keeps_reads in Hc as (? & ? & ?). done. }
  destruct (decide (event_type = "TIMER")); [|left; by simplify_eq].
  destruct (webcam_target_object (scene w)) as [current_obj|]; [|left; by simplify_eq].
  destruct (rebind_target w self current_obj) as [[w1|w1]|] eqn:Hre; simplify_eq/=.
  { left. apply rebind_target_inl in Hre as (msg & _ & ->). done. }
  destruct (stream_operators w1 !! self) as [op|] eqn:Hop; simplify_eq/=.
  destruct (_cap op) as [cap|] eqn:Hcap; simplify_eq/=.
  destruct (VideoCapture_read cap w1) as [w2|] eqn:Hread; simplify_eq/=.
  right. exists current_obj, w1, op, cap, w2.
  destruct read_result as [frame|]; [|by simplify_eq].
  destruct (_size op) as [size|] eqn:Hsize; simplify_eq/=.
  destruct (frame_to_pixels cv2_resize size frame) as [flat|] eqn:Hflat; simplify_eq/=.
  destruct (_img op) as [img|] eqn:Himg; simplify_eq/=.
  destruct (image_set_pixels img flat w2) as [w3|] eqn:Hset; simplify_eq/=.
  repeat (split; [done|]). by exists size, flat, img, w3.
Qed.

(** A tick that asked the device for a frame: what it went through. *)
Lemma modal_read_inv (w : World) (self : nat) (event_type : string)
    (read_result : option Frame) (st : Status) (w' : World) :
  WM_OT_webcam_stream_start_modal cv2_resize w self event_type read_result
  = Some (st, w') ->
  device_reads w' ≠ device_reads w ->
  ∃ current_obj w1 op cap w2,
    st = PASS_THROUGH
    ∧ rebind_target w self current_obj = Some (inr w1)
    ∧ stream_operators w1 !! self = Some op
    ∧ _cap op = Some cap
    ∧ VideoCapture_read cap w1 = Some w2
    ∧ match read_result with
      | None => w' = w2
      | Some frame =>
          ∃ size flat img w3,
            _size op = Some size
            ∧ frame_to_pixels cv2_resize size frame = Some flat
            ∧ _img op = Some img
            ∧ image_set_pixels img flat w2 = Some w3
            ∧ w' = tag_redraw_view_3d w3
      end.
Proof.
  intros H Hreads. by destruct (modal_cases _ _ _ _ _ _ H) as [(? & _)|?].
Qed.

(** C3. A tick that asked the device for a frame and got none leaves the
    running flag and the last error as they were and every image, with its
    pixels, as it was; the tick passes the event through. *)
Theorem failed_read_skips_tick (w : World) (self : nat) (event_type : string)
    (st : Status) (w' : World) :
  WM_OT_webcam_stream_start_modal cv2_resize w self event_type None = Some (st, w') ->
  device_reads w' ≠ device_reads w ->
  st = PASS_THROUGH
  ∧ running (STATE w') = running (STATE w)
  ∧ last_error (STATE w') = last_error (STATE w)
  ∧ (∀ i im, images (data w) !! i = Some im -> images (data w') !! i = Some im)
  ∧ device_reads w' = S (device_reads w).
Proof.
  intros H Hreads.
  destruct (modal_read_inv _ _ _ _ _ _ H Hreads)
    as (cur & w1 & op & cap & w2 & -> & Hre & _ & _ & Hread & ->).
  apply rebind_target_inr in Hre as (Hst & Hcaps & [extra Himgs] & _).
  apply read_spec in Hread as (Hn & Hst2 & Hd2 & _).
  rewrite Hst2, Hd2, Hst, Himgs. repeat split; try done.
  - intros i im Hi. by apply lookup_app_l_Some.
  - rewrite Hn. unfold device_reads. by rewrite Hcaps.
Qed.

(** C9. A tick that read a frame has assigned to the bound image a buffer of
    [height * width * 4] floats, [(width, height)] being the size the
    operator holds; the buffer is one group of four floats per pixel: red,
    green and blue, each a byte divided by 255 in float32 and so between 0.0
    and 1.0, and then the alpha value, which is exactly 1.0.  The bytes are
    those of the frame that [cv2.resize] returns for the frame read and that
    size: the buffer is that frame (of the size asked for), row after row
    and pixel after pixel. *)
Theorem tick_pixel_buffer (w : World) (self : nat) (event_type : string)
    (frame : Frame) (st : Status) (w' : World) :
  WM_OT_webcam_stream_start_modal cv2_resize w self event_type (Some frame)
  = Some (st, w') ->
  device_reads w' ≠ device_reads w ->
  ∃ op img im width height,
    stream_operators w' !! self = Some op
    ∧ _img op = Some img
    ∧ _size op = Some (width, height)
    ∧ images (data w') !! img = Some im
    ∧ 0 <= width ∧ 0 <= height
    ∧ length (image_pixels im) = (Z.to_nat height * Z.to_nat width * 4)%nat
    ∧ resized_into cv2_resize (width, height) frame (image_pixels im)
    ∧ ∀ k, (k < Z.to_nat height * Z.to_nat width)%nat ->
        ∃ r g b : byte,
          image_pixels im !! (4 * k)%nat = Some (normalize r)
          ∧ image_pixels im !! (4 * k + 1)%nat = Some (normalize g)
          ∧ image_pixels im !! (4 * k + 2)%nat = Some (normalize b)
          ∧ image_pixels im !! (4 * k + 3)%nat = Some f32_one
          ∧ in_unit_interval (normalize r) = true
          ∧ in_unit_interval (normalize g) = true
          ∧ in_unit_interval (normalize b) = true.
Proof.
  intros H Hreads.
  destruct (modal_read_inv _ _ _ _ _ _ H Hreads)
    as (cur & w1 & op & cap & w2 & -> & _ & Hop & _ & Hread
        & ([width height] & flat & img & w3 & Hsize & Hflat & Himg & Hset & ->)).
  apply read_spec in Hread as (_ & _ & Hd2 & Hops2).
  apply image_set_pixels_spec in Hset as (im & Him & _ & Himgs & _ & _ & Hops3).
  pose proof (frame_to_pixels_resized _ _ _ _ Hflat) as Hresized.
  apply frame_to_pixels_shape in Hflat as (Hw & Hh & px & Hlen & ->). simpl in *.
  exists op, img, (with_pixels (mjoin (rgba_of_bgr <$> px)) im), width, height.
  split; [by rewrite Hops3, Hops2|]. split; [done|]. split; [done|].
  split. { rewrite Himgs. apply list_lookup_insert_eq. by eapply lookup_lt_Some. }
  split; [done|]. split; [done|]. simpl.
  split; [by rewrite length_pixel_groups, Hlen|].
  split; [exact Hresized|].
  intros k Hk. rewrite <- Hlen in Hk.
  destruct (pixel_groups px k Hk) as (r & g & b & H0 & H1 & H2 & H3).
  exists r, g, b. repeat (split; [done|]).
  unfold in_unit_interval.
  destruct (normalize_unit_interval r) as [-> ->].
  destruct (normalize_unit_interval g) as [-> ->].
  destruct (normalize_unit_interval b) as [-> ->]. done.
Qed.

Lemma rebind_keeps_image_size (w : World) (self : nat) (current_obj : Object)
    (w1 : World) :
  holds_image_size w self ->
  rebind_target w self current_obj = Some (inr w1) ->
  holds_image_size w1 self.
Proof.
  intros Hinv Hre.
  apply rebind_target_inr in Hre as (_ & _ & _ & [->|(op & img & im & Hop & Himg & Him & Hsz)]);
    [done|].
  intros op' img' im' Hop' Himg' Him'. by simplify_eq.
Qed.

(** A tick keeps the size of every image, keeps the operator's size equal to
    its image's, and, when it writes a frame, writes the frame resized to
    the size of the image it is bound to. *)
Lemma modal_image_size (w : World) (self : nat) (event_type : string)
    (read_result : option Frame) (st : Status) (w' : World) :
  holds_image_size w self ->
  WM_OT_webcam_stream_start_modal cv2_resize w self event_type read_result
  = Some (st, w') ->
  holds_image_size w' self
  ∧ (∀ i im, images (data w) !! i = Some im ->
       ∃ im', images (data w') !! i = Some im' ∧ image_size im' = image_size im)
  ∧ (∀ frame, read_result = Some frame -> device_reads w' ≠ device_reads w ->
       ∃ op img im',
         stream_operators w' !! self = Some op
         ∧ _img op = Some img
         ∧ images (data w') !! img = Some im'
         ∧ _size op = Some (image_size im')
         ∧ frame_to_pixels cv2_resize (image_size im') frame = Some (image_pixels im')).
Proof.
  intros Hinv H.
  destruct (modal_cases _ _ _ _ _ _ H)
    as [(Hr & Hd & Hops)|(cur & w1 & op & cap & w2 & -> & Hre & Hop & _ & Hread & Hrest)].
  { split; [|split].
    - unfold holds_image_size. rewrite Hd, Hops. exact Hinv.
    - intros i im Hi. rewrite Hd. eauto.
    - intros frame _ Hneq. done. }
  pose proof (rebind_keeps_image_size _ _ _ _ Hinv Hre) as Hinv1.
  apply rebind_target_inr in Hre as (_ & _ & [extra Himgs] & _).
  apply read_spec in Hread as (_ & _ & Hd2 & Hops2).
  destruct read_result as [frame|].
  - destruct Hrest as (size & flat & img & w3 & Hsize & Hflat & Himg & Hset & ->).
    apply image_set_pixels_spec in Hset as (im & Him & _ & Himgs3 & _ & _ & Hops3).
    rewrite Hd2 in Him, Himgs3.
    assert (Hsz : size = image_size im).
    { specialize (Hinv1 op img im Hop Himg Him). congruence. }
    subst size.
    assert (Hnew : images (data w3) !! img = Some (with_pixels flat im)).
    { rewrite Himgs3. apply list_lookup_insert_eq. by eapply lookup_lt_Some. }
    split; [|split].
    + intros op' img' im' Hop' Himg' Him'. simpl in *.
      rewrite Hops3, Hops2 in Hop'. by simplify_eq.
    + intros i im0 Hi. simpl.
      assert (Hi1 : images (data w1) !! i = Some im0).
      { rewrite Himgs. by apply lookup_app_l_Some. }
      destruct (decide (i = img)) as [->|Hne].
      * exists (with_pixels flat im). split; [done|]. by simplify_eq.
      * exists im0. split; [|done]. rewrite Himgs3. by rewrite list_lookup_insert_ne.
    + intros frame' [= <-] _. exists op, img, (with_pixels flat im). simpl.
      split; [by rewrite Hops3, Hops2|]. done.
  - subst w'. split; [|split].
    + unfold holds_image_size. rewrite Hd2, Hops2. exact Hinv1.
    + intros i im Hi. exists im. split; [|done].
      rewrite Hd2, Himgs. by apply lookup_app_l_Some.
    + intros frame [=].
Qed.

End Ticks.

Lemma start_holds_image_size (w : World) (self : nat) (w' : World) :
  WM_OT_webcam_stream_start_execute w self = Some (RUNNING_MODAL, w') ->
  holds_image_size w' self ∧ running (STATE w') = true.
Proof.
  unfold WM_OT_webcam_stream_start_execute. intros H.
  destruct (running (STATE w)); [discriminate|].
  destruct (negb _); [discriminate|].
  destruct (_ensure_material_for_object _ _) as [[[[img|] mat] w1]|]; simplify_eq/=.
  destruct (stream_operators w1 !! self) as [op0|] eqn:Hop0; simplify_eq/=.
  destruct (images (data w1) !! img) as [im|] eqn:Him; simplify_eq/=.
  split; [|done].
  intros op img' im' Hop Himg' Him'. simpl in *.
  rewrite list_lookup_insert_eq in Hop by (by eapply lookup_lt_Some).
  injection Hop as <-. simpl in *. by simplify_eq.
Qed.

Lemma ensure_keeps_images (w : World) (obj : option Object) r (w' : World)
    (i : nat) (im : Image) :
  _ensure_material_for_object w obj = Some (r, w') ->
  images (data w) !! i = Some im ->
  images (data w') !! i = Some im.
Proof.
  intros H Hi.
  apply ensure_cases in H as [[_ (msg & _ & ->)]|(img & m & d' & _ & -> & [extra Hex])];
    [done|].
  simpl. rewrite Hex. by apply lookup_app_l_Some.
Qed.

(** C5. The size of the bound image is fixed when the image is created:
    - an image the resolver creates has the configured width and height;
    - whatever width and height are configured later, the resolver leaves
      every existing image as it is;
    - a start leaves the operator holding the size of its image;
    - with the operator holding the size of its image, a tick, whatever
      width and height are configured, keeps the size of every image, keeps
      the operator's size equal to its image's, and when it writes a frame,
      writes the frame that [cv2.resize] returns for the frame read and the
      size of the image. *)
Theorem image_size_fixed_at_creation :
  (∀ w o width height img mat w',
     images_get (bound_image_name (webcam_image_name (scene w)) (object_name o))
       (images (data w)) = None ->
     _ensure_material_for_object (configure_size width height w) (Some o)
     = Some ((Some img, mat), w') ->
     ∃ im, images (data w') !! img = Some im ∧ image_size im = (width, height))
  ∧ (∀ w width height obj r w' i im,
       _ensure_material_for_object (configure_size width height w) obj = Some (r, w') ->
       images (data w) !! i = Some im ->
       images (data w') !! i = Some im)
  ∧ (∀ w self w',
       WM_OT_webcam_stream_start_execute w self = Some (RUNNING_MODAL, w') ->
       holds_image_size w' self)
  ∧ (∀ cv2_resize w width height self event_type read_result st w',
       holds_image_size w self ->
       WM_OT_webcam_stream_start_modal cv2_resize (configure_size width height w)
         self event_type read_result = Some (st, w') ->
       holds_image_size w' self
       ∧ (∀ i im, images (data w) !! i = Some im ->
            ∃ im', images (data w') !! i = Some im' ∧ image_size im' = image_size im)
       ∧ (∀ frame, read_result = Some frame -> device_reads w' ≠ device_reads w ->
            ∃ op img im',
              stream_operators w' !! self = Some op
              ∧ _img op = Some img
              ∧ images (data w') !! img = Some im'
              ∧ _size op = Some (image_size im')
              ∧ resized_into cv2_resize (image_size im') frame (image_pixels im'))).
Proof.
  split; [|split; [|split]].
  - intros w o width height img mat w' Hnone Hens.
    destruct (ensure_image_bound _ _ _ _ _ Hens)
      as (_ & [Hsome|(_ & _ & _ & _ & Him)] & _).
    + simpl in Hsome. congruence.
    + exact Him.
  - intros w width height obj r w' i im Hens Hi.
    by eapply ensure_keeps_images.
  - intros w self w' H. by apply start_holds_image_size in H as [? _].
  - intros rs w width height self ev rd st w' Hinv H.
    apply (modal_image_size rs (configure_size width height w)) in H
      as (Hinv' & Hsizes & Hwrite); [|exact Hinv].
    split; [exact Hinv'|]. split; [exact Hsizes|].
    intros frame Hrd Hreads.
    destruct (Hwrite frame Hrd Hreads) as (op & img & im' & Hop & Himg & Him' & Hsz & Hpx).
    exists op, img, im'. repeat (split; [done|]).
    by apply frame_to_pixels_resized.
Qed.

(** ** The resolver twice *)

Lemma alter_fixed {A : Type} (f : A -> A) (i : nat) (l : list A) (x : A) :
  l !! i = Some x -> f x = x -> alter f i l = l.
Proof.
  intros Hl Hf. apply list_eq. intros j.
  destruct (decide (j = i)) as [->|Hne].
  - by rewrite list_lookup_alter_eq, Hl; simpl; rewrite Hf.
  - by rewrite list_lookup_alter_ne.
Qed.

Lemma alter_last {A : Type} (f : A -> A) (l : list A) (x : A) :
  alter f (length l) (l ++ [x]) = l ++ [f x].
Proof.
  replace (length l) with (length l + 0)%nat at 1 by lia. by rewrite alter_app_r.
Qed.

Lemma nodes_get_Some (name : string) (t : NodeTree) (i : nat) :
  nodes_get name t = Some i ->
  ∃ n, nodes t !! i = Some n ∧ node_name n = name.
Proof.
  unfold nodes_get. intros H.
  destruct (list_find _ _) as [[j n]|] eqn:Hfind; simplify_eq/=.
  apply list_find_Some in Hfind as (Hl & Hn & _). eauto.
Qed.

Lemma nodes_get_None (name : string) (t : NodeTree) :
  nodes_get name t = None -> name ∉ node_name <$> nodes t.
Proof.
  unfold nodes_get. intros H.
  destruct (list_find _ _) as [[j n]|] eqn:Hfind; simplify_eq/=.
  rewrite list_find_None, Forall_forall in Hfind.
  intros (n & -> & Hn)%list_elem_of_fmap. by eapply Hfind.
Qed.

(** A lookup by name only reads the names, in order. *)
Lemma nodes_get_Some_iff (name : string) (t : NodeTree) (i : nat) :
  nodes_get name t = Some i
  ↔ (node_name <$> nodes t) !! i = Some name
    ∧ ∀ j, (j < i)%nat -> (node_name <$> nodes t) !! j ≠ Some name.
Proof.
  unfold nodes_get. split.
  - intros H. destruct (list_find _ _) as [[k n]|] eqn:Hfind; simplify_eq/=.
    apply list_find_Some in Hfind as (Hl & Hn & Hlt).
    rewrite list_lookup_fmap, Hl. simpl. split; [congruence|].
    intros j Hj Hc. rewrite list_lookup_fmap in Hc.
    destruct (nodes t !! j) as [n'|] eqn:Hn'; simplify_eq/=.
    by eapply Hlt.
  - intros [Hi Hlt]. rewrite list_lookup_fmap in Hi.
    destruct (nodes t !! i) as [n|] eqn:Hn; simplify_eq/=.
    assert (Hfind : list_find (λ n0, node_name n0 = node_name n) (nodes t) = Some (i, n)).
    { apply list_find_Some. split; [done|]. split; [done|].
      intros j y Hy Hj Hc. apply (Hlt j Hj).
      rewrite list_lookup_fmap, Hy. simpl. congruence. }
    by rewrite Hfind.
Qed.

Lemma nodes_get_names (name : string) (t t' : NodeTree) :
  node_name <$> nodes t' = node_name <$> nodes t ->
  nodes_get name t' = nodes_get name t.
Proof.
  intros Hnames.
  destruct (nodes_get name t) as [i|] eqn:Ht.
  - apply nodes_get_Some_iff. rewrite Hnames. by apply nodes_get_Some_iff.
  - destruct (nodes_get name t') as [i|] eqn:Ht'; [|done].
    apply nodes_get_Some_iff in Ht'. rewrite Hnames in Ht'.
    apply nodes_get_Some_iff in Ht'. congruence.
Qed.

Lemma nodes_get_app_l (name : string) (t t' : NodeTree) (extra : list Node) (i : nat) :
  nodes t' = nodes t ++ extra ->
  nodes_get name t = Some i -> nodes_get name t' = Some i.
Proof.
  unfold nodes_get. intros -> H.
  destruct (list_find _ (nodes t)) as [[j n]|] eqn:Hfind; simplify_eq/=.
  by erewrite list_find_app_l.
Qed.

Lemma nodes_get_new (name : string) (t t' : NodeTree) (n : Node) :
  nodes t' = nodes t ++ [n] ->
  node_name n = name ->
  nodes_get name t = None ->
  nodes_get name t' = Some (length (nodes t)).
Proof.
  unfold nodes_get. intros -> Hn H.
  destruct (list_find _ (nodes t)) as [[j n']|] eqn:Hfind; simplify_eq/=.
  rewrite list_find_app_r by done. simpl. by rewrite decide_True.
Qed.

Lemma inputs_get_socket (t : NodeTree) (i : nat) (name : string) (s : Socket) :
  inputs_get t i name = Some s -> socket_node s = i.
Proof.
  unfold inputs_get. intros H. destruct (nodes t !! i); simplify_eq/=.
  destruct (list_find _ _) as [[k x]|]; by simplify_eq/=.
Qed.

Lemma nodes_new_spec (bl_idname : string) (t t' : NodeTree) (i : nat) (tmpl : Node) :
  node_template bl_idname = Some tmpl ->
  nodes_new bl_idname t = Some (i, t') ->
  i = length (nodes t)
  ∧ links t' = links t
  ∧ nodes t'
    = nodes t ++ [with_name (unique_name (node_name <$> nodes t) (node_name tmpl)) tmpl].
Proof. unfold nodes_new. intros -> H. by simplify_eq/=. Qed.

Ltac short_name := first [done | vm_compute; lia].

Lemma webcam_image_node_spec (t : NodeTree) (tex : nat) (t1 : NodeTree) :
  webcam_image_node t = Some (tex, t1) ->
  nodes_get "Webcam Image" t1 = Some tex ∧ grown t t1.
Proof.
  unfold webcam_image_node. intros H.
  destruct (nodes_get "Webcam Image" t) as [i|] eqn:Hget.
  { simplify_eq. split; [done|]. split; [done|]. exists []. by rewrite app_nil_r. }
  destruct (nodes_new _ t) as [[i t']|] eqn:Hnew; simplify_eq/=.
  eapply nodes_new_spec in Hnew as (-> & Hlinks & Hnodes); [|reflexivity].
  pose proof (nodes_get_None _ _ Hget) as Hfree.
  unfold node_rename, update_node. simpl. rewrite Hnodes.
  rewrite take_app_length, drop_ge, app_nil_r by (rewrite length_app; simpl; lia).
  rewrite !alter_last, unique_name_free by short_name.
  split; [|split; [done|eauto]].
  eapply nodes_get_new; [reflexivity|reflexivity|done].
Qed.

Lemma principled_bsdf_node_spec (t : NodeTree) (bsdf : nat) (t1 : NodeTree) :
  principled_bsdf_node t = Some (bsdf, t1) ->
  nodes_get "Principled BSDF" t1 = Some bsdf ∧ grown t t1.
Proof.
  unfold principled_bsdf_node. intros H.
  destruct (nodes_get "Principled BSDF" t) as [i|] eqn:Hget.
  { simplify_eq. split; [done|]. split; [done|]. exists []. by rewrite app_nil_r. }
  destruct (nodes_new _ t) as [[i t']|] eqn:Hnew; simplify_eq/=.
  eapply nodes_new_spec in Hnew as (-> & Hlinks & Hnodes); [|reflexivity].
  pose proof (nodes_get_None _ _ Hget) as Hfree.
  unfold update_node. simpl. rewrite Hnodes.
  rewrite alter_last. simpl. rewrite unique_name_free by short_name.
  split; [|split; [done|eauto]].
  eapply nodes_get_new; [reflexivity|reflexivity|done].
Qed.

Lemma material_output_node_spec (t : NodeTree) (output : nat) (t1 : NodeTree) :
  material_output_node t = Some (output, t1) ->
  nodes_get "Material Output" t1 = Some output ∧ grown t t1.
Proof.
  unfold material_output_node. intros H.
  destruct (nodes_get "Material Output" t) as [i|] eqn:Hget.
  { simplify_eq. split; [done|]. split; [done|]. exists []. by rewrite app_nil_r. }
  destruct (nodes_new _ t) as [[i t']|] eqn:Hnew; simplify_eq/=.
  eapply nodes_new_spec in Hnew as (-> & Hlinks & Hnodes); [|reflexivity].
  pose proof (nodes_get_None _ _ Hget) as Hfree.
  unfold update_node. simpl. rewrite Hnodes.
  rewrite alter_last. simpl. rewrite unique_name_free by short_name.
  split; [|split; [done|eauto]].
  eapply nodes_get_new; [reflexivity|reflexivity|done].
Qed.

Lemma node_set_image_spec (i img : nat) (t t' : NodeTree) :
  node_set_image i img t = Some t' ->
  ∃ n, nodes t !! i = Some n
       ∧ nodes t' = <[i := with_image (Some img) n]> (nodes t)
       ∧ links t' = links t.
Proof.
  unfold node_set_image, update_node. intros H.
  destruct (nodes t !! i) as [n|] eqn:Hn; simplify_eq/=.
  destruct (node_image n); simplify_eq/=.
  exists n. split; [done|]. split; [|done].
  apply list_eq. intros j. destruct (decide (j = i)) as [->|Hne].
  - rewrite list_lookup_alter_eq, Hn. simpl.
    by rewrite list_lookup_insert_eq by (by eapply lookup_lt_Some).
  - by rewrite list_lookup_alter_ne, list_lookup_insert_ne.
Qed.

Lemma ensure_link_spec (out_socket in_socket : option Socket) (t t' : NodeTree) :
  ensure_link out_socket in_socket t = Some t' ->
  ∃ o i, out_socket = Some o ∧ in_socket = Some i
         ∧ nodes t' = nodes t
         ∧ {| from_socket := o; to_socket := i |} ∈ links t'
         ∧ ∀ l, l ∈ links t -> to_socket l ≠ i -> l ∈ links t'.
Proof.
  unfold ensure_link. intros H.
  destruct (existsb _ _) eqn:Hex.
  - simplify_eq. apply existsb_exists in Hex as (l & Hl%list_elem_of_In & Hb).
    apply andb_true_iff in Hb as [He1%bool_decide_eq_true He2%bool_decide_eq_true].
    destruct l as [o i]. simpl in *. exists o, i. by repeat split.
  - unfold links_new in H.
    destruct out_socket as [o|], in_socket as [i|]; simplify_eq/=.
    exists o, i. repeat split; try done.
    + apply elem_of_app. right. by apply list_elem_of_singleton.
    + intros l Hl Hne. apply elem_of_app. left. by apply list_elem_of_filter.
Qed.

Lemma ensure_link_present (o i : Socket) (t : NodeTree) :
  {| from_socket := o; to_socket := i |} ∈ links t ->
  ensure_link (Some o) (Some i) t = Some t.
Proof.
  intros Hl. unfold ensure_link.
  replace (existsb _ _) with true; [done|].
  symmetry. apply existsb_exists. eexists. split; [by apply list_elem_of_In|].
  simpl. by rewrite !bool_decide_eq_true_2.
Qed.

Lemma nodes_get_nodes (name : string) (t t' : NodeTree) :
  nodes t' = nodes t -> nodes_get name t' = nodes_get name t.
Proof. unfold nodes_get. by intros ->. Qed.

Lemma outputs_get_nodes (t t' : NodeTree) (i : nat) (name : string) :
  nodes t' = nodes t -> outputs_get t' i name = outputs_get t i name.
Proof. unfold outputs_get. by intros ->. Qed.

Lemma inputs_get_nodes (t t' : NodeTree) (i : nat) (name : string) :
  nodes t' = nodes t -> inputs_get t' i name = inputs_get t i name.
Proof. unfold inputs_get. by intros ->. Qed.

Lemma grown_nodes_get (name : string) (t t' : NodeTree) (i : nat) :
  grown t t' -> nodes_get name t = Some i -> nodes_get name t' = Some i.
Proof. intros [_ [extra Hn]]. by apply nodes_get_app_l with extra. Qed.

Lemma grown_lookup (t t' : NodeTree) (i : nat) (n : Node) :
  grown t t' -> nodes t !! i = Some n -> nodes t' !! i = Some n.
Proof. intros [_ [extra ->]] Hn. by apply lookup_app_l_Some. Qed.

(** What the wiring leaves behind. *)
Lemma ensure_nodes_and_links_wired (img : nat) (t0 t : NodeTree) :
  ensure_nodes_and_links img t0 = Some t -> wired img t.
Proof.
  unfold ensure_nodes_and_links. intros H.
  destruct (webcam_image_node t0) as [[tex t1]|] eqn:H1; simplify_eq/=.
  destruct (node_set_image tex img t1) as [t2|] eqn:H2; simplify_eq/=.
  destruct (principled_bsdf_node t2) as [[bsdf t3]|] eqn:H3; simplify_eq/=.
  destruct (material_output_node t3) as [[output t4]|] eqn:H4; simplify_eq/=.
  destruct (ensure_link _ _ t4) as [t5|] eqn:H5; simplify_eq/=.
  apply webcam_image_node_spec in H1 as [G1 _].
  apply node_set_image_spec in H2 as (n1 & Hn1 & Hnodes2 & _).
  apply principled_bsdf_node_spec in H3 as [G3 Hg3].
  apply material_output_node_spec in H4 as [G4 Hg4].
  apply ensure_link_spec in H5 as (c & bc & Hc & Hbc & Hnodes5 & L1 & _).
  apply ensure_link_spec in H as (bo & su & Hbo & Hsu & Hnodes & L2 & Hkeep).
  (* the texture node in [t2], with its name and its image *)
  assert (G2 : nodes_get "Webcam Image" t2 = Some tex).
  { rewrite <- G1. apply nodes_get_names.
    rewrite Hnodes2, list_fmap_insert. apply list_insert_id.
    by rewrite list_lookup_fmap, Hn1. }
  assert (N2 : nodes t2 !! tex = Some (with_image (Some img) n1)).
  { rewrite Hnodes2. apply list_lookup_insert_eq. by eapply lookup_lt_Some. }
  (* the three nodes in [t4] *)
  pose proof (grown_nodes_get _ _ _ _ Hg4 (grown_nodes_get _ _ _ _ Hg3 G2)) as G2'.
  pose proof (grown_lookup _ _ _ _ Hg4 (grown_lookup _ _ _ _ Hg3 N2)) as N2'.
  pose proof (grown_nodes_get _ _ _ _ Hg4 G3) as G3'.
  (* the two nodes of the second link differ, so the first link stays *)
  assert (Hne : bc ≠ su).
  { intros ->.
    apply inputs_get_socket in Hbc, Hsu. rewrite Hbc in Hsu. subst output.
    apply nodes_get_Some in G3' as (nb & Hb & Hnb), G4 as (no & Ho & Hno).
    rewrite Hb in Ho. injection Ho as <-. rewrite Hnb in Hno. discriminate. }
  assert (Hnodes' : nodes t = nodes t4) by congruence.
  exists tex, bsdf, output, (with_image (Some img) n1), c, bc, bo, su.
  rewrite !(nodes_get_nodes _ _ _ Hnodes'), !(outputs_get_nodes _ _ _ _ Hnodes'),
    !(inputs_get_nodes _ _ _ _ Hnodes'), Hnodes'.
  rewrite (outputs_get_nodes _ _ _ _ Hnodes5) in Hbo.
  rewrite (inputs_get_nodes _ _ _ _ Hnodes5) in Hsu.
  repeat (split; [done|]). split; [|done]. by apply Hkeep.
Qed.

Lemma with_image_fixed (img : nat) (n : Node) :
  node_image n = Some (Some img) -> with_image (Some img) n = n.
Proof. destruct n. simpl. by intros ->. Qed.

(** A wired tree is left as it is. *)
Lemma wired_fixpoint (img : nat) (t : NodeTree) :
  wired img t -> ensure_nodes_and_links img t = Some t.
Proof.
  intros (tex & bsdf & output & n & c & bc & bo & su
          & G1 & Hn & Himg & G3 & G4 & Hc & Hbc & Hbo & Hsu & L1 & L2).
  assert (Hset : node_set_image tex img t = Some t).
  { unfold node_set_image, update_node. rewrite Hn. simpl. rewrite Himg. simpl.
    rewrite (alter_fixed _ _ _ n) by (done || by apply with_image_fixed).
    by destruct t. }
  unfold ensure_nodes_and_links, webcam_image_node, principled_bsdf_node,
    material_output_node.
  rewrite G1. simpl. rewrite Hset. simpl. rewrite G3. simpl. rewrite G4. simpl.
  rewrite Hc, Hbc, (ensure_link_present _ _ _ L1). simpl.
  rewrite Hbo, Hsu. by apply ensure_link_present.
Qed.

Lemma materials_get_Some_iff (name : string) (mats : list Material) (i : nat) :
  materials_get name mats = Some i
  ↔ (material_name <$> mats) !! i = Some name
    ∧ ∀ j, (j < i)%nat -> (material_name <$> mats) !! j ≠ Some name.
Proof.
  unfold materials_get. split.
  - intros H. destruct (list_find _ _) as [[k m]|] eqn:Hfind; simplify_eq/=.
    apply list_find_Some in Hfind as (Hl & Hn & Hlt).
    rewrite list_lookup_fmap, Hl. simpl. split; [congruence|].
    intros j Hj Hc. rewrite list_lookup_fmap in Hc.
    destruct (mats !! j) as [m'|] eqn:Hm'; simplify_eq/=.
    by eapply Hlt.
  - intros [Hi Hlt]. rewrite list_lookup_fmap in Hi.
    destruct (mats !! i) as [m|] eqn:Hm; simplify_eq/=.
    assert (Hfind : list_find (λ m0, material_name m0 = material_name m) mats
                    = Some (i, m)).
    { apply list_find_Some. split; [done|]. split; [done|].
      intros j y Hy Hj Hc. apply (Hlt j Hj).
      rewrite list_lookup_fmap, Hy. simpl. congruence. }
    by rewrite Hfind.
Qed.

Lemma materials_get_names (name : string) (mats mats' : list Material) (i : nat) :
  material_name <$> mats' = material_name <$> mats ->
  materials_get name mats = Some i -> materials_get name mats' = Some i.
Proof.
  intros Hnames H. apply materials_get_Some_iff. rewrite Hnames.
  by apply materials_get_Some_iff.
Qed.

Lemma materials_get_or_new (name : string) (mats mats0 : list Material) (mat : nat) :
  fits_name name ->
  match materials_get name mats with
  | Some mat => (mat, mats)
  | None => materials_new name mats
  end = (mat, mats0) ->
  materials_get name mats0 = Some mat.
Proof.
  intros Hfits.
  destruct (materials_get name mats) as [i|] eqn:Hget.
  - by intros [= <- <-].
  - unfold materials_new. intros [= <- <-].
    unfold materials_get in *.
    destruct (list_find _ mats) as [[j m]|] eqn:Hfind; simplify_eq/=.
    rewrite list_find_app_r by done. simpl.
    rewrite decide_True; [done|]. apply unique_name_free; [done|].
    rewrite list_find_None, Forall_forall in Hfind.
    intros (m & -> & Hm)%list_elem_of_fmap. by eapply Hfind.
Qed.

Lemma assign_first_slot_twice (mat : nat) (me : Mesh) :
  assign_first_slot mat (assign_first_slot mat me) = assign_first_slot mat me.
Proof. by destruct me as [[|slot rest]]. Qed.

(** What a successful pass over lines 62-104 leaves behind. *)
Lemma ensure_material_bound (w : World) (obj : Object) (img : nat) r (w1 : World) :
  fits_name (bound_material_name w obj) ->
  ensure_material w obj img = Some (r, w1) ->
  ∃ mat, r = (Some img, Some mat) ∧ material_bound w1 obj img mat.
Proof.
  unfold ensure_material. intros Hfits H.
  destruct (match materials_get _ _ with Some mat => _ | None => _ end)
    as [mat mats0] eqn:Hmat.
  apply materials_get_or_new in Hmat; [|exact Hfits].
  destruct (alter enable_nodes mat mats0 !! mat) as [m|] eqn:Hm; simplify_eq/=.
  destruct (node_tree m) as [t0|] eqn:Ht0; simplify_eq/=.
  destruct (ensure_nodes_and_links img t0) as [t|] eqn:Ht; simplify_eq/=.
  destruct (meshes (data w) !! object_data obj) as [me|] eqn:Hme; simplify_eq/=.
  exists mat. split; [done|].
  rewrite list_lookup_alter_eq in Hm.
  destruct (mats0 !! mat) as [m0|] eqn:Hm0; simplify_eq/=.
  split.
  - eapply materials_get_names; [|exact Hmat].
    simpl. rewrite list_fmap_insert. simpl.
    assert (Hnames : material_name <$> alter enable_nodes mat mats0
                     = material_name <$> mats0).
    { apply list_eq. intros j. rewrite !list_lookup_fmap.
      destruct (decide (j = mat)) as [->|Hne].
      - by rewrite list_lookup_alter_eq, Hm0.
      - by rewrite list_lookup_alter_ne. }
    rewrite Hnames. apply list_insert_id. by rewrite list_lookup_fmap, Hm0.
  - simpl. eexists _, t, _. split.
    { apply list_lookup_insert_eq. rewrite length_alter. by eapply lookup_lt_Some. }
    split; [done|]. split; [done|].
    split; [by eapply ensure_nodes_and_links_wired|]. split.
    { apply list_lookup_insert_eq. by eapply lookup_lt_Some. }
    apply assign_first_slot_twice.
Qed.

Lemma world_data_fixed (w : World) :
  set_data (λ d, set_meshes (λ _, meshes (data w))
                   (set_materials (λ _, materials (data w)) d)) w = w.
Proof. by destruct w as [? ? ? [? ? ?] ? ? ? ? ? ? ?]. Qed.

(** With the material in place, lines 62-104 change nothing. *)
Lemma material_bound_fixpoint (w : World) (obj : Object) (img mat : nat) :
  material_bound w obj img mat ->
  ensure_material w obj img = Some ((Some img, Some mat), w).
Proof.
  intros [Hget (M & t & me & HM & Huse & Htree & Hwired & Hme & Hslot)].
  unfold ensure_material. fold (bound_material_name w obj). rewrite Hget.
  assert (Henable : enable_nodes M = M).
  { destruct M. simpl in *. by subst. }
  rewrite (alter_fixed _ _ _ M) by done.
  rewrite HM. simpl. rewrite Htree. simpl.
  rewrite (wired_fixpoint _ _ Hwired). simpl. rewrite Hme. simpl.
  assert (Htree' : with_node_tree t M = M).
  { destruct M. simpl in *. by subst. }
  rewrite Htree', Hslot, !list_insert_id by done.
  by rewrite world_data_fixed.
Qed.

Lemma ensure_fails_inv (w : World) (obj : option Object) mat (w1 : World) :
  _ensure_material_for_object w obj = Some ((None, mat), w1) ->
  failure_condition w obj.
Proof.
  unfold _ensure_material_for_object, failure_condition, bound_image_name.
  rewrite <- str_or_strip. intros H.
  destruct obj as [o|]; [|by left].
  destruct (decide _) as [Htype|_]; [right; left; eauto|].
  right. right. exists o. split; [done|]. cbv zeta in H.
  destruct (images_get _ _) as [img|] eqn:Hget.
  { by apply ensure_material_spec in H as (m & d' & ? & _). }
  split; [done|].
  destruct (_ || _) eqn:Hsize.
  - apply orb_true_iff in Hsize. by rewrite !Z.leb_le in Hsize.
  - destruct (images_new _ _ _ _) as [i imgs].
    by apply ensure_material_spec in H as (m & d' & ? & _).
Qed.

Lemma ensure_success_inv (w : World) (obj : option Object) (img : nat) mat (w1 : World) :
  _ensure_material_for_object w obj = Some ((Some img, mat), w1) ->
  ∃ o w0, obj = Some o
          ∧ object_type o = "MESH"
          ∧ scene w0 = scene w
          ∧ ensure_material w0 o img = Some ((Some img, mat), w1).
Proof.
  unfold _ensure_material_for_object. intros H.
  destruct obj as [o|]; [|discriminate].
  destruct (decide _) as [?|Htype]; [discriminate|].
  apply dec_stable in Htype. exists o. cbv zeta in H.
  destruct (images_get _ _) as [i|] eqn:Hget.
  - pose proof H as H'. apply ensure_material_spec in H' as (m & d' & ? & _).
    simplify_eq. by exists w.
  - destruct (_ || _); [discriminate|].
    destruct (images_new _ _ _ _) as [i imgs].
    pose proof H as H'. apply ensure_material_spec in H' as (m & d' & ? & _).
    simplify_eq. eexists. split; [done|]. split; [done|]. split; [|exact H]. done.
Qed.

(** The image and the material of a successful call are in place in the
    world the call leaves, when their names fit. *)
Lemma ensure_success_bound (w : World) (obj : option Object) (img : nat) mat
    (w1 : World) :
  names_fit w obj ->
  _ensure_material_for_object w obj = Some ((Some img, mat), w1) ->
  ∃ o m, obj = Some o ∧ mat = Some m ∧ object_type o = "MESH"
         ∧ images_get (bound_image_name (webcam_image_name (scene w1)) (object_name o))
             (images (data w1)) = Some img
         ∧ material_bound w1 o img m.
Proof.
  intros Hfit H.
  destruct (ensure_success_inv _ _ _ _ _ H) as (o & w0 & -> & Htype & Hscene0 & Hmat).
  destruct Hfit as [Hfi Hfm].
  destruct (ensure_image_bound _ _ _ _ _ H) as [Hget _].
  specialize (Hget (or_introl Hfi)).
  destruct (ensure_keeps_session _ _ _ _ H) as (_ & _ & Hscene & _).
  apply ensure_material_bound in Hmat as (m & [= ->] & Hbound).
  - exists o, m. rewrite Hscene. done.
  - unfold bound_material_name in *. by rewrite Hscene0.
Qed.

(** With the image and the material in place the resolver returns them and
    changes nothing; only [bpy.data] and the scene properties matter. *)
Lemma bound_resolves (w : World) (o : Object) (img m : nat) :
  object_type o = "MESH" ->
  images_get (bound_image_name (webcam_image_name (scene w)) (object_name o))
    (images (data w)) = Some img ->
  material_bound w o img m ->
  _ensure_material_for_object w (Some o) = Some ((Some img, Some m), w).
Proof.
  intros Htype Hget Hbound.
  unfold _ensure_material_for_object.
  rewrite decide_False by (by intros ?).
  unfold bound_image_name in Hget. rewrite <- str_or_strip in Hget.
  cbv zeta. rewrite Hget.
  by apply material_bound_fixpoint.
Qed.

Lemma bound_transfer (w w' : World) (o : Object) (img m : nat) :
  data w' = data w -> scene w' = scene w ->
  material_bound w o img m -> material_bound w' o img m.
Proof.
  unfold material_bound, bound_material_name. by intros -> ->.
Qed.

(** A world that has the datablocks and scene properties of one the resolver
    succeeded in gets the same answer and is left as it is. *)
Lemma resolved_elsewhere (w : World) (obj : option Object) (img : nat) mat
    (w1 w2 : World) :
  names_fit w obj ->
  _ensure_material_for_object w obj = Some ((Some img, mat), w1) ->
  data w2 = data w1 -> scene w2 = scene w1 ->
  _ensure_material_for_object w2 obj = Some ((Some img, mat), w2).
Proof.
  intros Hfit H Hdata Hscene.
  destruct (ensure_success_bound _ _ _ _ _ Hfit H)
    as (o & m & -> & -> & Htype & Hget & Hb).
  apply bound_resolves; [done| |by eapply bound_transfer].
  by rewrite Hdata, Hscene.
Qed.

(** A call that returned an image returns it again and changes nothing. *)
Lemma ensure_success_fixpoint (w : World) (obj : option Object) (img : nat) mat
    (w1 : World) :
  names_fit w obj ->
  _ensure_material_for_object w obj = Some ((Some img, mat), w1) ->
  _ensure_material_for_object w1 obj = Some ((Some img, mat), w1).
Proof.
  intros Hfit H. by eapply resolved_elsewhere.
Qed.

(** C1, as stated, fails: for a mesh object whose name has sixty letters the
    image name has seventy-two, Blender stores the new image and the new
    material under names cut to 63 bytes, and the second call, which looks
    them up under the whole names, finds neither and returns a second image
    and a second material. *)
Lemma resolver_twice_on_long_name :
  object_type Long_named = "MESH"
  ∧ (fst <$> _ensure_material_for_object (sample_world (Some Long_named) 2 1)
               (Some Long_named)) = Some (Some 0%nat, Some 0%nat)
  ∧ (fst <$> _ensure_material_for_object resolved_long_world (Some Long_named))
    = Some (Some 1%nat, Some 1%nat)
  ∧ length (images (data resolved_long_world)) = 1%nat
  ∧ length (materials (data resolved_long_world)) = 1%nat
  ∧ ((λ w, (length (images (data w)), length (materials (data w)))) <$>
       (snd <$> _ensure_material_for_object resolved_long_world (Some Long_named)))
    = Some (2%nat, 2%nat).
Proof.
  repeat split; vm_compute; reflexivity.
Qed.

(** C1, amended. When the image name and the material name fit Blender's
    limit of 63 bytes and a call of the resolver returns, a second call right
    after it returns the same (image, material) pair and leaves [bpy.data]
    as the first call left it: no image, material, node or link is added,
    and no slot changes.  After a successful first call the second one
    changes nothing at all. *)
Theorem resolver_idempotent (w : World) (obj : option Object)
    (r : option nat * option nat) (w1 : World) :
  names_fit w obj ->
  _ensure_material_for_object w obj = Some (r, w1) ->
  ∃ w2, _ensure_material_for_object w1 obj = Some (r, w2)
        ∧ data w2 = data w1
        ∧ (fst r ≠ None -> w2 = w1).
Proof.
  intros Hfit H. destruct r as [[img|] mat].
  - exists w1. split; [|split; [done|by intros _]].
    by eapply resolved_elsewhere.
  - pose proof (ensure_fails_inv _ _ _ _ H) as Hfail.
    apply ensure_cases in H as [[[= ->] (msg & _ & ->)]|(i & m & d' & ? & _)];
      [|discriminate].
    destruct (failure_condition_fails (set_error msg w) obj Hfail)
      as (msg' & _ & Hres).
    exists (set_error msg' (set_error msg w)).
    split; [exact Hres|]. split; [done|]. by intros [].
Qed.

Lemma resolver_idempotent_witness :
  _ensure_material_for_object (sample_world (Some Cube) 2 1) (Some Cube)
  = Some ((Some 0%nat, Some 0%nat), resolved_world)
  ∧ _ensure_material_for_object resolved_world (Some Cube)
    = Some ((Some 0%nat, Some 0%nat), resolved_world).
Proof.
  split; [reflexivity|].
  destruct (resolver_idempotent (sample_world (Some Cube) 2 1) (Some Cube)
              (Some 0%nat, Some 0%nat) resolved_world)
    as (w2 & Hsecond & _ & Hsame).
  { vm_compute. split; lia. }
  { reflexivity. }
  rewrite (Hsame ltac:(discriminate)) in Hsecond. exact Hsecond.
Defined.

(** ** Sample ticks *)

Lemma failed_read_skips_tick_witness :
  WM_OT_webcam_stream_start_modal sample_resize started_world 0 "TIMER" None
  = Some (PASS_THROUGH, tick started_world None)
  ∧ device_reads (tick started_world None) = 1%nat
  ∧ running (STATE (tick started_world None)) = true
  ∧ last_error (STATE (tick started_world None)) = "".
Proof.
  split; [reflexivity|].
  destruct (failed_read_skips_tick sample_resize started_world 0 "TIMER" PASS_THROUGH
              (tick started_world None) eq_refl)
    as (_ & Hrun & Herr & _ & Hreads).
  { vm_compute. discriminate. }
  split; [exact Hreads|]. split; [exact Hrun|exact Herr].
Defined.

Lemma tick_pixel_buffer_witness :
  ∃ op img im width height,
    stream_operators (tick started_world (Some sample_frame)) !! 0%nat = Some op
    ∧ _img op = Some img
    ∧ _size op = Some (width, height)
    ∧ images (data (tick started_world (Some sample_frame))) !! img = Some im
    ∧ 0 <= width ∧ 0 <= height
    ∧ length (image_pixels im) = (Z.to_nat height * Z.to_nat width * 4)%nat
    ∧ resized_into sample_resize (width, height) sample_frame (image_pixels im)
    ∧ ∀ k, (k < Z.to_nat height * Z.to_nat width)%nat ->
        ∃ r g b : byte,
          image_pixels im !! (4 * k)%nat = Some (normalize r)
          ∧ image_pixels im !! (4 * k + 1)%nat = Some (normalize g)
          ∧ image_pixels im !! (4 * k + 2)%nat = Some (normalize b)
          ∧ image_pixels im !! (4 * k + 3)%nat = Some f32_one
          ∧ in_unit_interval (normalize r) = true
          ∧ in_unit_interval (normalize g) = true
          ∧ in_unit_interval (normalize b) = true.
Proof.
  apply (tick_pixel_buffer sample_resize started_world 0 "TIMER" sample_frame
           PASS_THROUGH (tick started_world (Some sample_frame)) eq_refl).
  vm_compute. discriminate.
Defined.

(** The frame of the sample tick as it lands in the image: red 1.0, green
    128/255, blue 0.0 and alpha 1.0, once per pixel of the 2 x 1 image. *)
Example sample_tick_pixels :
  (image_pixels <$> images (data (tick started_world (Some sample_frame))) !! 0%nat)
  = Some [ f32_one; normalize x80; f32_zero; f32_one;
           f32_one; normalize x80; f32_zero; f32_one ]
  ∧ normalize x80 = S754_finite false 8421505 (-24).
Proof. split; reflexivity. Qed.

Lemma image_size_fixed_at_creation_witness :
  (∃ im, images (data (tick (configure_size 8 8 started_4_2) (Some sample_frame)))
           !! 0%nat = Some im
         ∧ image_size im = (4, 2))
  ∧ holds_image_size (tick (configure_size 8 8 started_4_2) (Some sample_frame)) 0.
Proof.
  destruct image_size_fixed_at_creation as (_ & _ & Hstart & Htick).
  assert (Hexec : WM_OT_webcam_stream_start_execute (sample_world (Some Cube) 4 2) 0
                  = Some (RUNNING_MODAL, started_4_2)).
  { vm_compute. reflexivity. }
  assert (Hmodal : WM_OT_webcam_stream_start_modal sample_resize
                     (configure_size 8 8 started_4_2) 0 "TIMER" (Some sample_frame)
                   = Some (PASS_THROUGH,
                           tick (configure_size 8 8 started_4_2) (Some sample_frame))).
  { vm_compute. reflexivity. }
  destruct (Htick _ _ _ _ _ _ _ _ _ (Hstart _ _ _ Hexec) Hmodal) as (Hinv & Hsizes & _).
  split; [|exact Hinv].
  assert (Him : ∃ im, images (data started_4_2) !! 0%nat = Some im
                      ∧ image_size im = (4, 2)).
  { eexists. split; vm_compute; reflexivity. }
  destruct Him as (im & Him & Hsize).
  destruct (Hsizes 0%nat im Him) as (im' & Him' & Hsize').
  exists im'. split; [exact Him'|]. by rewrite Hsize'.
Defined.

(** The scenario of the specification: 64 x 32 configured before the image
    exists, 128 x 128 configured after the start, then a tick with a frame. *)
Example image_64_32 :
  (image_size <$> images (data
     (match WM_OT_webcam_stream_start_execute (sample_world (Some Cube) 64 32) 0 with
      | Some (_, w) => tick (configure_size 128 128 w) (Some sample_frame)
      | None => sample_world (Some Cube) 64 32
      end)) !! 0%nat) = Some (64, 32).
Proof. vm_compute. reflexivity. Qed.

(** ** The resolver returns on a new material *)

Lemma default_tree_wires (img : nat) :
  is_Some (ensure_nodes_and_links img default_node_tree).
Proof. eexists. vm_compute. reflexivity. Qed.

Lemma ensure_material_returns (w : World) (obj : Object) (img : nat) :
  materials_get (bound_material_name w obj) (materials (data w)) = None ->
  is_Some (meshes (data w) !! object_data obj) ->
  ∃ mat w1, ensure_material w obj img = Some ((Some img, Some mat), w1).
Proof.
  intros Hget [me Hme]. unfold ensure_material.
  fold (bound_material_name w obj). rewrite Hget.
  unfold materials_new. rewrite alter_last.
  rewrite lookup_app_r, Nat.sub_diag by done.
  cbn [lookup list_lookup mbind option_bind enable_nodes node_tree default].
  destruct (default_tree_wires img) as [t ->].
  cbn [mbind option_bind]. rewrite Hme. cbn [mbind option_bind]. eauto.
Qed.

(** For a mesh object whose material does not exist yet, whatever the name
    prefixes are, the resolver returns an image and a material as soon as
    the image exists or can be created. *)
Lemma resolver_returns (w : World) (obj : Object) :
  object_type obj = "MESH" ->
  is_Some (meshes (data w) !! object_data obj) ->
  materials_get (bound_material_name w obj) (materials (data w)) = None ->
  is_Some (images_get (bound_image_name (webcam_image_name (scene w)) (object_name obj))
             (images (data w)))
  ∨ 0 < webcam_image_width (scene w) ∧ 0 < webcam_image_height (scene w) ->
  ∃ img mat w1,
    _ensure_material_for_object w (Some obj) = Some ((Some img, Some mat), w1).
Proof.
  intros Htype Hmesh Hmat Himg.
  unfold _ensure_material_for_object, bound_image_name in *.
  rewrite <- str_or_strip in Himg.
  rewrite decide_False by (by intros ?). cbv zeta.
  destruct (images_get _ _) as [img|] eqn:Hget.
  - destruct (ensure_material_returns w obj img Hmat Hmesh) as (mat & w1 & ->). eauto.
  - destruct Himg as [[? [=]]|[Hw Hh]].
    replace (_ || _) with false
      by (symmetry; apply orb_false_iff; rewrite !Z.leb_gt; done).
    unfold images_new.
    match goal with |- context [ensure_material ?w' obj ?i] =>
      destruct (ensure_material_returns w' obj i) as (mat & w1 & ->);
        [exact Hmat|exact Hmesh|eauto]
    end.
Qed.

(** ** Stop and cancel *)

(** X1. With no operator registered and the running flag down, the stop
    operator returns [FINISHED] and leaves the world as it was. *)
Theorem stop_when_stopped_is_noop (w : World) :
  operator (STATE w) = None ->
  running (STATE w) = false ->
  WM_OT_webcam_stream_stop_execute w = Some (FINISHED, w).
Proof.
  unfold WM_OT_webcam_stream_stop_execute. intros Hop Hrun.
  rewrite Hop. simpl. do 2 f_equal.
  destruct w as [cv [run err op] out d sc wm areas caps ops ro fs].
  simpl in *. by subst.
Qed.

Lemma stop_when_stopped_is_noop_witness :
  WM_OT_webcam_stream_stop_execute (sample_world (Some Cube) 2 1)
  = Some (FINISHED, sample_world (Some Cube) 2 1).
Proof.
  apply (stop_when_stopped_is_noop (sample_world (Some Cube) 2 1)); reflexivity.
Defined.

(** X2. [cancel] of a started operator clears the running flag and the
    registered operator, marks the operator's timer as removed and releases
    the operator's capture handle. *)
Theorem cancel_releases (w : World) (self : nat) (w' : World) :
  WM_OT_webcam_stream_start_cancel w self = Some w' ->
  running (STATE w') = false
  ∧ operator (STATE w') = None
  ∧ (∀ op cap c, stream_operators w !! self = Some op -> _cap op = Some cap ->
       captures w !! cap = Some c ->
       capture_released <$> captures w' !! cap = Some true)
  ∧ (∀ op timer t, stream_operators w !! self = Some op -> _timer op = Some timer ->
       timers (window_manager w) !! timer = Some t ->
       timer_removed <$> timers (window_manager w') !! timer = Some true).
Proof.
  unfold WM_OT_webcam_stream_start_cancel. intros H.
  destruct (stream_operators w !! self) as [op|] eqn:Hop; simplify_eq/=.
  split; [done|]. split; [done|]. split.
  - intros op' cap c [= <-] Hcap Hc. rewrite Hcap.
    destruct (_timer op); simpl; by rewrite list_lookup_alter_eq, Hc.
  - intros op' timer t [= <-] Htimer Ht. rewrite Htimer.
    destruct (_cap op); simpl; by rewrite list_lookup_alter_eq, Ht.
Qed.

Lemma cancel_releases_witness :
  WM_OT_webcam_stream_start_cancel started_world 0 = Some cancelled_world
  ∧ running (STATE cancelled_world) = false
  ∧ capture_released <$> captures cancelled_world !! 0%nat = Some true
  ∧ timer_removed <$> timers (window_manager cancelled_world) !! 0%nat = Some true.
Proof.
  assert (Hc : WM_OT_webcam_stream_start_cancel started_world 0 = Some cancelled_world).
  { vm_compute. reflexivity. }
  split; [exact Hc|].
  destruct (cancel_releases started_world 0 cancelled_world Hc)
    as (Hrun & _ & Hcap & Htimer).
  split; [exact Hrun|]. split.
  - eapply Hcap; vm_compute; reflexivity.
  - eapply Htimer; vm_compute; reflexivity.
Defined.

(** ** The resolver: what a success leaves behind, and what it leaves alone *)

Lemma first_slot_head (mat : nat) (me : Mesh) :
  assign_first_slot mat me = me -> head (mesh_materials me) = Some (Some mat).
Proof. destruct me as [[|slot rest]]; simpl; intros [= ->]; done. Qed.

(** X3. When the image name and the material name fit Blender's limit of 63
    bytes and the resolver returns an image, the object is a mesh, it also
    returns a material, and in the world it leaves: the image is the one found
    under the image name, the material is the one found under the material
    name, the material has nodes enabled and its tree holds the three nodes
    with the image on the texture node and the two links, and the first
    material slot of the object's mesh holds the material. *)
Theorem resolver_success_binds (w : World) (obj : option Object) (img : nat)
    (mat : option nat) (w1 : World) :
  names_fit w obj ->
  _ensure_material_for_object w obj = Some ((Some img, mat), w1) ->
  ∃ o m M t me,
    obj = Some o ∧ object_type o = "MESH" ∧ mat = Some m
    ∧ images_get (bound_image_name (webcam_image_name (scene w)) (object_name o))
        (images (data w1)) = Some img
    ∧ materials_get (bound_material_name w o) (materials (data w1)) = Some m
    ∧ materials (data w1) !! m = Some M
    ∧ use_nodes M = true
    ∧ node_tree M = Some t
    ∧ wired img t
    ∧ meshes (data w1) !! object_data o = Some me
    ∧ head (mesh_materials me) = Some (Some m).
Proof.
  intros Hfit H.
  destruct (ensure_keeps_session _ _ _ _ H) as (_ & _ & Hscene & _).
  destruct (ensure_success_bound _ _ _ _ _ Hfit H)
    as (o & m & -> & -> & Htype & Hget
        & Hmget & M & t & me & HM & Huse & Htree & Hwired & Hme & Hslot).
  exists o, m, M, t, me.
  unfold bound_material_name in *. rewrite Hscene in Hmget, Hget.
  repeat (split; [done|]). by apply first_slot_head.
Qed.

Lemma resolver_success_binds_witness :
  ∃ o m M t me,
    Some Cube = Some o ∧ object_type o = "MESH" ∧ Some 0%nat = Some m
    ∧ images_get (bound_image_name
                    (webcam_image_name (scene (sample_world (Some Cube) 2 1)))
                    (object_name o))
        (images (data resolved_world)) = Some 0%nat
    ∧ materials_get (bound_material_name (sample_world (Some Cube) 2 1) o)
        (materials (data resolved_world)) = Some m
    ∧ materials (data resolved_world) !! m = Some M
    ∧ use_nodes M = true
    ∧ node_tree M = Some t
    ∧ wired 0 t
    ∧ meshes (data resolved_world) !! object_data o = Some me
    ∧ head (mesh_materials me) = Some (Some m).
Proof.
  apply (resolver_success_binds (sample_world (Some Cube) 2 1) (Some Cube) 0
           (Some 0%nat) resolved_world).
  - vm_compute. split; lia.
  - vm_compute. reflexivity.
Defined.

Lemma ensure_material_frame (w : World) (obj : Object) (img : nat) r (w1 : World) :
  ensure_material w obj img = Some (r, w1) ->
  ∃ mat, r = (Some img, Some mat)
    ∧ (∀ j m, j ≠ mat -> materials (data w) !! j = Some m ->
         materials (data w1) !! j = Some m)
    ∧ (∀ m, materials (data w) !! mat = Some m ->
         ∃ m', materials (data w1) !! mat = Some m'
               ∧ material_name m' = material_name m)
    ∧ (length (materials (data w)) <= length (materials (data w1))
       <= S (length (materials (data w))))%nat
    ∧ length (meshes (data w1)) = length (meshes (data w))
    ∧ (∀ k, k ≠ object_data obj -> meshes (data w1) !! k = meshes (data w) !! k)
    ∧ (∃ me me', meshes (data w) !! object_data obj = Some me
                 ∧ meshes (data w1) !! object_data obj = Some me'
                 ∧ tail (mesh_materials me') = tail (mesh_materials me)).
Proof.
  unfold ensure_material. intros H.
  destruct (match materials_get _ _ with Some mat => _ | None => _ end)
    as [mat mats0] eqn:Hmat.
  assert (Hext : ∃ extra, mats0 = materials (data w) ++ extra
                          ∧ (length extra <= 1)%nat
                          ∧ (extra ≠ [] -> mat = length (materials (data w)))).
  { destruct (materials_get _ _).
    - simplify_eq. exists []. rewrite app_nil_r. split; [done|]. split; [simpl; lia|done].
    - unfold materials_new in Hmat. simplify_eq. eexists [_].
      split; [done|]. split; [simpl; lia|done]. }
  destruct Hext as (extra & -> & Hlen & Hnew). clear Hmat.
  destruct (alter enable_nodes mat _ !! mat) as [m|] eqn:Hm; simplify_eq/=.
  destruct (node_tree m) as [t0|] eqn:Ht0; simplify_eq/=.
  destruct (ensure_nodes_and_links img t0) as [t|] eqn:Ht; simplify_eq/=.
  destruct (meshes (data w) !! object_data obj) as [me|] eqn:Hme; simplify_eq/=.
  exists mat. split; [done|].
  rewrite list_lookup_alter_eq in Hm.
  split; [|split; [|split; [|split; [|split]]]].
  - intros j m' Hj Hm'.
    rewrite list_lookup_insert_ne, list_lookup_alter_ne by done.
    by apply lookup_app_l_Some.
  - intros m' Hm'. rewrite (lookup_app_l_Some _ _ _ _ Hm') in Hm. simplify_eq/=.
    exists (with_node_tree t (enable_nodes m')). split; [|reflexivity].
    apply list_lookup_insert_eq. rewrite length_alter, length_app.
    apply lookup_lt_Some in Hm'. lia.
  - rewrite length_insert, length_alter, length_app. lia.
  - by rewrite length_insert.
  - intros k Hk. by rewrite list_lookup_insert_ne.
  - exists me, (assign_first_slot mat me). split; [done|]. split.
    + apply list_lookup_insert_eq. by eapply lookup_lt_Some.
    + by destruct me as [[|slot rest]].
Qed.

Lemma ensure_success_world (w : World) (obj : option Object) (img : nat) mat (w1 : World) :
  _ensure_material_for_object w obj = Some ((Some img, mat), w1) ->
  ∃ o w0, obj = Some o
          ∧ materials (data w0) = materials (data w)
          ∧ meshes (data w0) = meshes (data w)
          ∧ (images (data w0) = images (data w)
             ∨ ∃ im, images (data w0) = images (data w) ++ [im])
          ∧ ensure_material w0 o img = Some ((Some img, mat), w1).
Proof.
  unfold _ensure_material_for_object. intros H.
  destruct obj as [o|]; [|discriminate].
  destruct (decide _) as [?|Htype]; [discriminate|].
  exists o. cbv zeta in H.
  destruct (images_get _ _) as [i|] eqn:Hget.
  - pose proof H as H'. apply ensure_material_spec in H' as (m & d' & ? & _).
    simplify_eq. exists w. repeat (split; [done|]). split; [by left|done].
  - destruct (_ || _); [discriminate|]. unfold images_new in H.
    pose proof H as H'. apply ensure_material_spec in H' as (m & d' & ? & _).
    simplify_eq. eexists. split; [done|].
    split; [|split; [|split; [|exact H]]]; simpl; eauto.
Qed.

(** X4. A successful call of the resolver creates at most one image and at
    most one material and removes nothing: every image that was there is
    unchanged, every material other than the returned one is unchanged, the
    returned material keeps its name if it was there, every other mesh is
    unchanged, and the object's mesh keeps all its slots after the first. *)
Theorem resolver_touches_only_its_own (w : World) (obj : Object) (img mat : nat)
    (w1 : World) :
  _ensure_material_for_object w (Some obj) = Some ((Some img, Some mat), w1) ->
  (∀ i im, images (data w) !! i = Some im -> images (data w1) !! i = Some im)
  ∧ (length (images (data w1)) <= S (length (images (data w))))%nat
  ∧ (∀ j m, j ≠ mat -> materials (data w) !! j = Some m ->
       materials (data w1) !! j = Some m)
  ∧ (∀ m, materials (data w) !! mat = Some m ->
       ∃ m', materials (data w1) !! mat = Some m' ∧ material_name m' = material_name m)
  ∧ (length (materials (data w1)) <= S (length (materials (data w))))%nat
  ∧ length (meshes (data w1)) = length (meshes (data w))
  ∧ (∀ k, k ≠ object_data obj -> meshes (data w1) !! k = meshes (data w) !! k)
  ∧ (∃ me me', meshes (data w) !! object_data obj = Some me
               ∧ meshes (data w1) !! object_data obj = Some me'
               ∧ tail (mesh_materials me') = tail (mesh_materials me)).
Proof.
  intros H.
  destruct (ensure_success_world _ _ _ _ _ H)
    as (o & w0 & [= <-] & Hmats & Hmeshes & Himgs & Hmat).
  pose proof (ensure_material_spec _ _ _ _ _ Hmat) as (m0 & d' & _ & -> & Himgs').
  apply ensure_material_frame in Hmat
    as (m & [= <-] & Hother & Hsame & Hlen & Hmlen & Hmother & Hslots).
  rewrite Hmats in Hother, Hsame, Hlen. rewrite Hmeshes in Hmlen, Hmother, Hslots.
  simpl in *. rewrite Himgs'.
  split; [|split; [|repeat (split; [done || lia|]); done]].
  - intros i im Hi. destruct Himgs as [->|[x ->]]; [done|by apply lookup_app_l_Some].
  - destruct Himgs as [->|[x ->]]; [lia|]. rewrite length_app. simpl. lia.
Qed.

Lemma resolver_touches_only_its_own_witness :
  (length (images (data resolved_world)) <= 1)%nat
  ∧ length (meshes (data resolved_world)) = 1%nat.
Proof.
  destruct (resolver_touches_only_its_own (sample_world (Some Cube) 2 1) Cube 0 0
              resolved_world)
    as (_ & Himg & _ & _ & _ & Hmesh & _).
  { vm_compute. reflexivity. }
  split; [exact Himg|exact Hmesh].
Defined.

(** The wiring keeps every node in its place and as it is, but for the image
    of the node found under the name ['Webcam Image'], adds at most three
    nodes, and keeps every link that does not enter one of the two sockets
    it links. *)
Lemma ensure_nodes_and_links_grows (img : nat) (t0 t : NodeTree) :
  ensure_nodes_and_links img t0 = Some t ->
  (∀ i n, nodes t0 !! i = Some n ->
     ∃ n', nodes t !! i = Some n'
           ∧ (n' = n
              ∨ nodes_get "Webcam Image" t0 = Some i
                ∧ n' = with_image (Some img) n))
  ∧ (length (nodes t) <= length (nodes t0) + 3)%nat
  ∧ ∃ bsdf output bc su,
      nodes_get "Principled BSDF" t = Some bsdf
      ∧ inputs_get t bsdf "Base Color" = Some bc
      ∧ nodes_get "Material Output" t = Some output
      ∧ inputs_get t output "Surface" = Some su
      ∧ ∀ l, l ∈ links t0 -> to_socket l ≠ bc -> to_socket l ≠ su -> l ∈ links t.
Proof.
  unfold ensure_nodes_and_links. intros H.
  destruct (webcam_image_node t0) as [[tex t1]|] eqn:H1; simplify_eq/=.
  destruct (node_set_image tex img t1) as [t2|] eqn:H2; simplify_eq/=.
  destruct (principled_bsdf_node t2) as [[bsdf t3]|] eqn:H3; simplify_eq/=.
  destruct (material_output_node t3) as [[output t4]|] eqn:H4; simplify_eq/=.
  destruct (ensure_link _ _ t4) as [t5|] eqn:H5; simplify_eq/=.
  pose proof H1 as H1'. pose proof H3 as H3'. pose proof H4 as H4'.
  apply webcam_image_node_spec in H1 as [_ [Hl1 [e1 Hn1]]].
  apply node_set_image_spec in H2 as (n1 & Hlook1 & Hn2 & Hl2).
  apply principled_bsdf_node_spec in H3 as [G3 [Hl3 [e3 Hn3]]].
  apply material_output_node_spec in H4 as [G4 [Hl4 [e4 Hn4]]].
  apply ensure_link_spec in H5 as (c & bc & Hc & Hbc & Hn5 & _ & Hkeep5).
  apply ensure_link_spec in H as (bo & su & Hbo & Hsu & Hn6 & _ & Hkeep6).
  assert (He1 : (length e1 <= 1)%nat).
  { unfold webcam_image_node in H1'. destruct (nodes_get "Webcam Image" t0).
    - simplify_eq. apply (f_equal length) in Hn1. rewrite length_app in Hn1. lia.
    - destruct (nodes_new _ t0) as [[i t']|] eqn:Hnew; simplify_eq/=.
      eapply nodes_new_spec in Hnew as (_ & _ & Hnodes); [|reflexivity].
      apply (f_equal length) in Hn1.
      rewrite !length_alter, Hnodes, !length_app in Hn1. simpl in Hn1. lia. }
  assert (He3 : (length e3 <= 1)%nat).
  { unfold principled_bsdf_node in H3'. destruct (nodes_get "Principled BSDF" t2).
    - simplify_eq. apply (f_equal length) in Hn3. rewrite length_app in Hn3. lia.
    - destruct (nodes_new _ t2) as [[i t']|] eqn:Hnew; simplify_eq/=.
      eapply nodes_new_spec in Hnew as (_ & _ & Hnodes); [|reflexivity].
      apply (f_equal length) in Hn3.
      rewrite !length_alter, Hnodes, !length_app in Hn3. simpl in Hn3. lia. }
  assert (He4 : (length e4 <= 1)%nat).
  { unfold material_output_node in H4'. destruct (nodes_get "Material Output" t3).
    - simplify_eq. apply (f_equal length) in Hn4. rewrite length_app in Hn4. lia.
    - destruct (nodes_new _ t3) as [[i t']|] eqn:Hnew; simplify_eq/=.
      eapply nodes_new_spec in Hnew as (_ & _ & Hnodes); [|reflexivity].
      apply (f_equal length) in Hn4.
      rewrite !length_alter, Hnodes, !length_app in Hn4. simpl in Hn4. lia. }
  assert (Htex : ∀ n, nodes t0 !! tex = Some n ->
                       nodes_get "Webcam Image" t0 = Some tex).
  { intros n Hn. unfold webcam_image_node in H1'.
    destruct (nodes_get "Webcam Image" t0) as [j|]; [by simplify_eq|].
    destruct (nodes_new _ t0) as [[i t']|] eqn:Hnew; simplify_eq/=.
    eapply nodes_new_spec in Hnew as (-> & _); [|reflexivity].
    apply lookup_lt_Some in Hn. lia. }
  assert (Hnodes : nodes t = (<[tex := with_image (Some img) n1]> (nodes t0 ++ e1) ++ e3) ++ e4)
    by congruence.
  split; [|split].
  - intros i n Hi. rewrite Hnodes.
    assert (Hi1 : (nodes t0 ++ e1) !! i = Some n) by (by apply lookup_app_l_Some).
    destruct (decide (i = tex)) as [->|Hne].
    + exists (with_image (Some img) n1). split.
      * do 2 apply lookup_app_l_Some. apply list_lookup_insert_eq.
        by eapply lookup_lt_Some.
      * right. split; [by eapply Htex|]. rewrite Hn1 in Hlook1. congruence.
    + exists n. split; [|by left].
      do 2 apply lookup_app_l_Some. by rewrite list_lookup_insert_ne.
  - rewrite Hnodes, !length_app, length_insert, length_app. lia.
  - exists bsdf, output, bc, su.
    assert (Hn46 : nodes t = nodes t4) by congruence.
    rewrite !(nodes_get_nodes _ _ _ Hn46), !(inputs_get_nodes _ _ _ _ Hn46).
    rewrite (inputs_get_nodes _ _ _ _ Hn5) in Hsu.
    split; [by eapply grown_nodes_get; [split; eauto|]|].
    split; [done|]. split; [done|]. split; [done|].
    intros l Hl Hbc' Hsu'. apply Hkeep6; [|done]. apply Hkeep5; [|done].
    congruence.
Qed.

Lemma ensure_material_tree (w : World) (obj : Object) (img mat : nat) (w1 : World)
    (M0 : Material) :
  ensure_material w obj img = Some ((Some img, Some mat), w1) ->
  materials (data w) !! mat = Some M0 ->
  ∃ t, ensure_nodes_and_links img (default default_node_tree (node_tree M0)) = Some t
       ∧ materials (data w1) !! mat = Some (with_node_tree t (enable_nodes M0)).
Proof.
  unfold ensure_material. intros H HM0.
  destruct (match materials_get _ _ with Some mat => _ | None => _ end)
    as [mat' mats0] eqn:Hmat.
  destruct (alter enable_nodes mat' mats0 !! mat') as [m|] eqn:Hm; simplify_eq/=.
  destruct (node_tree m) as [t0|] eqn:Ht0; simplify_eq/=.
  destruct (ensure_nodes_and_links img t0) as [t|] eqn:Ht; simplify_eq/=.
  destruct (meshes (data w) !! object_data obj) as [me|] eqn:Hme; simplify_eq/=.
  assert (Hm0 : mats0 !! mat = Some M0).
  { destruct (materials_get _ _).
    - by simplify_eq.
    - unfold materials_new in Hmat. simplify_eq.
      apply lookup_lt_Some in HM0. lia. }
  rewrite list_lookup_alter_eq, Hm0 in Hm. simplify_eq/=.
  exists t. split; [done|].
  apply list_lookup_insert_eq. rewrite length_alter. by eapply lookup_lt_Some.
Qed.

(** X5. When the returned material already had a node tree, the resolver
    keeps every node of it in its place and as it is, but for the image of
    the node found under the name ['Webcam Image'], which may change; it
    adds at most three nodes, and keeps every link except those that enter
    the Base Color input of the BSDF node or the Surface input of the output
    node. *)
Theorem resolver_keeps_node_tree (w : World) (obj : Object) (img mat : nat)
    (w1 : World) (M0 : Material) (t0 : NodeTree) :
  _ensure_material_for_object w (Some obj) = Some ((Some img, Some mat), w1) ->
  materials (data w) !! mat = Some M0 ->
  node_tree M0 = Some t0 ->
  ∃ M1 t1,
    materials (data w1) !! mat = Some M1
    ∧ node_tree M1 = Some t1
    ∧ (∀ i n, nodes t0 !! i = Some n ->
         ∃ n', nodes t1 !! i = Some n'
               ∧ (n' = n
                  ∨ nodes_get "Webcam Image" t0 = Some i
                    ∧ n' = with_image (Some img) n))
    ∧ (length (nodes t1) <= length (nodes t0) + 3)%nat
    ∧ ∃ bsdf output bc su,
        nodes_get "Principled BSDF" t1 = Some bsdf
        ∧ inputs_get t1 bsdf "Base Color" = Some bc
        ∧ nodes_get "Material Output" t1 = Some output
        ∧ inputs_get t1 output "Surface" = Some su
        ∧ ∀ l, l ∈ links t0 -> to_socket l ≠ bc -> to_socket l ≠ su -> l ∈ links t1.
Proof.
  intros H HM0 Ht0.
  destruct (ensure_success_world _ _ _ _ _ H)
    as (o & w0 & [= <-] & Hmats & _ & _ & Hmat).
  rewrite <- Hmats in HM0.
  destruct (ensure_material_tree _ _ _ _ _ _ Hmat HM0) as (t & Ht & HM1).
  rewrite Ht0 in Ht. simpl in Ht.
  exists (with_node_tree t (enable_nodes M0)), t.
  split; [done|]. split; [done|]. by apply ensure_nodes_and_links_grows.
Qed.

Lemma resolver_keeps_node_tree_witness :
  ∃ M1 t1,
    materials (data resolved_world) !! 0%nat = Some M1
    ∧ node_tree M1 = Some t1
    ∧ length (nodes t1) = 3%nat.
Proof.
  assert (HM : ∃ M0 t0, materials (data resolved_world) !! 0%nat = Some M0
                        ∧ node_tree M0 = Some t0 ∧ length (nodes t0) = 3%nat).
  { eexists _, _. repeat split; vm_compute; reflexivity. }
  destruct HM as (M0 & t0 & HM0 & Ht0 & Hlen).
  destruct (resolver_keeps_node_tree resolved_world Cube 0 0 resolved_world M0 t0)
    as (M1 & t1 & HM1 & Ht1 & _); [vm_compute; reflexivity|exact HM0|exact Ht0|].
  exists M1, t1. split; [exact HM1|]. split; [exact Ht1|].
  rewrite HM0 in HM1. injection HM1 as <-. rewrite Ht0 in Ht1. by injection Ht1 as <-.
Defined.

(** ** Start, stop and their composition *)

(** What a start that goes through has done. *)
Lemma start_success_inv (w : World) (self : nat) (w' : World) :
  WM_OT_webcam_stream_start_execute w self = Some (RUNNING_MODAL, w') ->
  running (STATE w) = false
  ∧ _CV2_AVAILABLE w = true
  ∧ ∃ img mat w1 im,
      _ensure_material_for_object w (webcam_target_object (scene w))
      = Some ((Some img, mat), w1)
      ∧ images (data w1) !! img = Some im
      ∧ (self < length (stream_operators w))%nat
      ∧ data w' = data w1
      ∧ scene w' = scene w
      ∧ disk w' = disk w
      ∧ captures w' = captures w ++ [opened_capture]
      ∧ timers (window_manager w') = timers (window_manager w) ++ [frame_timer]
      ∧ modal_handlers (window_manager w') = modal_handlers (window_manager w) ++ [self]
      ∧ STATE w' = {| running := true; last_error := ""; operator := Some self |}
      ∧ stream_operators w'
        = <[self := {| _timer := Some (length (timers (window_manager w)));
                       _cap := Some (length (captures w));
                       _img := Some img;
                       _size := Some (image_size im);
                       _obj := webcam_target_object (scene w) |}]>
            (stream_operators w).
Proof.
  unfold WM_OT_webcam_stream_start_execute. intros H.
  destruct (running (STATE w)); [discriminate|].
  destruct (_CV2_AVAILABLE w); [|discriminate]. simpl in H.
  destruct (_ensure_material_for_object _ _) as [[[[img|] mat] w1]|] eqn:Hens;
    simplify_eq/=.
  destruct (stream_operators w1 !! self) as [op0|] eqn:Hop0; simplify_eq/=.
  destruct (images (data w1) !! img) as [im|] eqn:Him; simplify_eq/=.
  destruct (ensure_keeps_session _ _ _ _ Hens)
    as (_ & _ & Hscene & Hwm & Hcaps & Hops & _ & Hdisk).
  split; [done|]. split; [done|]. exists img, mat, w1, im.
  rewrite <- Hops, <- Hcaps, <- Hwm, <- Hscene.
  split; [done|]. split; [done|].
  split; [by eapply lookup_lt_Some|].
  repeat (split; [done|]).
  split; [|done].
  unfold VideoCapture_set. simpl. by rewrite !alter_last.
Qed.

(** A start goes through as soon as nothing runs, cv2 is there, the resolver
    gives an image and [self] is an operator instance. *)
Lemma start_runs (w : World) (self img : nat) mat (w1 : World) :
  running (STATE w) = false ->
  _CV2_AVAILABLE w = true ->
  _ensure_material_for_object w (webcam_target_object (scene w))
  = Some ((Some img, mat), w1) ->
  (self < length (stream_operators w))%nat ->
  ∃ w', WM_OT_webcam_stream_start_execute w self = Some (RUNNING_MODAL, w').
Proof.
  intros Hrun Hcv Hens Hself.
  unfold WM_OT_webcam_stream_start_execute. rewrite Hrun, Hcv. simpl.
  rewrite Hens. simpl.
  destruct (ensure_keeps_session _ _ _ _ Hens) as (_ & _ & _ & _ & _ & Hops & _).
  destruct (ensure_success_inv _ _ _ _ _ Hens) as (o & w0 & Hobj & _).
  rewrite Hobj in Hens.
  destruct (ensure_image_bound _ _ _ _ _ Hens) as (_ & _ & im & Him).
  rewrite Hops. destruct (lookup_lt_is_Some_2 _ _ Hself) as [op0 ->]. simpl.
  rewrite Him. simpl. eauto.
Qed.

(** X6. A start that returns at all returns [RUNNING_MODAL] exactly when
    nothing was running, cv2 is available and the resolver's failure
    condition does not hold for the scene's target.  It has then opened
    exactly one capture handle (device 0, asked for 1280 x 720), registered
    one timer of [FRAME_INTERVAL] and one modal handler, cleared the last
    error, raised the running flag, registered the operator, and bound the
    operator to the target, to an image that is there and to that image's
    size; when the image name and the material name fit Blender's limit of
    63 bytes, that image is the one the save operator would look up. *)
Theorem start_opens_one_device (w : World) (self : nat) (st : Status) (w' : World) :
  WM_OT_webcam_stream_start_execute w self = Some (st, w') ->
  (st = RUNNING_MODAL
   ↔ running (STATE w) = false ∧ _CV2_AVAILABLE w = true
     ∧ ¬ failure_condition w (webcam_target_object (scene w)))
  ∧ (st = RUNNING_MODAL ->
     captures w' = captures w ++ [opened_capture]
     ∧ timers (window_manager w') = timers (window_manager w) ++ [frame_timer]
     ∧ modal_handlers (window_manager w') = modal_handlers (window_manager w) ++ [self]
     ∧ STATE w' = {| running := true; last_error := ""; operator := Some self |}
     ∧ ∃ op img im,
         stream_operators w' !! self = Some op
         ∧ _cap op = Some (length (captures w))
         ∧ _timer op = Some (length (timers (window_manager w)))
         ∧ _obj op = webcam_target_object (scene w)
         ∧ _img op = Some img
         ∧ (names_fit w (webcam_target_object (scene w)) ->
            image_to_save w' = Some img)
         ∧ images (data w') !! img = Some im
         ∧ _size op = Some (image_size im)).
Proof.
  intros H. split.
  - split.
    + intros ->. apply start_success_inv in H
        as (Hrun & Hcv & img & mat & w1 & im & Hens & _).
      split; [done|]. split; [done|]. intros Hfail.
      apply failure_condition_fails in Hfail as (msg & _ & Hres). congruence.
    + intros (Hrun & Hcv & Hok).
      unfold WM_OT_webcam_stream_start_execute in H. rewrite Hrun, Hcv in H.
      simpl in H.
      destruct (_ensure_material_for_object _ _) as [[[[img|] mat] w1]|] eqn:Hens;
        simplify_eq/=.
      * repeat case_match; by simplify_option_eq.
      * destruct Hok. by eapply ensure_fails_inv.
  - intros ->. apply start_success_inv in H
      as (Hrun & Hcv & img & mat & w1 & im & Hens & Him & Hself & Hdata & Hscene
          & _ & Hcaps & Htimers & Hhandlers & Hstate & Hops).
    repeat (split; [done|]).
    eexists _, img, im. rewrite Hops.
    split; [by apply list_lookup_insert_eq|]. simpl.
    repeat (split; [done|]).
    split; [|by rewrite Hdata].
    intros Hfit.
    destruct (ensure_success_bound _ _ _ _ _ Hfit Hens)
      as (o & m & Ho & _ & _ & Hget & _).
    destruct (ensure_keeps_session _ _ _ _ Hens) as (_ & _ & Hscene1 & _).
    unfold image_to_save. rewrite Hscene, Hdata, Ho. simpl.
    by rewrite <- Hscene1.
Qed.

Lemma start_opens_one_device_witness :
  captures started_world = [opened_capture]
  ∧ timers (window_manager started_world) = [frame_timer]
  ∧ STATE started_world = {| running := true; last_error := ""; operator := Some 0%nat |}
  ∧ image_to_save started_world = Some 0%nat.
Proof.
  assert (Hexec : WM_OT_webcam_stream_start_execute (sample_world (Some Cube) 2 1) 0
                  = Some (RUNNING_MODAL, started_world)).
  { vm_compute. reflexivity. }
  destruct (start_opens_one_device _ _ _ _ Hexec) as [_ Heff].
  destruct (Heff eq_refl)
    as (Hc & Ht & _ & Hs & op & img & im & Hop & _ & _ & _ & Himg & Hsave & _).
  split; [exact Hc|]. split; [exact Ht|]. split; [exact Hs|].
  assert (Hop0 : stream_operators started_world !! 0%nat
                 = Some {| _timer := Some 0%nat; _cap := Some 0%nat;
                           _img := Some 0%nat; _size := Some (2, 1);
                           _obj := Some Cube |}).
  { vm_compute. reflexivity. }
  rewrite Hop0 in Hop. injection Hop as <-. injection Himg as <-.
  apply Hsave. vm_compute. split; lia.
Defined.

(** What a stop finds and does after a start that went through. *)
Lemma stop_after_start_inv (w : World) (self : nat) (w1 : World) :
  WM_OT_webcam_stream_start_execute w self = Some (RUNNING_MODAL, w1) ->
  ∃ w2,
    WM_OT_webcam_stream_stop_execute w1 = Some (FINISHED, w2)
    ∧ STATE w2 = {| running := false; last_error := ""; operator := None |}
    ∧ captures w2
      = captures w ++ [ {| capture_index := 0;
                           capture_props := capture_props opened_capture;
                           capture_released := true;
                           capture_reads := 0 |} ]
    ∧ timers (window_manager w2)
      = timers (window_manager w)
        ++ [ {| timer_time_step_ms := FRAME_INTERVAL; timer_removed := true |} ]
    ∧ data w2 = data w1
    ∧ scene w2 = scene w1
    ∧ stream_operators w2 = stream_operators w1
    ∧ disk w2 = disk w1.
Proof.
  intros H. apply start_success_inv in H
    as (_ & _ & img & mat & w0 & im & _ & _ & Hself & _ & _ & _ & Hcaps & Htimers
        & _ & Hstate & Hops).
  unfold WM_OT_webcam_stream_stop_execute, WM_OT_webcam_stream_start_cancel.
  rewrite Hstate. simpl. rewrite Hops.
  rewrite list_lookup_insert_eq by done. simpl.
  eexists. split; [reflexivity|]. simpl.
  rewrite Hstate, Hcaps, Htimers, !alter_last. done.
Qed.

(** X7. A stop right after a start that went through returns [FINISHED] and
    undoes the start: the running flag is down, no operator is registered,
    the capture handle the start opened is released, its timer is removed,
    and [bpy.data], the scene properties and the operator's fields are as
    the start left them. *)
Theorem stop_after_start (w : World) (self : nat) (w1 : World) :
  WM_OT_webcam_stream_start_execute w self = Some (RUNNING_MODAL, w1) ->
  ∃ w2,
    WM_OT_webcam_stream_stop_execute w1 = Some (FINISHED, w2)
    ∧ STATE w2 = {| running := false; last_error := ""; operator := None |}
    ∧ captures w2
      = captures w ++ [ {| capture_index := 0;
                           capture_props := capture_props opened_capture;
                           capture_released := true;
                           capture_reads := 0 |} ]
    ∧ timers (window_manager w2)
      = timers (window_manager w)
        ++ [ {| timer_time_step_ms := FRAME_INTERVAL; timer_removed := true |} ]
    ∧ data w2 = data w1
    ∧ scene w2 = scene w1
    ∧ stream_operators w2 = stream_operators w1
    ∧ disk w2 = disk w1.
Proof.
  apply stop_after_start_inv.
Qed.

Lemma stop_after_start_witness :
  ∃ w2, WM_OT_webcam_stream_stop_execute started_world = Some (FINISHED, w2)
        ∧ running (STATE w2) = false
        ∧ capture_released <$> captures w2 !! 0%nat = Some true.
Proof.
  assert (Hexec : WM_OT_webcam_stream_start_execute (sample_world (Some Cube) 2 1) 0
                  = Some (RUNNING_MODAL, started_world)).
  { vm_compute. reflexivity. }
  destruct (stop_after_start _ _ _ Hexec) as (w2 & Hstop & Hstate & Hcaps & _).
  exists w2. split; [exact Hstop|]. split.
  - by rewrite Hstate.
  - by rewrite Hcaps.
Defined.

Lemma ensure_keeps_cv2 (w : World) (obj : option Object) r (w' : World) :
  _ensure_material_for_object w obj = Some (r, w') ->
  _CV2_AVAILABLE w' = _CV2_AVAILABLE w.
Proof.
  intros H.
  by apply ensure_cases in H as [[_ (msg & _ & ->)]|(i & m & d' & _ & -> & _)].
Qed.

Lemma start_keeps_cv2 (w : World) (self : nat) (st : Status) (w' : World) :
  WM_OT_webcam_stream_start_execute w self = Some (st, w') ->
  _CV2_AVAILABLE w' = _CV2_AVAILABLE w.
Proof.
  unfold WM_OT_webcam_stream_start_execute. intros H.
  destruct (running (STATE w)); [by simplify_eq|].
  destruct (negb _); [by simplify_eq|].
  destruct (_ensure_material_for_object _ _) as [[[[img|] mat] w1]|] eqn:Hens;
    simplify_eq/=; [|by eapply ensure_keeps_cv2].
  destruct (stream_operators w1 !! self); simplify_eq/=.
  destruct (images (data w1) !! img); simplify_eq/=.
  by eapply ensure_keeps_cv2.
Qed.

Lemma stop_keeps_cv2 (w : World) (st : Status) (w' : World) :
  WM_OT_webcam_stream_stop_execute w = Some (st, w') ->
  _CV2_AVAILABLE w' = _CV2_AVAILABLE w.
Proof.
  unfold WM_OT_webcam_stream_stop_execute, WM_OT_webcam_stream_start_cancel.
  intros H. destruct (operator (STATE w)) as [op|]; [|by simplify_eq/=].
  destruct (stream_operators w !! op) as [o|]; simplify_eq/=.
  by destruct (_timer o), (_cap o).
Qed.

(** X8. When the image name and the material name of the target fit
    Blender's limit of 63 bytes, then after start and stop a second start (on
    any operator instance) goes through again: it reuses the image and the
    material, so [bpy.data] stays as it was, and it opens a new capture
    handle next to the released one. *)
Theorem restart_after_stop (w : World) (self self' : nat) (w1 w2 : World) :
  names_fit w (webcam_target_object (scene w)) ->
  WM_OT_webcam_stream_start_execute w self = Some (RUNNING_MODAL, w1) ->
  WM_OT_webcam_stream_stop_execute w1 = Some (FINISHED, w2) ->
  (self' < length (stream_operators w))%nat ->
  ∃ w3,
    WM_OT_webcam_stream_start_execute w2 self' = Some (RUNNING_MODAL, w3)
    ∧ data w3 = data w1
    ∧ running (STATE w3) = true
    ∧ operator (STATE w3) = Some self'
    ∧ captures w3
      = captures w ++ [ {| capture_index := 0;
                           capture_props := capture_props opened_capture;
                           capture_released := true;
                           capture_reads := 0 |};
                        opened_capture ].
Proof.
  intros Hfit Hstart Hstop Hself'.
  destruct (stop_after_start_inv _ _ _ Hstart)
    as (w2' & Hstop' & Hstate & Hcaps & Htimers & Hdata & Hscene & Hops & _).
  rewrite Hstop in Hstop'. injection Hstop' as <-.
  pose proof Hstart as Hinv. apply start_success_inv in Hinv
    as (_ & Hcv & img & mat & w0 & im & Hens & _ & _ & Hdata1 & Hscene1 & _ & _ & _
        & _ & _ & Hops1).
  destruct (ensure_keeps_session _ _ _ _ Hens) as (_ & _ & Hscene0 & _).
  assert (Hens2 : _ensure_material_for_object w2 (webcam_target_object (scene w2))
                  = Some ((Some img, mat), w2)).
  { rewrite Hscene, Hscene1.
    eapply resolved_elsewhere; [exact Hfit|exact Hens|congruence|congruence]. }
  assert (Hcv2 : _CV2_AVAILABLE w2 = true).
  { rewrite (stop_keeps_cv2 _ _ _ Hstop), (start_keeps_cv2 _ _ _ _ Hstart). exact Hcv. }
  destruct (start_runs w2 self' img mat w2) as [w3 Hstart3].
  - by rewrite Hstate.
  - exact Hcv2.
  - exact Hens2.
  - rewrite Hops, Hops1, length_insert. exact Hself'.
  - exists w3. split; [exact Hstart3|].
    apply start_success_inv in Hstart3
      as (_ & _ & img3 & mat3 & w4 & im3 & Hens3 & _ & _ & Hdata3 & _ & _ & Hcaps3 & _
          & _ & Hstate3 & _).
    rewrite Hens2 in Hens3. injection Hens3 as <- <- <-.
    split; [congruence|]. rewrite Hstate3. split; [done|]. split; [done|].
    by rewrite Hcaps3, Hcaps, <- app_assoc.
Qed.

Lemma restart_after_stop_witness :
  ∃ w3, WM_OT_webcam_stream_start_execute cancelled_world 0 = Some (RUNNING_MODAL, w3)
        ∧ (capture_released <$> captures w3) = [true; false].
Proof.
  assert (Hexec : WM_OT_webcam_stream_start_execute (sample_world (Some Cube) 2 1) 0
                  = Some (RUNNING_MODAL, started_world)).
  { vm_compute. reflexivity. }
  assert (Hstop : WM_OT_webcam_stream_stop_execute started_world
                  = Some (FINISHED, cancelled_world)).
  { vm_compute. reflexivity. }
  assert (Hfit : names_fit (sample_world (Some Cube) 2 1) (Some Cube)).
  { vm_compute. split; lia. }
  destruct (restart_after_stop _ 0%nat 0%nat _ _ Hfit Hexec Hstop)
    as (w3 & H3 & _ & _ & _ & Hc).
  { simpl. lia. }
  exists w3. split; [exact H3|]. by rewrite Hc.
Defined.

(** ** Setup, the update callback, and a start after them *)

Lemma resolved_image_to_save (w : World) (img : nat) mat (w1 : World) :
  names_fit w (webcam_target_object (scene w)) ->
  _ensure_material_for_object w (webcam_target_object (scene w))
  = Some ((Some img, mat), w1) ->
  image_to_save w1 = Some img.
Proof.
  intros Hfit H.
  destruct (ensure_success_bound _ _ _ _ _ Hfit H) as (o & m & Ho & _ & _ & Hget & _).
  destruct (ensure_keeps_session _ _ _ _ H) as (_ & _ & Hscene & _).
  unfold image_to_save. rewrite Hscene, Ho. simpl. by rewrite <- Hscene.
Qed.

(** Once the resolver has succeeded for the scene's target, a start goes
    through and finds every datablock in place. *)
Lemma start_after_resolved (w : World) (img : nat) mat (w1 : World) (self : nat) :
  names_fit w (webcam_target_object (scene w)) ->
  _ensure_material_for_object w (webcam_target_object (scene w))
  = Some ((Some img, mat), w1) ->
  running (STATE w) = false ->
  _CV2_AVAILABLE w = true ->
  (self < length (stream_operators w))%nat ->
  ∃ w2, WM_OT_webcam_stream_start_execute w1 self = Some (RUNNING_MODAL, w2)
        ∧ data w2 = data w1.
Proof.
  intros Hfit H Hrun Hcv Hself.
  destruct (ensure_keeps_session _ _ _ _ H) as (Hrun1 & _ & Hscene & _ & _ & Hops & _).
  assert (H1 : _ensure_material_for_object w1 (webcam_target_object (scene w1))
               = Some ((Some img, mat), w1)).
  { rewrite Hscene. by eapply resolved_elsewhere. }
  destruct (start_runs w1 self img mat w1) as [w2 H2].
  - congruence.
  - by rewrite (ensure_keeps_cv2 _ _ _ _ H).
  - done.
  - by rewrite Hops.
  - exists w2. split; [done|].
    apply start_success_inv in H2
      as (_ & _ & img' & mat' & w1' & im & Hens & _ & _ & Hdata & _).
    rewrite H1 in Hens. by simplify_eq.
Qed.

Lemma setup_object_inv (w : World) (st : Status) (w' : World) :
  WM_OT_webcam_setup_object_execute w = Some (st, w') ->
  (st = CANCELLED
   ∧ _ensure_material_for_object w (webcam_target_object (scene w))
     = Some ((None, None), w'))
  ∨ (st = FINISHED
     ∧ ∃ img mat, _ensure_material_for_object w (webcam_target_object (scene w))
                  = Some ((Some img, Some mat), w')).
Proof.
  unfold WM_OT_webcam_setup_object_execute. intros H.
  destruct (_ensure_material_for_object _ _) as [[[img mat] w1]|] eqn:Hens;
    simplify_eq/=.
  pose proof Hens as Hc.
  apply ensure_cases in Hc as [[? _]|(i & m & d' & ? & _)]; simplify_eq/=.
  - left. done.
  - right. eauto.
Qed.

Lemma setup_object_finished (w : World) (img mat : nat) (w' : World) :
  _ensure_material_for_object w (webcam_target_object (scene w))
  = Some ((Some img, Some mat), w') ->
  WM_OT_webcam_setup_object_execute w = Some (FINISHED, w').
Proof. unfold WM_OT_webcam_setup_object_execute. by intros ->. Qed.

(** X9. The setup operator returns [CANCELLED] exactly under the failure
    condition of the resolver, and has then only recorded an error.
    Otherwise it returns [FINISHED]; when the image name and the material
    name fit Blender's limit of 63 bytes, the image the save operator looks
    up is then in place, a second setup changes nothing, and a start (nothing
    running, cv2 available) goes through without touching [bpy.data]. *)
Theorem setup_object_outcome (w : World) (st : Status) (w' : World) :
  WM_OT_webcam_setup_object_execute w = Some (st, w') ->
  (st = CANCELLED ↔ failure_condition w (webcam_target_object (scene w)))
  ∧ (st = CANCELLED -> error_recorded w w')
  ∧ (st ≠ CANCELLED ->
     st = FINISHED
     ∧ (names_fit w (webcam_target_object (scene w)) ->
        is_Some (image_to_save w')
        ∧ WM_OT_webcam_setup_object_execute w' = Some (FINISHED, w')
        ∧ ∀ self, running (STATE w) = false -> _CV2_AVAILABLE w = true ->
                  (self < length (stream_operators w))%nat ->
                  ∃ w2, WM_OT_webcam_stream_start_execute w' self
                        = Some (RUNNING_MODAL, w2)
                        ∧ data w2 = data w')).
Proof.
  intros H.
  apply setup_object_inv in H as [[-> Hens]|(-> & img & mat & Hens)].
  - split; [|split; [|done]].
    + split; [|done]. intros _. by eapply ensure_fails_inv.
    + intros _. by apply ensure_cases in Hens as [[_ ?]|(i & m & d' & ? & _)].
  - split; [|split; [done|]].
    + split; [done|]. intros Hfail.
      apply failure_condition_fails in Hfail as (msg & _ & Hres). congruence.
    + intros _. split; [done|]. intros Hfit.
      split; [by erewrite resolved_image_to_save|].
      destruct (ensure_keeps_session _ _ _ _ Hens) as (_ & _ & Hscene & _).
      split.
      * eapply setup_object_finished. rewrite Hscene. by eapply resolved_elsewhere.
      * intros self Hrun Hcv Hself. by eapply start_after_resolved.
Qed.

Lemma setup_object_outcome_witness :
  WM_OT_webcam_setup_object_execute resolved_world = Some (FINISHED, resolved_world)
  ∧ is_Some (image_to_save resolved_world).
Proof.
  assert (Hexec : WM_OT_webcam_setup_object_execute (sample_world (Some Cube) 2 1)
                  = Some (FINISHED, resolved_world)).
  { vm_compute. reflexivity. }
  destruct (setup_object_outcome _ _ _ Hexec) as (_ & _ & Hok).
  destruct (Hok ltac:(discriminate)) as (_ & Hfits).
  destruct Hfits as (Himg & Hagain & _).
  { vm_compute. split; lia. }
  split; [exact Hagain|exact Himg].
Defined.

(** X10. The update callback of the target property does nothing when the
    target is cleared (it does not record the error the resolver would); for
    a target the resolver fails on, it only records the error; otherwise it
    leaves the world exactly as the setup operator would and, when the image
    name and the material name fit Blender's limit of 63 bytes, a second
    update changes nothing and the image the save operator looks up is in
    place. *)
Theorem target_update_prepares (w w' : World) :
  _on_target_object_update w = Some w' ->
  (webcam_target_object (scene w) = None -> w' = w)
  ∧ (webcam_target_object (scene w) ≠ None ->
     failure_condition w (webcam_target_object (scene w)) ->
     error_recorded w w')
  ∧ (¬ failure_condition w (webcam_target_object (scene w)) ->
     WM_OT_webcam_setup_object_execute w = Some (FINISHED, w')
     ∧ (names_fit w (webcam_target_object (scene w)) ->
        _on_target_object_update w' = Some w'
        ∧ is_Some (image_to_save w'))).
Proof.
  unfold _on_target_object_update. intros H.
  destruct (webcam_target_object (scene w)) as [o|] eqn:Ho.
  - destruct (_ensure_material_for_object w (Some o)) as [[r w1]|] eqn:Hens;
      simplify_eq/=.
    split; [done|]. split.
    + intros _ Hfail.
      apply failure_condition_fails in Hfail as (msg & Hmsg & Hres).
      rewrite Hres in Hens. simplify_eq. by exists msg.
    + intros Hok. pose proof Hens as Hc.
      apply ensure_cases in Hc as [[-> _]|(i & m & d' & -> & _)].
      { destruct Hok. by eapply ensure_fails_inv. }
      rewrite <- Ho in Hens.
      split; [by eapply setup_object_finished|]. intros Hfit.
      assert (Hfit' : names_fit w (webcam_target_object (scene w))).
      { rewrite Ho. exact Hfit. }
      split; [|by erewrite resolved_image_to_save].
      destruct (ensure_keeps_session _ _ _ _ Hens) as (_ & _ & Hscene & _).
      rewrite Hscene, Ho. rewrite Ho in Hens.
      by erewrite (resolved_elsewhere w (Some o)).
  - simplify_eq. split; [done|]. split; [done|].
    intros Hok. destruct Hok. by left.
Qed.

Lemma target_update_prepares_witness :
  WM_OT_webcam_setup_object_execute (sample_world (Some Cube) 2 1)
  = Some (FINISHED, resolved_world)
  ∧ _on_target_object_update resolved_world = Some resolved_world.
Proof.
  assert (Hupd : _on_target_object_update (sample_world (Some Cube) 2 1)
                 = Some resolved_world).
  { vm_compute. reflexivity. }
  destruct (target_update_prepares _ _ Hupd) as (_ & _ & Hok).
  destruct Hok as (Hsetup & Hfits).
  { intros Hfail. eapply failure_condition_fails in Hfail as (msg & _ & Hres).
    vm_compute in Hres. discriminate. }
  destruct Hfits as (Hagain & _).
  { vm_compute. split; lia. }
  split; [exact Hsetup|exact Hagain].
Defined.

(** ** What a tick changes *)

Lemma fmap_insert_same {A B : Type} (f : A -> B) (i : nat) (x y : A) (l : list A) :
  l !! i = Some x -> f y = f x -> f <$> <[i := y]> l = f <$> l.
Proof.
  intros Hi Hf. rewrite list_fmap_insert, Hf. apply list_insert_id.
  by rewrite list_lookup_fmap, Hi.
Qed.

(** Following the target changes, of the operator, only what it is bound to. *)
Lemma rebind_target_frame (w : World) (self : nat) (current_obj : Object) (w1 : World) :
  rebind_target w self current_obj = Some (inr w1) ->
  window_manager w1 = window_manager w
  ∧ scene w1 = scene w
  ∧ disk w1 = disk w
  ∧ screen_areas w1 = screen_areas w
  ∧ _cap <$> stream_operators w1 = _cap <$> stream_operators w
  ∧ _timer <$> stream_operators w1 = _timer <$> stream_operators w.
Proof.
  unfold rebind_target. intros H.
  destruct (stream_operators w !! self) as [op|] eqn:Hop; simplify_eq/=.
  destruct (match _obj op with Some _ => _ | None => _ end); simplify_eq/=; [|done].
  destruct (_ensure_material_for_object _ _) as [[[[img|] mat] w0]|] eqn:Hens;
    simplify_eq/=.
  destruct (images (data w0) !! img) as [im|] eqn:Him; simplify_eq/=.
  destruct (ensure_keeps_session _ _ _ _ Hens)
    as (_ & _ & Hscene & Hwm & _ & Hops & _ & Hdisk).
  apply ensure_cases in Hens as [[? _]|(i & m & d' & ? & -> & _)]; simplify_eq/=.
  repeat (split; [done|]). split; by eapply fmap_insert_same.
Qed.

Lemma read_frame (cap : nat) (w w' : World) :
  VideoCapture_read cap w = Some w' ->
  window_manager w' = window_manager w
  ∧ scene w' = scene w
  ∧ disk w' = disk w
  ∧ screen_areas w' = screen_areas w
  ∧ capture_released <$> captures w' = capture_released <$> captures w.
Proof.
  unfold VideoCapture_read. intros H.
  destruct (captures w !! cap) as [c|] eqn:Hc; simplify_eq/=.
  repeat (split; [done|]). by eapply fmap_insert_same.
Qed.

Lemma set_pixels_frame (img : nat) (flat : list float32) (w w' : World) :
  image_set_pixels img flat w = Some w' ->
  window_manager w' = window_manager w
  ∧ scene w' = scene w
  ∧ disk w' = disk w
  ∧ screen_areas w' = screen_areas w
  ∧ materials (data w') = materials (data w)
  ∧ meshes (data w') = meshes (data w).
Proof.
  unfold image_set_pixels. intros H.
  destruct (images (data w) !! img) as [im|]; simplify_eq/=.
  destruct (decide _); by simplify_eq/=.
Qed.

Section TickEffects.

Variable cv2_resize : Frame -> Z * Z -> option Frame.

(** What [modal] does with an event. *)
Lemma modal_frame (w : World) (self : nat) (event_type : string)
    (read_result : option Frame) (st : Status) (w' : World) :
  WM_OT_webcam_stream_start_modal cv2_resize w self event_type read_result
  = Some (st, w') ->
  (st = CANCELLED ↔ event_type = "ESC")
  ∧ (event_type ≠ "ESC" ->
     st = PASS_THROUGH
     ∧ running (STATE w') = running (STATE w)
     ∧ operator (STATE w') = operator (STATE w)
     ∧ window_manager w' = window_manager w
     ∧ scene w' = scene w
     ∧ disk w' = disk w
     ∧ capture_released <$> captures w' = capture_released <$> captures w
     ∧ _cap <$> stream_operators w' = _cap <$> stream_operators w
     ∧ _timer <$> stream_operators w' = _timer <$> stream_operators w
     ∧ (event_type ≠ "TIMER" ∨ webcam_target_object (scene w) = None -> w' = w)).
Proof.
  unfold WM_OT_webcam_stream_start_modal. intros H.
  destruct (decide (event_type = "ESC")) as [Hesc|Hesc].
  { destruct (WM_OT_webcam_stream_start_cancel w self); simplify_eq/=. done. }
  assert (Hgoal : st = PASS_THROUGH
     ∧ running (STATE w') = running (STATE w)
     ∧ operator (STATE w') = operator (STATE w)
     ∧ window_manager w' = window_manager w
     ∧ scene w' = scene w
     ∧ disk w' = disk w
     ∧ capture_released <$> captures w' = capture_released <$> captures w
     ∧ _cap <$> stream_operators w' = _cap <$> stream_operators w
     ∧ _timer <$> stream_operators w' = _timer <$> stream_operators w
     ∧ (event_type ≠ "TIMER" ∨ webcam_target_object (scene w) = None -> w' = w));
    [|split; [split; [by intros ->; destruct Hgoal as [? _]|done]|done]].
  destruct (decide (event_type = "TIMER")) as [Htimer|Htimer];
    [|by simplify_eq].
  destruct (webcam_target_object (scene w)) as [current_obj|]; [|by simplify_eq].
  assert (Hnot : event_type ≠ "TIMER" ∨ Some current_obj = None -> w' = w)
    by (by intros [?|?]).
  destruct (rebind_target w self current_obj) as [[w1|w1]|] eqn:Hre; simplify_eq/=.
  { apply rebind_target_inl in Hre as (msg & _ & ->). done. }
  destruct (stream_operators w1 !! self) as [op|] eqn:Hop; simplify_eq/=.
  destruct (_cap op) as [cap|] eqn:Hcap; simplify_eq/=.
  destruct (VideoCapture_read cap w1) as [w2|] eqn:Hread; simplify_eq/=.
  pose proof (rebind_target_inr _ _ _ _ Hre) as (Hst1 & Hcaps1 & _ & _).
  apply rebind_target_frame in Hre as (Hwm1 & Hsc1 & Hdisk1 & _ & Hc1 & Ht1).
  pose proof (read_spec _ _ _ Hread) as (_ & Hst2 & _ & Hops2).
  apply read_frame in Hread as (Hwm2 & Hsc2 & Hdisk2 & _ & Hrel2).
  assert (Hw2 : running (STATE w2) = running (STATE w)
     ∧ operator (STATE w2) = operator (STATE w)
     ∧ window_manager w2 = window_manager w
     ∧ scene w2 = scene w
     ∧ disk w2 = disk w
     ∧ capture_released <$> captures w2 = capture_released <$> captures w
     ∧ _cap <$> stream_operators w2 = _cap <$> stream_operators w
     ∧ _timer <$> stream_operators w2 = _timer <$> stream_operators w).
  { rewrite Hst2, Hst1, Hwm2, Hwm1, Hsc2, Hsc1, Hdisk2, Hdisk1, Hrel2, Hcaps1,
      Hops2, Hc1, Ht1. done. }
  destruct Hw2 as (? & ? & ? & ? & ? & ? & ? & ?).
  destruct read_result as [frame|]; [|simplify_eq; done].
  destruct (_size op) as [size|]; simplify_eq/=.
  destruct (frame_to_pixels cv2_resize size frame) as [flat|]; simplify_eq/=.
  destruct (_img op) as [img|]; simplify_eq/=.
  destruct (image_set_pixels img flat w2) as [w3|] eqn:Hset; simplify_eq/=.
  pose proof (image_set_pixels_spec _ _ _ _ Hset) as (im & _ & _ & _ & Hst3 & Hcaps3 & Hops3).
  apply set_pixels_frame in Hset as (Hwm3 & Hsc3 & Hdisk3 & _).
  rewrite Hst3, Hwm3, Hsc3, Hdisk3, Hcaps3, Hops3. done.
Qed.

(** X11. Only [ESC] ends the modal operator: [modal] returns [CANCELLED]
    exactly for that event.  For every other event it returns
    [PASS_THROUGH], whatever happens in the tick, and leaves the running
    flag, the registered operator, the timers and modal handlers, the scene
    properties, the files written, the released flag of every capture handle
    and the handle and timer of every operator as they were; an event other
    than [TIMER], or a tick with no target, changes nothing at all. *)
Theorem only_esc_ends_modal (w : World) (self : nat) (event_type : string)
    (read_result : option Frame) (st : Status) (w' : World) :
  WM_OT_webcam_stream_start_modal cv2_resize w self event_type read_result
  = Some (st, w') ->
  (st = CANCELLED ↔ event_type = "ESC")
  ∧ (event_type ≠ "ESC" ->
     st = PASS_THROUGH
     ∧ running (STATE w') = running (STATE w)
     ∧ operator (STATE w') = operator (STATE w)
     ∧ window_manager w' = window_manager w
     ∧ scene w' = scene w
     ∧ disk w' = disk w
     ∧ capture_released <$> captures w' = capture_released <$> captures w
     ∧ _cap <$> stream_operators w' = _cap <$> stream_operators w
     ∧ _timer <$> stream_operators w' = _timer <$> stream_operators w
     ∧ (event_type ≠ "TIMER" ∨ webcam_target_object (scene w) = None -> w' = w)).
Proof.
  apply modal_frame.
Qed.

End TickEffects.

Lemma only_esc_ends_modal_witness :
  ∃ st w', WM_OT_webcam_stream_start_modal sample_resize started_world 0 "TIMER"
             (Some sample_frame) = Some (st, w')
           ∧ st = PASS_THROUGH
           ∧ running (STATE w') = true.
Proof.
  destruct (WM_OT_webcam_stream_start_modal sample_resize started_world 0 "TIMER"
              (Some sample_frame)) as [[st w']|] eqn:Htick; [|vm_compute in Htick; discriminate].
  destruct (only_esc_ends_modal _ _ _ _ _ _ _ Htick) as [_ Hrest].
  destruct (Hrest ltac:(discriminate)) as (Hst & Hrun & _).
  exists st, w'. split; [reflexivity|]. split; [exact Hst|].
  rewrite Hrun. vm_compute. reflexivity.
Defined.

(** ** Which image a tick writes *)

Lemma images_get_Some_iff (name : string) (imgs : list Image) (i : nat) :
  images_get name imgs = Some i
  ↔ (image_name <$> imgs) !! i = Some name
    ∧ ∀ j, (j < i)%nat -> (image_name <$> imgs) !! j ≠ Some name.
Proof.
  unfold images_get. split.
  - intros H. destruct (list_find _ _) as [[k m]|] eqn:Hfind; simplify_eq/=.
    apply list_find_Some in Hfind as (Hl & Hn & Hlt).
    rewrite list_lookup_fmap, Hl. simpl. split; [congruence|].
    intros j Hj Hc. rewrite list_lookup_fmap in Hc.
    destruct (imgs !! j) as [m'|] eqn:Hm'; simplify_eq/=.
    by eapply Hlt.
  - intros [Hi Hlt]. rewrite list_lookup_fmap in Hi.
    destruct (imgs !! i) as [m|] eqn:Hm; simplify_eq/=.
    assert (Hfind : list_find (λ m0, image_name m0 = image_name m) imgs = Some (i, m)).
    { apply list_find_Some. split; [done|]. split; [done|].
      intros j y Hy Hj Hc. apply (Hlt j Hj).
      rewrite list_lookup_fmap, Hy. simpl. congruence. }
    by rewrite Hfind.
Qed.

Lemma images_get_names (name : string) (imgs imgs' : list Image) (i : nat) :
  image_name <$> imgs' = image_name <$> imgs ->
  images_get name imgs = Some i -> images_get name imgs' = Some i.
Proof.
  intros Hnames H. apply images_get_Some_iff. rewrite Hnames.
  by apply images_get_Some_iff.
Qed.

Lemma rebind_target_same (w : World) (self : nat) (current_obj : Object)
    (op : StreamOperator) (old : Object) :
  stream_operators w !! self = Some op ->
  _obj op = Some old ->
  object_name old = object_name current_obj ->
  rebind_target w self current_obj = Some (inr w).
Proof.
  intros Hop Hobj Hname. unfold rebind_target. rewrite Hop. simpl.
  rewrite Hobj, Hname, String.eqb_refl. done.
Qed.

Lemma rebind_target_changed (w : World) (self : nat) (current_obj : Object)
    (op : StreamOperator) :
  stream_operators w !! self = Some op ->
  (∀ old, _obj op = Some old -> object_name old ≠ object_name current_obj) ->
  rebind_target w self current_obj
  = '((img, _mat), w) ← _ensure_material_for_object w (Some current_obj);
    match img with
    | None => Some (inl w)
    | Some img =>
        im ← images (data w) !! img;
        Some (inr (set_stream_operators
                     (λ ops, <[self := {| _timer := _timer op; _cap := _cap op;
                                          _img := Some img;
                                          _size := Some (image_size im);
                                          _obj := Some current_obj |}]> ops) w))
    end.
Proof.
  intros Hop Hobj. unfold rebind_target. rewrite Hop. simpl.
  destruct (_obj op) as [old|]; [|done].
  specialize (Hobj old eq_refl).
  replace (String.eqb (object_name current_obj) (object_name old)) with false; [done|].
  symmetry. apply String.eqb_neq. congruence.
Qed.

Section TickTargets.

Variable cv2_resize : Frame -> Z * Z -> option Frame.

(** A tick of an operator bound to an object with the target's name. *)
Lemma steady_tick_inv (w : World) (self : nat) (frame : Frame)
    (st : Status) (w' : World) (current_obj old : Object) (op : StreamOperator) :
  WM_OT_webcam_stream_start_modal cv2_resize w self "TIMER" (Some frame)
  = Some (st, w') ->
  webcam_target_object (scene w) = Some current_obj ->
  stream_operators w !! self = Some op ->
  _obj op = Some old ->
  object_name old = object_name current_obj ->
  ∃ img im size flat,
    _img op = Some img
    ∧ _size op = Some size
    ∧ images (data w) !! img = Some im
    ∧ frame_to_pixels cv2_resize size frame = Some flat
    ∧ images (data w') = <[img := with_pixels flat im]> (images (data w))
    ∧ materials (data w') = materials (data w)
    ∧ meshes (data w') = meshes (data w)
    ∧ stream_operators w' = stream_operators w
    ∧ STATE w' = STATE w
    ∧ stdout w' = stdout w
    ∧ device_reads w' = S (device_reads w)
    ∧ scene w' = scene w
    ∧ disk w' = disk w.
Proof.
  unfold WM_OT_webcam_stream_start_modal. intros H Hcur Hop Hobj Hname.
  rewrite decide_False in H by discriminate.
  rewrite decide_True in H by reflexivity.
  rewrite Hcur, (rebind_target_same _ _ _ _ _ Hop Hobj Hname) in H. simpl in H.
  rewrite Hop in H. simpl in H.
  destruct (_cap op) as [cap|]; simplify_eq/=.
  destruct (VideoCapture_read cap w) as [w2|] eqn:Hread; simplify_eq/=.
  destruct (_size op) as [size|] eqn:Hsize; simplify_eq/=.
  destruct (frame_to_pixels cv2_resize size frame) as [flat|] eqn:Hflat; simplify_eq/=.
  destruct (_img op) as [img|] eqn:Himg; simplify_eq/=.
  destruct (image_set_pixels img flat w2) as [w3|] eqn:Hset; simplify_eq/=.
  assert (Hout : stdout w3 = stdout w).
  { unfold image_set_pixels, VideoCapture_read in *.
    repeat case_match; by simplify_option_eq. }
  assert (Hreads : device_reads w3 = S (device_reads w)).
  { apply read_spec in Hread as (<- & _).
    unfold image_set_pixels, device_reads in *.
    repeat case_match; by simplify_option_eq. }
  pose proof (read_frame _ _ _ Hread) as (_ & Hsc2 & Hdisk2 & _).
  apply read_spec in Hread as (_ & Hst2 & Hd2 & Hops2).
  pose proof (image_set_pixels_spec _ _ _ _ Hset)
    as (im & Him & _ & Himgs & Hst3 & _ & Hops3).
  apply set_pixels_frame in Hset as (_ & Hsc3 & Hdisk3 & _ & Hmats & Hmeshes).
  exists img, im, size, flat. rewrite Hd2 in Him, Himgs, Hmats, Hmeshes.
  simpl. rewrite Hops3, Hops2, Hst3, Hst2, Hsc3, Hsc2, Hdisk3, Hdisk2.
  unfold device_reads in *. simpl. done.
Qed.

(** X12. A tick of an operator that is bound to an object with the target's
    name does not call the resolver: it reads a frame and writes the frame
    that [cv2.resize] returns for it and the size the operator holds into the
    image the operator holds, whatever the scene's name prefixes and size now
    are and whatever the target's type is.  No other image, no material and
    no mesh changes, the operator and [STATE] stay as they are, and no error
    is recorded. *)
Theorem steady_tick_writes_held_image (w : World) (self : nat) (frame : Frame)
    (st : Status) (w' : World) (current_obj old : Object) (op : StreamOperator) :
  WM_OT_webcam_stream_start_modal cv2_resize w self "TIMER" (Some frame)
  = Some (st, w') ->
  webcam_target_object (scene w) = Some current_obj ->
  stream_operators w !! self = Some op ->
  _obj op = Some old ->
  object_name old = object_name current_obj ->
  ∃ img im size flat,
    _img op = Some img
    ∧ _size op = Some size
    ∧ images (data w) !! img = Some im
    ∧ resized_into cv2_resize size frame flat
    ∧ images (data w') = <[img := with_pixels flat im]> (images (data w))
    ∧ materials (data w') = materials (data w)
    ∧ meshes (data w') = meshes (data w)
    ∧ stream_operators w' = stream_operators w
    ∧ STATE w' = STATE w
    ∧ stdout w' = stdout w
    ∧ device_reads w' = S (device_reads w).
Proof.
  intros H Hcur Hop Hobj Hname.
  destruct (steady_tick_inv _ _ _ _ _ _ _ _ H Hcur Hop Hobj Hname)
    as (img & im & size & flat & ? & ? & ? & Hflat & ? & ? & ? & ? & ? & ? & ? & _).
  exists img, im, size, flat. repeat (split; [done|]).
  split; [by apply frame_to_pixels_resized|]. done.
Qed.

(** X13. A tick of an operator bound to another object (or to none) calls
    the resolver for the target.  When the resolver's failure condition does
    not hold, the operator is afterwards bound to the target, to an image
    and to that image's size; it has kept its capture handle and its timer;
    the frame that [cv2.resize] returns for the frame read and the image's
    size is in that image; every other image is as it was.  When the image
    name and the material name fit Blender's limit of 63 bytes, the image is
    the one the save operator would look up. *)
Theorem tick_follows_target (w : World) (self : nat) (frame : Frame)
    (st : Status) (w' : World) (current_obj : Object) (op : StreamOperator) :
  WM_OT_webcam_stream_start_modal cv2_resize w self "TIMER" (Some frame)
  = Some (st, w') ->
  webcam_target_object (scene w) = Some current_obj ->
  stream_operators w !! self = Some op ->
  (∀ old, _obj op = Some old -> object_name old ≠ object_name current_obj) ->
  ¬ failure_condition w (Some current_obj) ->
  ∃ op' img im,
    stream_operators w' !! self = Some op'
    ∧ _obj op' = Some current_obj
    ∧ _cap op' = _cap op
    ∧ _timer op' = _timer op
    ∧ _img op' = Some img
    ∧ (names_fit w (Some current_obj) -> image_to_save w' = Some img)
    ∧ images (data w') !! img = Some im
    ∧ _size op' = Some (image_size im)
    ∧ resized_into cv2_resize (image_size im) frame (image_pixels im)
    ∧ (∀ i im0, i ≠ img -> images (data w) !! i = Some im0 ->
         images (data w') !! i = Some im0)
    ∧ device_reads w' = S (device_reads w).
Proof.
  unfold WM_OT_webcam_stream_start_modal. intros H Hcur Hop Hobj Hok.
  rewrite decide_False in H by discriminate.
  rewrite decide_True in H by reflexivity.
  rewrite Hcur, (rebind_target_changed _ _ _ _ Hop Hobj) in H. simpl in H.
  destruct (_ensure_material_for_object w (Some current_obj))
    as [[[[img|] mat] w1]|] eqn:Hens; simplify_eq/=;
    [|destruct Hok; by eapply ensure_fails_inv].
  destruct (images (data w1) !! img) as [im|] eqn:Him; simplify_eq/=.
  destruct (ensure_keeps_session _ _ _ _ Hens)
    as (_ & _ & Hscene & _ & Hcaps & Hops & _).
  rewrite list_lookup_insert_eq in H by (rewrite Hops; by eapply lookup_lt_Some).
  simpl in H.
  destruct (_cap op) as [cap|] eqn:Hcap; simplify_eq/=.
  match type of H with
  | context [VideoCapture_read cap ?w0] =>
      destruct (VideoCapture_read cap w0) as [w2|] eqn:Hread
  end; simplify_eq/=.
  destruct (frame_to_pixels cv2_resize (image_size im) frame) as [flat|] eqn:Hflat;
    simplify_eq/=.
  match type of H with
  | context [image_set_pixels img flat ?w0] =>
      destruct (image_set_pixels img flat w0) as [w3|] eqn:Hset
  end; simplify_eq/=.
  pose proof (ensure_image_bound _ _ _ _ _ Hens) as [Hget _].
  pose proof (read_spec _ _ _ Hread) as (Hreads & _ & Hd2 & Hops2).
  apply read_frame in Hread as (_ & Hsc2 & _).
  pose proof (image_set_pixels_spec _ _ _ _ Hset)
    as (im2 & Him2 & _ & Himgs & _ & Hcaps3 & Hops3).
  apply set_pixels_frame in Hset as (_ & Hsc3 & _).
  simpl in *. rewrite Hd2 in Him2, Himgs. simpl in *.
  assert (im2 = im) as -> by congruence.
  eexists _, img, (with_pixels flat im).
  split.
  { rewrite Hops3, Hops2. apply list_lookup_insert_eq.
    rewrite Hops. by eapply lookup_lt_Some. }
  simpl. repeat (split; [done|]).
  split.
  { intros [Hfit _]. specialize (Hget (or_introl Hfit)).
    unfold image_to_save. simpl. rewrite Hsc3, Hsc2. simpl. rewrite Hscene, Hcur.
    simpl. eapply images_get_names; [|exact Hget].
    rewrite Himgs, list_fmap_insert. simpl. apply list_insert_id.
    by rewrite list_lookup_fmap, Him. }
  split.
  { rewrite Himgs. apply list_lookup_insert_eq. by eapply lookup_lt_Some. }
  split; [done|]. split; [by apply frame_to_pixels_resized|].
  split.
  { intros i im0 Hne Hi. rewrite Himgs, list_lookup_insert_ne by done.
    by eapply ensure_keeps_images. }
  unfold device_reads in *. simpl in *.
  by rewrite Hcaps3, Hreads, Hcaps.
Qed.

(** X14. A tick of an operator bound to another object (or to none), with a
    target the resolver fails on, passes the event through and does nothing
    but record the resolver's error: no frame is read, the operator stays
    bound as it was, and the session keeps running. *)
Theorem tick_on_unusable_target (w : World) (self : nat)
    (read_result : option Frame) (st : Status) (w' : World)
    (current_obj : Object) (op : StreamOperator) :
  WM_OT_webcam_stream_start_modal cv2_resize w self "TIMER" read_result
  = Some (st, w') ->
  webcam_target_object (scene w) = Some current_obj ->
  stream_operators w !! self = Some op ->
  (∀ old, _obj op = Some old -> object_name old ≠ object_name current_obj) ->
  failure_condition w (Some current_obj) ->
  st = PASS_THROUGH
  ∧ error_recorded w w'
  ∧ running (STATE w') = running (STATE w)
  ∧ stream_operators w' = stream_operators w
  ∧ captures w' = captures w
  ∧ data w' = data w.
Proof.
  unfold WM_OT_webcam_stream_start_modal. intros H Hcur Hop Hobj Hfail.
  rewrite decide_False in H by discriminate.
  rewrite decide_True in H by reflexivity.
  rewrite Hcur, (rebind_target_changed _ _ _ _ Hop Hobj) in H. simpl in H.
  apply failure_condition_fails in Hfail as (msg & Hmsg & Hres).
  rewrite Hres in H. simplify_eq/=.
  split; [done|]. split; [by exists msg|done].
Qed.

(** X15. A tick tags every ['VIEW_3D'] area for redraw once, and no other
    area, when it has written a frame; a tick that wrote no frame tags
    nothing. *)
Theorem tick_tags_view_3d (w : World) (self : nat) (read_result : option Frame)
    (st : Status) (w' : World) (i : nat) (area : Area) :
  WM_OT_webcam_stream_start_modal cv2_resize w self "TIMER" read_result
  = Some (st, w') ->
  screen_areas w !! i = Some area ->
  screen_areas w' !! i
  = Some {| area_type := area_type area;
            area_redraw_tags :=
              if bool_decide (area_type area = "VIEW_3D"
                              ∧ is_Some read_result
                              ∧ device_reads w' ≠ device_reads w)
              then S (area_redraw_tags area) else area_redraw_tags area |}.
Proof.
  intros H Harea.
  assert (Hsame : ∀ a : Area,
    {| area_type := area_type a; area_redraw_tags := area_redraw_tags a |} = a)
    by (by intros []).
  destruct (modal_cases _ _ _ _ _ _ _ H)
    as [(Hr & _)|(cur & w1 & op & cap & w2 & -> & Hre & Hop & _ & Hread & Hrest)].
  - rewrite bool_decide_eq_false_2 by (intros (_ & _ & ?); done).
    rewrite Hsame.
    unfold WM_OT_webcam_stream_start_modal in H.
    rewrite decide_False in H by discriminate.
  rewrite decide_True in H by reflexivity.
    destruct (webcam_target_object (scene w)) as [current_obj|]; [|by simplify_eq].
    destruct (rebind_target w self current_obj) as [[w1|w1]|] eqn:Hre; simplify_eq/=.
    { apply rebind_target_inl in Hre as (msg & _ & ->). done. }
    destruct (stream_operators w1 !! self) as [op|]; simplify_eq/=.
    destruct (_cap op) as [cap|]; simplify_eq/=.
    destruct (VideoCapture_read cap w1) as [w2|] eqn:Hread; simplify_eq/=.
    apply rebind_target_inr in Hre as (_ & Hcaps & _).
    pose proof (read_spec _ _ _ Hread) as (Hn & _).
    assert (Hn1 : device_reads w1 = device_reads w)
      by (unfold device_reads; by rewrite Hcaps).
    destruct read_result as [frame|]; simplify_eq/=; [|lia].
    destruct (_size op); simplify_eq/=.
    destruct (frame_to_pixels _ _ _); simplify_eq/=.
    destruct (_img op) as [img|]; simplify_eq/=.
    destruct (image_set_pixels img l w2) as [w3|] eqn:Hset; simplify_eq/=.
    apply image_set_pixels_spec in Hset as (? & _ & _ & _ & _ & Hc3 & _).
    unfold device_reads in *. simpl in Hr. rewrite Hc3 in Hr. lia.
  - pose proof (rebind_target_inr _ _ _ _ Hre) as (_ & Hcaps & _).
    apply rebind_target_frame in Hre as (_ & _ & _ & Hareas1 & _).
    pose proof (read_spec _ _ _ Hread) as (Hn & _).
    apply read_frame in Hread as (_ & _ & _ & Hareas2 & _).
    assert (Hn1 : device_reads w1 = device_reads w)
      by (unfold device_reads; by rewrite Hcaps).
    destruct read_result as [frame|].
    + destruct Hrest as (size & flat & img & w3 & _ & _ & _ & Hset & ->).
      pose proof (image_set_pixels_spec _ _ _ _ Hset) as (? & _ & _ & _ & _ & Hc3 & _).
      apply set_pixels_frame in Hset as (_ & _ & _ & Hareas3 & _).
      simpl. rewrite Hareas3, Hareas2, Hareas1, list_lookup_fmap, Harea. simpl.
      assert (Hreads : device_reads (tag_redraw_view_3d w3) ≠ device_reads w).
      { unfold device_reads in *. simpl. rewrite Hc3. lia. }
      destruct (decide (area_type area = "VIEW_3D")) as [Hv|Hv].
      * by rewrite bool_decide_eq_true_2.
      * rewrite bool_decide_eq_false_2 by (by intros (? & _)). by rewrite Hsame.
    + subst w'. rewrite Hareas2, Hareas1.
      rewrite bool_decide_eq_false_2 by (by intros (_ & [? [=]] & _)).
      by rewrite Hsame.
Qed.

End TickTargets.

Lemma steady_tick_writes_held_image_witness :
  device_reads (tick started_world (Some sample_frame))
  = S (device_reads started_world)
  ∧ STATE (tick started_world (Some sample_frame)) = STATE started_world.
Proof.
  assert (Htick : WM_OT_webcam_stream_start_modal sample_resize started_world 0
                    "TIMER" (Some sample_frame)
                  = Some (PASS_THROUGH, tick started_world (Some sample_frame))).
  { vm_compute. reflexivity. }
  destruct (steady_tick_writes_held_image sample_resize started_world 0
               sample_frame _ _ Cube Cube
               {| _timer := Some 0%nat; _cap := Some 0%nat; _img := Some 0%nat;
                  _size := Some (2, 1); _obj := Some Cube |} Htick)
    as (img & im & size & flat & _ & _ & _ & _ & _ & _ & _ & _ & Hst & _ & Hreads).
  - vm_compute. reflexivity.
  - vm_compute. reflexivity.
  - vm_compute. reflexivity.
  - reflexivity.
  - split; [exact Hreads|exact Hst].
Defined.

Lemma tick_follows_target_witness :
  ∃ op', stream_operators
           (tick (select_target (Some Cube_001) started_world) (Some sample_frame))
         !! 0%nat = Some op'
         ∧ _obj op' = Some Cube_001
         ∧ _img op'
           = image_to_save
               (tick (select_target (Some Cube_001) started_world) (Some sample_frame)).
Proof.
  assert (Htick : WM_OT_webcam_stream_start_modal sample_resize
                    (select_target (Some Cube_001) started_world) 0
                    "TIMER" (Some sample_frame)
                  = Some (PASS_THROUGH,
                          tick (select_target (Some Cube_001) started_world)
                            (Some sample_frame))).
  { vm_compute. reflexivity. }
  destruct (tick_follows_target sample_resize _ 0 sample_frame _ _ Cube_001
               {| _timer := Some 0%nat; _cap := Some 0%nat; _img := Some 0%nat;
                  _size := Some (2, 1); _obj := Some Cube |} Htick)
    as (op' & img & im & Hop' & Hobj' & _ & _ & Himg' & Hsave & _).
  - vm_compute. reflexivity.
  - vm_compute. reflexivity.
  - intros old Hold. vm_compute in Hold. injection Hold as <-. discriminate.
  - intros Hfail. apply failure_condition_fails in Hfail as (msg & _ & Hres).
    vm_compute in Hres. discriminate.
  - exists op'. split; [exact Hop'|]. split; [exact Hobj'|].
    rewrite Hsave; [exact Himg'|]. vm_compute. split; lia.
Defined.

Lemma tick_on_unusable_target_witness :
  running (STATE (tick (select_target (Some Lamp) started_world) None))
  = running (STATE (select_target (Some Lamp) started_world))
  ∧ captures (tick (select_target (Some Lamp) started_world) None)
    = captures (select_target (Some Lamp) started_world).
Proof.
  assert (Htick : WM_OT_webcam_stream_start_modal sample_resize
                    (select_target (Some Lamp) started_world) 0 "TIMER" None
                  = Some (PASS_THROUGH,
                          tick (select_target (Some Lamp) started_world) None)).
  { vm_compute. reflexivity. }
  destruct (tick_on_unusable_target sample_resize _ 0 None _ _ Lamp
               {| _timer := Some 0%nat; _cap := Some 0%nat; _img := Some 0%nat;
                  _size := Some (2, 1); _obj := Some Cube |} Htick)
    as (_ & _ & Hrun & _ & Hcaps & _).
  - vm_compute. reflexivity.
  - vm_compute. reflexivity.
  - intros old Hold. vm_compute in Hold. injection Hold as <-. discriminate.
  - right. left. exists Lamp. split; [reflexivity|discriminate].
  - split; [exact Hrun|exact Hcaps].
Defined.

Lemma tick_tags_view_3d_witness :
  screen_areas (tick started_world (Some sample_frame)) !! 0%nat
  = Some {| area_type := "VIEW_3D";
            area_redraw_tags :=
              if bool_decide ("VIEW_3D" = "VIEW_3D"
                              ∧ is_Some (Some sample_frame)
                              ∧ device_reads (tick started_world (Some sample_frame))
                                ≠ device_reads started_world)
              then 1%nat else 0%nat |}.
Proof.
  apply (tick_tags_view_3d sample_resize started_world 0 (Some sample_frame)
           PASS_THROUGH (tick started_world (Some sample_frame)) 0
           {| area_type := "VIEW_3D"; area_redraw_tags := 0 |}).
  - vm_compute. reflexivity.
  - vm_compute. reflexivity.
Defined.

(** ** From the start to the file *)

Lemma image_to_save_transfer (w w' : World) :
  scene w' = scene w ->
  image_name <$> images (data w') = image_name <$> images (data w) ->
  image_to_save w' = image_to_save w.
Proof.
  intros Hscene Hnames. unfold image_to_save. rewrite Hscene.
  destruct (webcam_target_object (scene w)) as [o|]; [|done]. simpl.
  destruct (images_get _ (images (data w))) as [i|] eqn:Hget.
  - by eapply images_get_names.
  - destruct (images_get _ (images (data w'))) as [i|] eqn:Hget'; [|done].
    eapply images_get_names in Hget'; [|symmetry; exact Hnames]. congruence.
Qed.

Lemma start_keeps_read_only (w : World) (self : nat) (st : Status) (w' : World) :
  WM_OT_webcam_stream_start_execute w self = Some (st, w') ->
  read_only_paths w' = read_only_paths w.
Proof.
  unfold WM_OT_webcam_stream_start_execute. intros H.
  destruct (running (STATE w)); [by simplify_eq|].
  destruct (negb _); [by simplify_eq|].
  destruct (_ensure_material_for_object _ _) as [[[[img|] mat] w1]|] eqn:Hens;
    simplify_eq/=.
  - destruct (stream_operators w1 !! self); simplify_eq/=.
    destruct (images (data w1) !! img); simplify_eq/=.
    by destruct (ensure_keeps_session _ _ _ _ Hens) as (_ & _ & _ & _ & _ & _ & ? & _).
  - by destruct (ensure_keeps_session _ _ _ _ Hens) as (_ & _ & _ & _ & _ & _ & ? & _).
Qed.

Lemma save_png_keeps_session (w : World) (filepath : string) (st : Status) (w' : World) :
  WM_OT_webcam_save_png_execute w filepath = Some (st, w') ->
  running (STATE w') = running (STATE w)
  ∧ operator (STATE w') = operator (STATE w)
  ∧ captures w' = captures w
  ∧ stream_operators w' = stream_operators w
  ∧ window_manager w' = window_manager w
  ∧ scene w' = scene w.
Proof.
  unfold WM_OT_webcam_save_png_execute, image_save. intros H.
  repeat case_match; by simplify_option_eq.
Qed.

Section StartToFile.

Variable cv2_resize : Frame -> Z * Z -> option Frame.

(** X16. Start, one tick with a frame, save: when the image name and the
    material name of the target fit Blender's limit of 63 bytes, the start
    went through and the tick returned, saving to a path that is not blank
    and can be written returns [FINISHED]; the file written last is at the
    destination of C4 and holds the frame that [cv2.resize] returns for the
    frame read and the size of the target's image, converted as in C9; the
    session is still running. *)
Theorem start_tick_save (w : World) (self : nat) (w1 : World) (frame : Frame)
    (st : Status) (w2 : World) (filepath : string) :
  names_fit w (webcam_target_object (scene w)) ->
  WM_OT_webcam_stream_start_execute w self = Some (RUNNING_MODAL, w1) ->
  WM_OT_webcam_stream_start_modal cv2_resize w1 self "TIMER" (Some frame)
  = Some (st, w2) ->
  strip filepath ≠ "" ->
  png_destination (strip filepath) ∉ read_only_paths w ->
  ∃ img im flat w3,
    image_to_save w1 = Some img
    ∧ images (data w1) !! img = Some im
    ∧ resized_into cv2_resize (image_size im) frame flat
    ∧ WM_OT_webcam_save_png_execute w2 filepath = Some (FINISHED, w3)
    ∧ disk w3 = disk w ++ [(png_destination (strip filepath), flat)]
    ∧ running (STATE w3) = true.
Proof.
  intros Hfit Hstart Htick Hpath Hro.
  pose proof (start_keeps_read_only _ _ _ _ Hstart) as Hro1.
  apply start_success_inv in Hstart
    as (_ & _ & img & mat & w0 & im & Hens & Him & Hself & Hdata & Hscene & Hdisk
        & _ & _ & _ & Hstate & Hops).
  destruct (ensure_success_inv _ _ _ _ _ Hens) as (o & _ & Ho & _).
  pose proof (resolved_image_to_save _ _ _ _ Hfit Hens) as Hsave0.
  destruct (ensure_keeps_session _ _ _ _ Hens) as (_ & _ & Hscene0 & _).
  assert (Hsave1 : image_to_save w1 = Some img).
  { rewrite <- Hsave0. apply image_to_save_transfer; [congruence|by rewrite Hdata]. }
  assert (Hop1 : stream_operators w1 !! self
                 = Some {| _timer := Some (length (timers (window_manager w)));
                           _cap := Some (length (captures w));
                           _img := Some img;
                           _size := Some (image_size im);
                           _obj := webcam_target_object (scene w) |}).
  { rewrite Hops. by apply list_lookup_insert_eq. }
  assert (Hcur : webcam_target_object (scene w1) = Some o) by (by rewrite Hscene).
  destruct (steady_tick_inv _ _ _ _ _ _ _ o _ Htick Hcur Hop1)
    as (img' & im' & size & flat & Himg' & Hsize' & Him' & Hflat & Himgs & _ & _ & _
        & Hst2 & _ & _ & Hscene2 & Hdisk2); [done|done|].
  simpl in Himg', Hsize'. injection Himg' as <-. injection Hsize' as <-.
  rewrite Hdata in Him'.
  assert (im' = im) as -> by congruence.
  assert (Hsave2 : image_to_save w2 = Some img).
  { rewrite <- Hsave1. apply image_to_save_transfer; [done|].
    rewrite Himgs, list_fmap_insert. simpl. apply list_insert_id.
    by rewrite list_lookup_fmap, Hdata, Him. }
  destruct (save_png_writes w2 img filepath Hsave2 Hpath) as (im2 & Him2 & Hwrite & _).
  assert (Hlook : images (data w2) !! img = Some (with_pixels flat im)).
  { rewrite Himgs. apply list_lookup_insert_eq. rewrite Hdata. by eapply lookup_lt_Some. }
  assert (im2 = with_pixels flat im) as -> by congruence.
  assert (Hro2 : read_only_paths w2 = read_only_paths w1).
  { clear -Htick. unfold WM_OT_webcam_stream_start_modal in Htick.
    rewrite decide_False in Htick by discriminate.
    rewrite decide_True in Htick by reflexivity.
    destruct (webcam_target_object (scene w1)) as [c|]; [|by simplify_eq].
    destruct (rebind_target w1 self c) as [[wa|wa]|] eqn:Hre; simplify_eq/=.
    { apply rebind_target_inl in Hre as (msg & _ & ->). done. }
    assert (Hra : read_only_paths wa = read_only_paths w1).
    { unfold rebind_target in Hre.
      destruct (stream_operators w1 !! self) as [op|]; simplify_eq/=.
      destruct (match _obj op with Some _ => _ | None => _ end); simplify_eq/=; [|done].
      destruct (_ensure_material_for_object _ _) as [[[[i|] m] wb]|] eqn:Hens;
        simplify_eq/=.
      destruct (images (data wb) !! i); simplify_eq/=.
      by destruct (ensure_keeps_session _ _ _ _ Hens) as (_ & _ & _ & _ & _ & _ & ? & _). }
    rewrite <- Hra. unfold VideoCapture_read, image_set_pixels in Htick.
    repeat case_match; by simplify_option_eq. }
  destruct Hwrite as (w3 & Hsave & Hdisk3 & _); [by rewrite Hro2, Hro1|].
  exists img, im, flat, w3. split; [done|]. split; [by rewrite Hdata|].
  split; [by apply frame_to_pixels_resized|]. split; [done|].
  split; [by rewrite Hdisk3, Hdisk2, Hdisk|].
  destruct (save_png_keeps_session _ _ _ _ Hsave) as (-> & _).
  by rewrite Hst2, Hstate.
Qed.

End StartToFile.

Lemma start_tick_save_witness :
  ∃ flat w3,
    resized_into sample_resize (2, 1) sample_frame flat
    ∧ WM_OT_webcam_save_png_execute (tick started_world (Some sample_frame)) "frame"
      = Some (FINISHED, w3)
    ∧ disk w3 = [("frame.png", flat)].
Proof.
  assert (Hstart : WM_OT_webcam_stream_start_execute (sample_world (Some Cube) 2 1) 0
                   = Some (RUNNING_MODAL, started_world)).
  { vm_compute. reflexivity. }
  assert (Htick : WM_OT_webcam_stream_start_modal sample_resize started_world 0
                    "TIMER" (Some sample_frame)
                  = Some (PASS_THROUGH, tick started_world (Some sample_frame))).
  { vm_compute. reflexivity. }
  assert (Hfit : names_fit (sample_world (Some Cube) 2 1)
                    (webcam_target_object (scene (sample_world (Some Cube) 2 1)))).
  { vm_compute. split; lia. }
  destruct (start_tick_save sample_resize _ _ _ _ _ _ "frame" Hfit Hstart Htick)
    as (img & im & flat & w3 & Himg & Him & Hflat & Hsave & Hdisk & _).
  - vm_compute. discriminate.
  - vm_compute. intros Hin. inversion Hin.
  - assert (Hsz : image_size im = (2, 1)).
    { vm_compute in Himg. injection Himg as <-.
      vm_compute in Him. by injection Him as <-. }
    rewrite Hsz in Hflat. exists flat, w3.
    split; [exact Hflat|]. split; [exact Hsave|exact Hdisk].
Defined.

(** ** One open capture handle *)

Lemma session_consistent_transfer (w w' : World) :
  running (STATE w') = running (STATE w) ->
  operator (STATE w') = operator (STATE w) ->
  _cap <$> stream_operators w' = _cap <$> stream_operators w ->
  capture_released <$> captures w' = capture_released <$> captures w ->
  session_consistent w -> session_consistent w'.
Proof.
  unfold session_consistent, holds_open_handle. by intros -> -> -> ->.
Qed.

Lemma session_consistent_stopped (w : World) :
  running (STATE w) = false ->
  (∀ c, (capture_released <$> captures w) !! c ≠ Some false) ->
  session_consistent w.
Proof.
  intros Hrun Hnone. split.
  - rewrite Hrun. discriminate.
  - intros c Hc. by destruct (Hnone c).
Qed.

(** What [cancel] does to the session and to the capture handles. *)
Lemma cancel_spec (w : World) (self : nat) (w' : World) :
  WM_OT_webcam_stream_start_cancel w self = Some w' ->
  ∃ op, stream_operators w !! self = Some op
        ∧ running (STATE w') = false
        ∧ operator (STATE w') = None
        ∧ last_error (STATE w') = last_error (STATE w)
        ∧ stream_operators w' = stream_operators w
        ∧ capture_released <$> captures w'
          = match _cap op with
            | Some c => alter (λ _, true) c (capture_released <$> captures w)
            | None => capture_released <$> captures w
            end.
Proof.
  unfold WM_OT_webcam_stream_start_cancel. intros H.
  destruct (stream_operators w !! self) as [op|] eqn:Hop; simplify_eq/=.
  exists op. repeat (split; [done|]).
  assert (Hrel : ∀ (c : nat) (cs : list VideoCapture),
    capture_released <$> alter (λ c0, {| capture_index := capture_index c0;
                                         capture_props := capture_props c0;
                                         capture_released := true;
                                         capture_reads := capture_reads c0 |}) c cs
    = alter (λ _, true) c (capture_released <$> cs)).
  { intros c cs. apply list_eq. intros i. rewrite list_lookup_fmap.
    destruct (decide (i = c)) as [->|Hne].
    - rewrite !list_lookup_alter_eq, list_lookup_fmap. by destruct (cs !! c).
    - by rewrite !list_lookup_alter_ne, list_lookup_fmap by done. }
  destruct (_timer op), (_cap op); simpl; by rewrite ?Hrel.
Qed.

(** [cancel] of the registered operator, or of any operator when nothing
    runs, leaves no handle open. *)
Lemma cancel_consistent (w : World) (self : nat) (w' : World) :
  session_consistent w ->
  (running (STATE w) = true -> operator (STATE w) = Some self) ->
  WM_OT_webcam_stream_start_cancel w self = Some w' ->
  running (STATE w') = false
  ∧ ∀ c, (capture_released <$> captures w') !! c ≠ Some false.
Proof.
  intros [_ Hopen] Hself Hc.
  apply cancel_spec in Hc as (op & Hop & Hrun & _ & _ & _ & Hrel).
  split; [done|]. intros c Hfalse. rewrite Hrel in Hfalse.
  assert (Hw : (capture_released <$> captures w) !! c = Some false).
  { destruct (_cap op) as [c0|]; [|done].
    destruct (decide (c = c0)) as [->|Hne].
    - rewrite list_lookup_alter_eq in Hfalse.
      by destruct ((capture_released <$> captures w) !! c0).
    - by rewrite list_lookup_alter_ne in Hfalse. }
  destruct (Hopen c Hw) as (Hr & self' & Hreg & Hcap).
  rewrite (Hself Hr) in Hreg. injection Hreg as <-.
  rewrite list_lookup_fmap, Hop in Hcap. simpl in Hcap. injection Hcap as Hcap.
  rewrite Hcap in Hfalse. rewrite list_lookup_alter_eq, Hw in Hfalse. done.
Qed.

(** A start that does not go through leaves the session as it was. *)
Lemma start_not_running_modal (w : World) (self : nat) (st : Status) (w' : World) :
  WM_OT_webcam_stream_start_execute w self = Some (st, w') ->
  st ≠ RUNNING_MODAL ->
  running (STATE w') = running (STATE w)
  ∧ operator (STATE w') = operator (STATE w)
  ∧ captures w' = captures w
  ∧ stream_operators w' = stream_operators w.
Proof.
  unfold WM_OT_webcam_stream_start_execute. intros H Hst.
  destruct (running (STATE w)) eqn:Hrun; [by simplify_eq|].
  destruct (negb _); [by simplify_eq|].
  destruct (_ensure_material_for_object _ _) as [[[[img|] mat] w1]|] eqn:Hens;
    simplify_eq/=.
  - destruct (stream_operators w1 !! self); simplify_eq/=.
    destruct (images (data w1) !! img); by simplify_eq/=.
  - destruct (ensure_keeps_session _ _ _ _ Hens) as (? & ? & _ & _ & ? & ? & _).
    repeat split; congruence.
Qed.

Lemma start_consistent (w : World) (self : nat) (st : Status) (w' : World) :
  session_consistent w ->
  WM_OT_webcam_stream_start_execute w self = Some (st, w') ->
  session_consistent w'.
Proof.
  intros Hinv H.
  assert (Hcases : st = RUNNING_MODAL ∨ st ≠ RUNNING_MODAL)
    by (destruct st; auto; right; discriminate).
  destruct Hcases as [->|Hst].
  - apply start_success_inv in H
      as (Hrun & _ & img & mat & w1 & im & _ & _ & Hself & _ & _ & _ & Hcaps & _ & _
          & Hstate & Hops).
    assert (Hnone : ∀ c, (capture_released <$> captures w) !! c ≠ Some false).
    { intros c Hc. destruct Hinv as [_ Hopen]. destruct (Hopen c Hc) as [? _].
      congruence. }
    assert (Hop : (_cap <$> stream_operators w') !! self
                  = Some (Some (length (captures w)))).
    { rewrite Hops, list_lookup_fmap, list_lookup_insert_eq by done. done. }
    assert (Hnew : (capture_released <$> captures w') !! length (captures w)
                   = Some false).
    { rewrite Hcaps, fmap_app, lookup_app_r by (by rewrite length_fmap).
      by rewrite length_fmap, Nat.sub_diag. }
    split.
    + intros _. exists self, (length (captures w)). by rewrite Hstate.
    + intros c Hc. rewrite Hstate. split; [done|]. exists self. split; [done|].
      destruct (decide (c < length (captures w))%nat) as [Hlt|Hge].
      * rewrite Hcaps, fmap_app, lookup_app_l in Hc by (by rewrite length_fmap).
        by destruct (Hnone c).
      * assert (c = length (captures w)) as ->; [|done].
        apply lookup_lt_Some in Hc.
        rewrite Hcaps, length_fmap, length_app in Hc. simpl in Hc. lia.
  - destruct (start_not_running_modal _ _ _ _ H Hst) as (? & ? & ? & ?).
    eapply session_consistent_transfer; [..|exact Hinv]; congruence.
Qed.

Section SessionInvariant.

Variable cv2_resize : Frame -> Z * Z -> option Frame.

Lemma call_consistent (w : World) (c : Call) (w' : World) :
  session_consistent w ->
  esc_reaches_session w c ->
  call cv2_resize w c = Some w' ->
  session_consistent w'.
Proof.
  intros Hinv Hesc H. destruct c as [self|self event_type read_result| |filepath| | |s|];
    simpl in H.
  - destruct (WM_OT_webcam_stream_start_execute w self) as [[st w1]|] eqn:Hstart;
      simplify_eq/=. by eapply start_consistent.
  - destruct (WM_OT_webcam_stream_start_modal cv2_resize w self event_type read_result)
      as [[st w1]|] eqn:Hmodal; simplify_eq/=.
    destruct (decide (event_type = "ESC")) as [->|Hne].
    + unfold WM_OT_webcam_stream_start_modal in Hmodal.
      rewrite decide_True in Hmodal by done.
      destruct (WM_OT_webcam_stream_start_cancel w self) as [w2|] eqn:Hc; simplify_eq/=.
      destruct (cancel_consistent _ _ _ Hinv (Hesc eq_refl) Hc) as [Hrun Hnone].
      by apply session_consistent_stopped.
    + destruct (modal_frame _ _ _ _ _ _ _ Hmodal) as [_ Hframe].
      destruct (Hframe Hne) as (_ & ? & ? & _ & _ & _ & ? & ? & _).
      by eapply session_consistent_transfer.
  - unfold WM_OT_webcam_stream_stop_execute in H.
    destruct (operator (STATE w)) as [op|] eqn:Hop.
    + destruct (WM_OT_webcam_stream_start_cancel w op) as [w1|] eqn:Hc; simplify_eq/=.
      destruct (cancel_consistent _ _ _ Hinv (λ _, Hop) Hc) as [Hrun Hnone].
      by apply session_consistent_stopped.
    + simplify_eq/=. apply session_consistent_stopped; [done|]. simpl.
      intros c Hc. destruct Hinv as [_ Hopen].
      destruct (Hopen c Hc) as (_ & self & Hreg & _). congruence.
  - destruct (WM_OT_webcam_save_png_execute w filepath) as [[st w1]|] eqn:Hsave;
      simplify_eq/=.
    destruct (save_png_keeps_session _ _ _ _ Hsave) as (? & ? & ? & ? & _).
    eapply session_consistent_transfer; [..|exact Hinv]; congruence.
  - destruct (WM_OT_webcam_setup_object_execute w) as [[st w1]|] eqn:Hsetup;
      simplify_eq/=.
    apply setup_object_inv in Hsetup as [[_ Hens]|(_ & img & mat & Hens)].
    all: destruct (ensure_keeps_session _ _ _ _ Hens) as (? & ? & _ & _ & ? & ? & _).
    all: eapply session_consistent_transfer; [..|exact Hinv]; congruence.
  - unfold _on_target_object_update in H.
    destruct (webcam_target_object (scene w)) as [o|]; [|by simplify_eq].
    destruct (_ensure_material_for_object w (Some o)) as [[r w1]|] eqn:Hens;
      simplify_eq/=.
    destruct (ensure_keeps_session _ _ _ _ Hens) as (? & ? & _ & _ & ? & ? & _).
    eapply session_consistent_transfer; [..|exact Hinv]; congruence.
  - simplify_eq. exact Hinv.
  - simplify_eq. destruct Hinv as [Hrun Hopen]. split.
    + intros Hr. destruct (Hrun Hr) as (self & c & Hreg & Hcap & Hrel).
      exists self, c. split; [done|]. split; [|done]. simpl.
      rewrite fmap_app. by apply lookup_app_l_Some.
    + intros c Hc. destruct (Hopen c Hc) as (Hr & self & Hreg & Hcap).
      split; [done|]. exists self. split; [done|]. simpl.
      rewrite fmap_app. by apply lookup_app_l_Some.
Qed.

Lemma runs_consistent (w : World) (cs : list Call) (w' : World) :
  session_consistent w -> runs cv2_resize w cs w' -> session_consistent w'.
Proof.
  intros Hinv Hruns. induction Hruns as [w|w c w1 cs w2 Hesc Hcall _ IH]; [done|].
  apply IH. by eapply call_consistent.
Qed.

Lemma no_open_handle (l : list bool) :
  (∀ i, l !! i ≠ Some false) -> filter (λ released : bool, released = false) l = [].
Proof.
  induction l as [|b l IH]; intros Hnone; [done|].
  destruct b; [|by destruct (Hnone 0%nat)].
  rewrite filter_cons_False by done. apply IH. intros i. apply (Hnone (S i)).
Qed.

Lemma one_open_handle_count (l : list bool) (c : nat) :
  l !! c = Some false ->
  (∀ i, l !! i = Some false -> i = c) ->
  length (filter (λ released : bool, released = false) l) = 1%nat.
Proof.
  revert c. induction l as [|b l IH]; intros c Hc Huniq; [done|].
  destruct b.
  - rewrite filter_cons_False by done.
    destruct c as [|c]; [done|]. apply (IH c); [done|].
    intros i Hi. specialize (Huniq (S i) Hi). by injection Huniq.
  - rewrite filter_cons_True by done. simpl. rewrite no_open_handle; [done|].
    intros i Hi. pose proof (Huniq 0%nat eq_refl) as <-.
    by specialize (Huniq (S i) Hi).
Qed.

Lemma consistent_count (w : World) :
  session_consistent w ->
  open_handles w = if running (STATE w) then 1%nat else 0%nat.
Proof.
  intros [Hrun Hopen]. unfold open_handles.
  destruct (running (STATE w)) eqn:Hr.
  - destruct (Hrun eq_refl) as (self & c & Hreg & Hcap & Hrel).
    apply (one_open_handle_count _ c); [done|].
    intros i Hi. destruct (Hopen i Hi) as (_ & self' & Hreg' & Hcap').
    congruence.
  - rewrite no_open_handle; [done|].
    intros i Hi. by destruct (Hopen i Hi).
Qed.

(** X17. At most one capture handle is open at any time.  Start from a
    consistent world (a running session has a registered operator holding an
    open handle, and every open handle is held by the registered operator of
    a running session; a world with no handle open and nothing running is
    one), and let the host make any sequence of calls that return: starts
    and events on any operator instances, stops, saves, setups, target
    updates, edits of the scene properties, new operator instances, with
    [ESC] reaching the operator of the running session as long as one runs.
    The world is consistent again, and exactly one handle is open when the
    running flag is up and none when it is down. *)
Theorem one_open_handle (w : World) (cs : list Call) (w' : World) :
  session_consistent w ->
  runs cv2_resize w cs w' ->
  session_consistent w'
  ∧ open_handles w' = if running (STATE w') then 1%nat else 0%nat.
Proof.
  intros Hinv Hruns.
  assert (Hinv' : session_consistent w') by (by eapply runs_consistent).
  split; [done|]. by apply consistent_count.
Qed.

End SessionInvariant.

Lemma one_open_handle_witness :
  open_handles restarted_world = 1%nat.
Proof.
  assert (Hstart : call sample_resize (sample_world (Some Cube) 2 1) (call_start 0)
                   = Some started_world).
  { vm_compute. reflexivity. }
  assert (Hesc : call sample_resize started_world (call_modal 0 "ESC" None)
                 = Some cancelled_world).
  { vm_compute. reflexivity. }
  assert (Hagain : call sample_resize cancelled_world (call_start 0)
                   = Some restarted_world).
  { vm_compute. reflexivity. }
  assert (Hruns : runs sample_resize (sample_world (Some Cube) 2 1)
                    [call_start 0; call_modal 0 "ESC" None; call_start 0]
                    restarted_world).
  { eapply runs_cons; [exact I|exact Hstart|].
    eapply runs_cons; [|exact Hesc|].
    { intros _ _. vm_compute. reflexivity. }
    eapply runs_cons; [exact I|exact Hagain|]. apply runs_nil. }
  assert (Hfresh : session_consistent (sample_world (Some Cube) 2 1)).
  { apply session_consistent_stopped; [reflexivity|]. intros c Hc. discriminate Hc. }
  destruct (one_open_handle sample_resize _ _ _ Hfresh Hruns) as [_ Hcount].
  rewrite Hcount. vm_compute. reflexivity.
Defined.

(** ** The panel *)

Ltac panel_item :=
  repeat first [apply list_elem_of_here | apply list_elem_of_further].

Lemma ensure_failure_message (w : World) (obj : option Object) mat (w' : World) :
  _ensure_material_for_object w obj = Some ((None, mat), w') ->
  last_error (STATE w')
  ∈ ["No target object selected."; "Target object must be a mesh.";
     "Invalid image size."].
Proof.
  unfold _ensure_material_for_object. intros H.
  destruct obj as [o|]; [|simplify_eq; simpl; panel_item].
  destruct (decide _); [simplify_eq; simpl; panel_item|].
  cbv zeta in H.
  destruct (images_get _ _) as [img|].
  { by apply ensure_material_spec in H as (m & d' & ? & _). }
  destruct (_ || _); [simplify_eq; simpl; panel_item|].
  destruct (images_new _ _ _ _) as [i imgs].
  by apply ensure_material_spec in H as (m & d' & ? & _).
Qed.

Lemma start_cancelled_message (w : World) (self : nat) (w' : World) :
  WM_OT_webcam_stream_start_execute w self = Some (CANCELLED, w') ->
  running (STATE w') = false
  ∧ last_error (STATE w')
    ∈ ["OpenCV (cv2) is not available. Install it in Blender's Python environment.";
       "No target object selected."; "Target object must be a mesh.";
       "Invalid image size."].
Proof.
  unfold WM_OT_webcam_stream_start_execute. intros H.
  destruct (running (STATE w)) eqn:Hrun; [discriminate|].
  destruct (negb _); [simplify_eq; split; [done|simpl; panel_item]|].
  destruct (_ensure_material_for_object _ _) as [[[[img|] mat] w1]|] eqn:Hens;
    simplify_eq/=.
  - destruct (stream_operators w1 !! self); simplify_eq/=.
    destruct (images (data w1) !! img); simplify_eq/=.
  - destruct (ensure_keeps_session _ _ _ _ Hens) as (Hr & _).
    split; [congruence|].
    apply ensure_failure_message in Hens. by apply list_elem_of_further.
Qed.

Lemma length_substring (n : nat) (s : string) :
  String.length (substring 0 n s) = Nat.min n (String.length s).
Proof.
  revert s. induction n as [|n IH]; intros [|c s]; simpl; [done..|].
  by rewrite IH.
Qed.

Lemma prefix_substring (n : nat) (s : string) :
  String.prefix (substring 0 n s) s = true.
Proof.
  revert s. induction n as [|n IH]; intros [|c s]; simpl; [done..|].
  rewrite IH. by destruct (ascii_dec c c).
Qed.

Ltac panel_no_box H :=
  repeat (apply elem_of_cons in H as [H|H]; [discriminate H|]);
  by apply elem_of_nil in H.

(** X18. The panel after a start.  When the start returned [CANCELLED] the
    panel says the stream is stopped, enables Start and disables Stop, and
    shows the recorded error in full (none of the messages a start records
    is cut at 120 characters).  Otherwise it says the stream is running,
    disables Start and enables Stop, and after [RUNNING_MODAL] it shows no
    error box. *)
Theorem panel_after_start (w : World) (self : nat) (st : Status) (w' : World) :
  WM_OT_webcam_stream_start_execute w self = Some (st, w') ->
  let panel := VIEW3D_PT_webcam_stream_draw w' in
  match st with
  | CANCELLED =>
      ui_row true [ui_label "Status: Stopped"] ∈ panel
      ∧ ui_row true [ui_operator "wm.webcam_stream_start" "Start"] ∈ panel
      ∧ ui_row false [ui_operator "wm.webcam_stream_stop" "Stop"] ∈ panel
      ∧ last_error (STATE w') ≠ ""
      ∧ ui_box [ui_label "Last error:"; ui_label (last_error (STATE w'))] ∈ panel
  | _ =>
      ui_row true [ui_label "Status: Running"] ∈ panel
      ∧ ui_row false [ui_operator "wm.webcam_stream_start" "Start"] ∈ panel
      ∧ ui_row true [ui_operator "wm.webcam_stream_stop" "Stop"] ∈ panel
      ∧ (st = RUNNING_MODAL -> ∀ items, ui_box items ∉ panel)
  end.
Proof.
  intros H panel. subst panel. unfold VIEW3D_PT_webcam_stream_draw.
  assert (Hrunning : st ≠ CANCELLED -> running (STATE w') = true
                     ∧ (st = RUNNING_MODAL -> last_error (STATE w') = "")).
  { intros Hst. unfold WM_OT_webcam_stream_start_execute in H.
    destruct (running (STATE w)) eqn:Hrun.
    { simplify_eq. split; [done|discriminate]. }
    destruct (negb _); [by simplify_eq|].
    destruct (_ensure_material_for_object _ _) as [[[[img|] mat] w1]|];
      simplify_eq/=.
    destruct (stream_operators w1 !! self); simplify_eq/=.
    destruct (images (data w1) !! img); by simplify_eq/=. }
  destruct st.
  - destruct Hrunning as [-> _]; [done|]. simpl.
    repeat split; [destruct (decide _); panel_item..|done].
  - destruct (start_cancelled_message _ _ _ H) as [-> Hmsg]. simpl.
    assert (Hfull : last_error (STATE w') ≠ ""
                    ∧ substring 0 120 (last_error (STATE w')) = last_error (STATE w')).
    { repeat (apply elem_of_cons in Hmsg as [->|Hmsg]; [by split|]).
      by apply elem_of_nil in Hmsg. }
    destruct Hfull as [Hne Hfull]. rewrite decide_False, Hfull by done.
    repeat split; [panel_item..|done|panel_item].
  - destruct Hrunning as [-> _]; [done|]. simpl.
    repeat split; [destruct (decide _); panel_item..|done].
  - destruct Hrunning as [-> Herr]; [done|]. rewrite Herr by done. simpl.
    repeat split; [panel_item..|].
    intros _ items Hin. panel_no_box Hin.
Qed.

Lemma panel_after_start_witness :
  ui_row true [ui_label "Status: Running"] ∈ VIEW3D_PT_webcam_stream_draw started_world
  ∧ ui_row true [ui_operator "wm.webcam_stream_stop" "Stop"]
    ∈ VIEW3D_PT_webcam_stream_draw started_world.
Proof.
  assert (Hexec : WM_OT_webcam_stream_start_execute (sample_world (Some Cube) 2 1) 0
                  = Some (RUNNING_MODAL, started_world)).
  { vm_compute. reflexivity. }
  destruct (panel_after_start _ _ _ _ Hexec) as (Hstatus & _ & Hstop & _).
  split; [exact Hstatus|exact Hstop].
Defined.

(** X19. The error box of the panel: there is none while the last error is
    empty; otherwise there is exactly the box with the caption and the
    first 120 characters of the last error (all of it when it is no longer
    than that). *)
Theorem panel_error_box (w : World) (items : list Widget) :
  ui_box items ∈ VIEW3D_PT_webcam_stream_draw w
  ↔ last_error (STATE w) ≠ ""
    ∧ ∃ text, items = [ui_label "Last error:"; ui_label text]
              ∧ String.prefix text (last_error (STATE w)) = true
              ∧ String.length text = Nat.min 120 (String.length (last_error (STATE w))).
Proof.
  unfold VIEW3D_PT_webcam_stream_draw. split.
  - intros Hin. destruct (decide (last_error (STATE w) = "")) as [Herr|Herr].
    { panel_no_box Hin. }
    split; [done|]. exists (substring 0 120 (last_error (STATE w))).
    split; [|split; [apply prefix_substring|apply length_substring]].
    repeat (apply elem_of_cons in Hin as [Hin|Hin]; [by simplify_eq|]).
    by apply elem_of_nil in Hin.
  - intros (Herr & text & -> & Hprefix & Hlen).
    rewrite decide_False by done.
    assert (text = substring 0 120 (last_error (STATE w))) as ->; [|panel_item].
    clear Herr. revert Hprefix Hlen.
    generalize (last_error (STATE w)) 120%nat. clear.
    intros s n. revert text n.
    induction s as [|c s IH]; intros [|c' text] [|n]; simpl; try done.
    destruct (ascii_dec c' c) as [->|]; [|done].
    intros Hp [= Hl]. by rewrite <- (IH text n).
Qed.

(** ** Registration *)

Ltac class_solver :=
  simpl in *;
  rewrite ?elem_of_difference, ?elem_of_union, ?elem_of_singleton in *;
  intuition (subst; first [done | discriminate | eauto]).

Lemma register_spec (r : Registry) :
  (∀ c, c ∈ addon_classes -> c ∉ registered_classes r) ->
  register r
  = Some {| registered_classes :=
              registered_classes r ∪ {["WM_OT_webcam_stream_start"]}
              ∪ {["WM_OT_webcam_stream_stop"]} ∪ {["WM_OT_webcam_save_png"]}
              ∪ {["WM_OT_webcam_setup_object"]} ∪ {["VIEW3D_PT_webcam_stream"]};
            Scene_properties :=
              <["webcam_image_height" := IntProperty "Image Height" 1024 1]>
              (<["webcam_image_width" := IntProperty "Image Width" 1024 1]>
              (<["webcam_target_object" :=
                   PointerProperty "Target Object" "Object" "_on_target_object_update"]>
              (<["webcam_material_name" :=
                   StringProperty "Webcam Material" DEFAULT_MATERIAL_NAME]>
              (<["webcam_image_name" := StringProperty "Webcam Image" IMAGE_DEFAULT]>
                 (Scene_properties r))))) |}.
Proof.
  intros Hfree. unfold register, register_class.
  assert (H1 : "WM_OT_webcam_stream_start" ∉ registered_classes r)
    by (apply Hfree; panel_item).
  assert (H2 : "WM_OT_webcam_stream_stop" ∉ registered_classes r)
    by (apply Hfree; panel_item).
  assert (H3 : "WM_OT_webcam_save_png" ∉ registered_classes r)
    by (apply Hfree; panel_item).
  assert (H4 : "WM_OT_webcam_setup_object" ∉ registered_classes r)
    by (apply Hfree; panel_item).
  assert (H5 : "VIEW3D_PT_webcam_stream" ∉ registered_classes r)
    by (apply Hfree; panel_item).
  rewrite decide_False by done. simpl.
  rewrite decide_False by class_solver. simpl.
  rewrite decide_False by class_solver. simpl.
  rewrite decide_False by class_solver. simpl.
  rewrite decide_False by class_solver. simpl.
  done.
Qed.

(** X20. Registering and unregistering is a round trip.  In a Blender where
    none of the five classes is registered and none of the five scene
    properties is defined, [register] returns, and [unregister] right after
    it returns and leaves exactly the classes and the scene properties that
    were there before; a second [register] in between raises instead. *)
Theorem register_unregister_round_trip (r : Registry) :
  (∀ c, c ∈ addon_classes -> c ∉ registered_classes r) ->
  (∀ n, n ∈ addon_properties -> Scene_properties r !! n = None) ->
  ∃ r1, register r = Some r1
        ∧ (∀ c, c ∈ registered_classes r1 ↔ c ∈ registered_classes r ∨ c ∈ addon_classes)
        ∧ (∀ n, n ∈ addon_properties -> is_Some (Scene_properties r1 !! n))
        ∧ register r1 = None
        ∧ unregister r1 = Some r.
Proof.
  intros Hfree Hundef. eexists. split; [by apply register_spec|].
  assert (H1 : "WM_OT_webcam_stream_start" ∉ registered_classes r)
    by (apply Hfree; panel_item).
  assert (H2 : "WM_OT_webcam_stream_stop" ∉ registered_classes r)
    by (apply Hfree; panel_item).
  assert (H3 : "WM_OT_webcam_save_png" ∉ registered_classes r)
    by (apply Hfree; panel_item).
  assert (H4 : "WM_OT_webcam_setup_object" ∉ registered_classes r)
    by (apply Hfree; panel_item).
  assert (H5 : "VIEW3D_PT_webcam_stream" ∉ registered_classes r)
    by (apply Hfree; panel_item).
  assert (P1 : Scene_properties r !! "webcam_image_name" = None)
    by (apply Hundef; panel_item).
  assert (P2 : Scene_properties r !! "webcam_material_name" = None)
    by (apply Hundef; panel_item).
  assert (P3 : Scene_properties r !! "webcam_target_object" = None)
    by (apply Hundef; panel_item).
  assert (P4 : Scene_properties r !! "webcam_image_width" = None)
    by (apply Hundef; panel_item).
  assert (P5 : Scene_properties r !! "webcam_image_height" = None)
    by (apply Hundef; panel_item).
  split; [|split; [|split]].
  - intros c. unfold addon_classes. simpl.
    rewrite !elem_of_union, !elem_of_singleton, !elem_of_cons, elem_of_nil.
    tauto.
  - intros n Hn. simpl.
    repeat (apply elem_of_cons in Hn as [->|Hn]; [by simplify_map_eq|]).
    by apply elem_of_nil in Hn.
  - unfold register, register_class. simpl.
    rewrite decide_True by class_solver. done.
  - unfold unregister, Scene_delattr, unregister_class. simpl.
    repeat (rewrite lookup_insert_ne by done). rewrite lookup_insert_eq. simpl.
    rewrite lookup_delete_ne by done.
    repeat (rewrite lookup_insert_ne by done). rewrite lookup_insert_eq. simpl.
    rewrite !lookup_delete_ne by done.
    repeat (rewrite lookup_insert_ne by done). rewrite lookup_insert_eq. simpl.
    rewrite !lookup_delete_ne by done.
    repeat (rewrite lookup_insert_ne by done). rewrite lookup_insert_eq. simpl.
    rewrite !lookup_delete_ne by done. rewrite lookup_insert_eq. simpl.
    rewrite decide_True by class_solver. simpl.
    rewrite decide_True by class_solver. simpl.
    rewrite decide_True by class_solver. simpl.
    rewrite decide_True by class_solver. simpl.
    rewrite decide_True by class_solver. simpl.
    destruct r as [classes props]. simpl in *. f_equal. f_equal.
    + apply set_eq. intros c.
      class_solver.
    + apply map_eq. intros n.
      destruct (decide (n = "webcam_image_name")) as [->|?];
        [by rewrite !lookup_delete_ne, lookup_delete_eq by done|].
      destruct (decide (n = "webcam_material_name")) as [->|?];
        [by rewrite !lookup_delete_ne, lookup_delete_eq by done|].
      destruct (decide (n = "webcam_target_object")) as [->|?];
        [by rewrite !lookup_delete_ne, lookup_delete_eq by done|].
      destruct (decide (n = "webcam_image_width")) as [->|?];
        [by rewrite !lookup_delete_ne, lookup_delete_eq by done|].
      destruct (decide (n = "webcam_image_height")) as [->|?];
        [by rewrite lookup_delete_eq|].
      rewrite !lookup_delete_ne by done. by rewrite !lookup_insert_ne by done.
Qed.

Lemma register_unregister_round_trip_witness :
  ∃ r1, register sample_registry = Some r1 ∧ unregister r1 = Some sample_registry.
Proof.
  destruct (register_unregister_round_trip sample_registry) as (r1 & Hreg & _ & _ & _ & Hun).
  - intros c Hc. unfold sample_registry. simpl.
    repeat (apply elem_of_cons in Hc as [->|Hc]; [class_solver|]).
    by apply elem_of_nil in Hc.
  - intros n Hn.
    repeat (apply elem_of_cons in Hn as [->|Hn]; [reflexivity|]).
    by apply elem_of_nil in Hn.
  - exists r1. split; [exact Hreg|exact Hun].
Defined.

(** X21. [unregister] without a [register] before it raises: as soon as one
    of the five scene properties is not defined, or one of the five classes
    is not registered, it does not return. *)
Theorem unregister_needs_register (r : Registry) :
  (∃ n, n ∈ addon_properties ∧ Scene_properties r !! n = None)
  ∨ (∃ c, c ∈ addon_classes ∧ c ∉ registered_classes r) ->
  unregister r = None.
Proof.
  intros Hmissing.
  destruct (unregister r) as [r'|] eqn:Hun; [exfalso|done].
  unfold unregister, Scene_delattr, unregister_class in Hun.
  destruct (Scene_properties r !! "webcam_image_name") eqn:P1; simplify_eq/=.
  rewrite lookup_delete_ne in Hun by done.
  destruct (Scene_properties r !! "webcam_material_name") eqn:P2; simplify_eq/=.
  rewrite !lookup_delete_ne in Hun by done.
  destruct (Scene_properties r !! "webcam_target_object") eqn:P3; simplify_eq/=.
  rewrite !lookup_delete_ne in Hun by done.
  destruct (Scene_properties r !! "webcam_image_width") eqn:P4; simplify_eq/=.
  rewrite !lookup_delete_ne in Hun by done.
  destruct (Scene_properties r !! "webcam_image_height") eqn:P5; simplify_eq/=.
  repeat (match type of Hun with context [decide ?P] => destruct (decide P) end;
          simplify_eq/=).
  destruct Hmissing as [(n & Hn & Hnone)|(c & Hc & Hnot)].
  - repeat (apply elem_of_cons in Hn as [->|Hn]; [congruence|]).
    by apply elem_of_nil in Hn.
  - repeat (apply elem_of_cons in Hc as [->|Hc]; [class_solver|]).
    by apply elem_of_nil in Hc.
Qed.

Lemma unregister_needs_register_witness : unregister sample_registry = None.
Proof.
  apply unregister_needs_register. left. exists "webcam_image_name".
  split; [panel_item|reflexivity].
Defined.

(** X22. The size properties as [register] defines them rule the size error
    out: with a width and a height that are the default of the registered
    property or a value assigned through it (Blender raises an assigned
    value to the hard minimum 1), the resolver fails on an object exactly
    when the object is not a mesh. *)
Theorem registered_size_is_valid (r r1 : Registry) (w : World) (o : Object)
    (width height : option Z) :
  register r = Some r1 ->
  (definition ← Scene_properties r1 !! "webcam_image_width";
   int_property_value definition width) = Some (webcam_image_width (scene w)) ->
  (definition ← Scene_properties r1 !! "webcam_image_height";
   int_property_value definition height) = Some (webcam_image_height (scene w)) ->
  failure_condition w (Some o) ↔ object_type o ≠ "MESH".
Proof.
  intros Hreg Hwidth Hheight.
  assert (Hprops : Scene_properties r1 !! "webcam_image_width"
                   = Some (IntProperty "Image Width" 1024 1)
                   ∧ Scene_properties r1 !! "webcam_image_height"
                     = Some (IntProperty "Image Height" 1024 1)).
  { unfold register, register_class in Hreg.
    repeat (match type of Hreg with context [decide ?P] => destruct (decide P) end;
            simplify_eq/=).
    split; by simplify_map_eq. }
  destruct Hprops as [Hw Hh]. rewrite Hw in Hwidth. rewrite Hh in Hheight.
  simpl in Hwidth, Hheight.
  assert (0 < webcam_image_width (scene w)).
  { injection Hwidth as <-. destruct width; lia. }
  assert (0 < webcam_image_height (scene w)).
  { injection Hheight as <-. destruct height; lia. }
  split.
  - intros [[=]|[(o' & [= <-] & Htype)|(o' & _ & _ & [?|?])]]; [done|lia..].
  - intros Htype. right. left. by exists o.
Qed.

Lemma registered_size_is_valid_witness :
  failure_condition (sample_world (Some Cube) 1 1024) (Some Cube)
  ↔ object_type Cube ≠ "MESH".
Proof.
  assert (Hfree : ∀ c, c ∈ addon_classes -> c ∉ registered_classes sample_registry).
  { intros c Hc. unfold sample_registry. simpl.
    repeat (apply elem_of_cons in Hc as [->|Hc]; [class_solver|]).
    by apply elem_of_nil in Hc. }
  pose proof (register_spec sample_registry Hfree) as Hreg.
  apply (registered_size_is_valid sample_registry _ (sample_world (Some Cube) 1 1024)
           Cube (Some (-5)) None Hreg).
  - reflexivity.
  - reflexivity.
Defined.

(** ** Packaging *)

Lemma stat_snoc (fs : gmap (list string) Entry) (p : list string) (name : string) :
  stat fs (p ++ [name]) = fs !! (p ++ [name]).
Proof. by destruct p. Qed.

Lemma relative_to_Some (base p rel : list string) :
  relative_to base p = Some rel ↔ p = base ++ rel.
Proof.
  revert p. induction base as [|b base IH]; intros p; simpl.
  - split; congruence.
  - destruct p as [|c p]; [done|].
    destruct (decide (b = c)) as [->|Hne].
    + rewrite IH. split; congruence.
    + split; [done|]. congruence.
Qed.

Lemma below_spec (dir p : list string) :
  below dir p = true ↔ ∃ name rel, p = dir ++ name :: rel.
Proof.
  unfold below. destruct (relative_to dir p) as [[|name rel]|] eqn:Hrel.
  - apply relative_to_Some in Hrel as ->. split; [done|].
    intros (name & rel & H). rewrite app_nil_r in H.
    apply (f_equal length) in H. rewrite length_app in H. simpl in H. lia.
  - apply relative_to_Some in Hrel as ->. split; [eauto|done].
  - split; [done|]. intros (name & rel & ->).
    by rewrite (proj2 (relative_to_Some dir _ (name :: rel)) eq_refl) in Hrel.
Qed.

Lemma lookup_copytree (src dst : list string) (fs : gmap (list string) Entry)
    (q : list string) (e : Entry) :
  copytree src dst fs !! q = Some e
  ↔ ∃ rel, q = dst ++ rel ∧ fs !! (src ++ rel) = Some e.
Proof.
  unfold copytree. rewrite lookup_set_to_map.
  - split.
    + intros (rel & Hin & [= <- <-]).
      apply elem_of_set_omap in Hin as (x & Hx & Hrel).
      apply relative_to_Some in Hrel as ->.
      apply elem_of_dom in Hx as [e' He']. exists rel. by rewrite He'.
    + intros (rel & -> & Hrel). exists rel. rewrite Hrel. split; [|done].
      apply elem_of_set_omap. exists (src ++ rel).
      split; [by apply elem_of_dom|by apply relative_to_Some].
  - intros y y' _ _ Heq. simpl in Heq. by apply app_inv_head in Heq.
Qed.

(** With every directory down to [above ++ path] in place, [mkdir] makes at
    most the last one. *)
Lemma mkdir_parents_last (fs : gmap (list string) Entry) (above path : list string)
    (name : string) :
  (∀ k, (0 < k <= length path)%nat -> fs !! (above ++ take k path) = Some Directory) ->
  mkdir_parents above (path ++ [name]) fs
  = match fs !! (above ++ path ++ [name]) with
    | Some (File _) => inl FileExistsError
    | _ => inr (<[above ++ path ++ [name] := Directory]> fs)
    end.
Proof.
  revert above. induction path as [|x path IH]; intros above Hdirs; simpl.
  - destruct (fs !! (above ++ [name])) as [[c|]|] eqn:Hlook; [done| |done].
    by rewrite insert_id.
  - specialize (Hdirs 1%nat) as H1. simpl in H1. rewrite take_0 in H1.
    rewrite H1 by lia.
    rewrite IH.
    + by rewrite <- !app_assoc.
    + intros k Hk. rewrite <- app_assoc. simpl.
      apply (Hdirs (S k)). simpl. lia.
Qed.

Lemma mkdir_dist (fs : gmap (list string) Entry) (root_dir : list string) (name : string) :
  directory_path fs root_dir ->
  mkdir_parents [] (root_dir ++ [name]) fs
  = match fs !! (root_dir ++ [name]) with
    | Some (File _) => inl FileExistsError
    | _ => inr (<[root_dir ++ [name] := Directory]> fs)
    end.
Proof.
  intros Hroot. apply (mkdir_parents_last fs [] root_dir name).
  intros k Hk. simpl. apply Hroot.
  - intros Hnil. apply (f_equal length) in Hnil.
    rewrite length_take in Hnil. simpl in Hnil. lia.
  - apply prefix_take.
Qed.

Section PackagingProperties.

Variable zip_deflated : gmap (list string) (list byte) -> list byte.

(** What [build_zip] does when everything is in place. *)
Lemma build_zip_success (fs : gmap (list string) Entry) (root_dir : list string)
    (addon_name : string) (include_wheels : bool) (wheels_dir : list string)
    (init : list byte) :
  directory_path fs root_dir ->
  (∀ c, fs !! (root_dir ++ ["dist"]) ≠ Some (File c)) ->
  fs !! (root_dir ++ ["__init__.py"]) = Some (File init) ->
  fs !! (root_dir ++ ["dist"] ++ [addon_name +:+ ".zip"]) ≠ Some Directory ->
  (include_wheels = true ->
   stat fs wheels_dir = Some Directory ∨ wheels_dir = root_dir ++ ["dist"]) ->
  ∃ members,
    build_zip zip_deflated fs root_dir addon_name include_wheels wheels_dir
    = (<[root_dir ++ ["dist"] ++ [addon_name +:+ ".zip"] := File (zip_deflated members)]>
         (<[root_dir ++ ["dist"] := Directory]> fs),
       inr (root_dir ++ ["dist"] ++ [addon_name +:+ ".zip"]))
    ∧ ∀ q c, members !! q = Some c
        ↔ (q = [addon_name; "__init__.py"] ∧ c = init)
          ∨ (include_wheels = true
             ∧ ∃ rel, q = addon_name :: "wheels" :: rel
                      ∧ fs !! (wheels_dir ++ rel) = Some (File c)).
Proof.
  intros Hroot Hdist Hinit Hzip Hwheels.
  set (dist_dir := root_dir ++ ["dist"]).
  set (fs1 := <[dist_dir := Directory]> fs).
  assert (Hfile : ∀ p c, fs1 !! p = Some (File c) ↔ fs !! p = Some (File c)).
  { intros p c. unfold fs1. destruct (decide (p = dist_dir)) as [->|Hne].
    - rewrite lookup_insert_eq. split; [done|]. intros H. by destruct (Hdist c).
    - by rewrite lookup_insert_ne. }
  assert (Hne1 : dist_dir ≠ root_dir ++ ["__init__.py"]).
  { unfold dist_dir. intros H. by apply app_inv_head in H. }
  assert (Hne2 : dist_dir ≠ dist_dir ++ [addon_name +:+ ".zip"]).
  { intros H. apply (f_equal length) in H. rewrite length_app in H. simpl in H. lia. }
  assert (Hwheels1 : include_wheels = true -> stat fs1 wheels_dir = Some Directory).
  { intros Hw. destruct (Hwheels Hw) as [Hstat| ->].
    - destruct wheels_dir as [|x wd]; [done|]. simpl in *. unfold fs1.
      destruct (decide (dist_dir = x :: wd)) as [<-|?].
      + by rewrite lookup_insert_eq.
      + by rewrite lookup_insert_ne.
    - fold dist_dir. unfold dist_dir at 1. rewrite stat_snoc. fold dist_dir.
      unfold fs1. by rewrite lookup_insert_eq. }
  set (tmp := <[[addon_name] ++ ["__init__.py"] := File init]>
                ({[ [addon_name] := Directory ]} : gmap (list string) Entry)).
  set (staged := if include_wheels
                 then copytree wheels_dir ([addon_name] ++ ["wheels"]) fs1 ∪ tmp
                 else tmp).
  exists (omap file_content (rglob [addon_name] staged)). split.
  - unfold build_zip. rewrite (mkdir_dist _ _ _ Hroot). fold dist_dir.
    destruct (fs !! dist_dir) as [[c|]|] eqn:Hd; [by destruct (Hdist c)|..].
    all: fold fs1; rewrite !stat_snoc.
    all: replace (fs1 !! (root_dir ++ ["__init__.py"])) with (Some (File init))
      by (symmetry; by apply Hfile).
    all: fold tmp.
    all: rewrite app_assoc; fold dist_dir.
    all: assert (Hz : fs1 !! (dist_dir ++ [addon_name +:+ ".zip"]) ≠ Some Directory)
      by (unfold fs1; rewrite lookup_insert_ne by done;
          unfold dist_dir; by rewrite <- app_assoc).
    all: destruct include_wheels; [rewrite (Hwheels1 eq_refl)|]; fold staged.
    all: destruct (fs1 !! (dist_dir ++ [addon_name +:+ ".zip"])) as [[c|]|] eqn:Hold;
      [|done|]; by rewrite ?insert_delete_eq.
  - intros q c. rewrite lookup_omap.
    assert (Hq : rglob [addon_name] staged !! q ≫= file_content = Some c
                 ↔ staged !! q = Some (File c) ∧ below [addon_name] q = true).
    { unfold rglob. split.
      - intros H. destruct (filter _ staged !! q) as [[c'|]|] eqn:Hf; simplify_eq/=.
        apply map_lookup_filter_Some in Hf as [? Hb]. simpl in Hb.
        split; [done|]. by apply Is_true_eq_true.
      - intros [Hs Hb].
        assert (Hf : filter (λ entry : list string * Entry, below [addon_name] entry.1)
                       staged !! q = Some (File c)).
        { apply map_lookup_filter_Some. split; [done|]. simpl. by rewrite Hb. }
        by rewrite Hf. }
    rewrite Hq. clear Hq.
    assert (Htmp : tmp !! q = Some (File c) ↔ q = [addon_name; "__init__.py"] ∧ c = init).
    { unfold tmp. rewrite lookup_insert_Some, lookup_singleton_Some. simpl.
      split.
      - intros [[<- [= <-]]|[_ [_ [=]]]]. done.
      - intros [-> ->]. by left. }
    assert (Hbelow : below [addon_name] [addon_name; "__init__.py"] = true).
    { apply below_spec. by exists "__init__.py", []. }
    unfold staged. destruct include_wheels.
    + rewrite lookup_union_Some_raw. split.
      * intros [[Hcopy|[_ Ht]] _].
        -- apply lookup_copytree in Hcopy as (rel & -> & Hrel).
           right. split; [done|]. exists rel. split; [done|]. by apply Hfile.
        -- left. by apply Htmp.
      * intros [[-> ->]|[_ (rel & -> & Hrel)]].
        -- split; [|done]. right. split; [|by apply Htmp].
           destruct (copytree _ _ _ !! _) as [e|] eqn:Hcopy; [|done].
           by apply lookup_copytree in Hcopy as (rel & [=] & _).
        -- split.
           ++ left. apply lookup_copytree. exists rel. split; [done|]. by apply Hfile.
           ++ apply below_spec. by exists "wheels", rel.
    + rewrite Htmp. split.
      * intros [? _]. by left.
      * intros [[-> ->]|[[=] _]]. done.
Qed.

(** X23. A build without the entry point.  With [root_dir] a directory, no
    [__init__.py] in it, and [dist] not a file, [build_zip] raises the
    missing-entry-point error after it has made the [dist] directory:
    nothing else in the file system changes, whatever the other arguments
    are. *)
Theorem build_zip_missing_entrypoint (fs : gmap (list string) Entry)
    (root_dir : list string) (addon_name : string) (include_wheels : bool)
    (wheels_dir : list string) :
  directory_path fs root_dir ->
  (∀ c, fs !! (root_dir ++ ["dist"]) ≠ Some (File c)) ->
  fs !! (root_dir ++ ["__init__.py"]) = None ->
  build_zip zip_deflated fs root_dir addon_name include_wheels wheels_dir
  = (<[root_dir ++ ["dist"] := Directory]> fs,
     inl (Missing_addon_entrypoint (root_dir ++ ["__init__.py"]))).
Proof.
  intros Hroot Hdist Hinit. unfold build_zip. rewrite (mkdir_dist _ _ _ Hroot).
  assert (Hne : root_dir ++ ["dist"] ≠ root_dir ++ ["__init__.py"]).
  { intros H. by apply app_inv_head in H. }
  destruct (fs !! (root_dir ++ ["dist"])) as [[c|]|] eqn:Hd; [by destruct (Hdist c)|..].
  all: by rewrite stat_snoc, lookup_insert_ne, Hinit by done.
Qed.

(** X24. A build that goes through.  With [addon_name] one component of a
    path (not empty, not ["."] or [".."], without ["/"]), [root_dir] a
    directory that holds the file [__init__.py], [dist] not a file, the
    archive path not a directory and, when wheels are asked for,
    [wheels_dir] a directory,
    [build_zip] returns the path [dist/<addon_name>.zip]; it makes the
    [dist] directory if needed and writes the archive, replacing an older
    one, and changes nothing else.  The archive holds
    [<addon_name>/__init__.py] with the bytes of the entry point and, when
    wheels are asked for, [<addon_name>/wheels/<path>] for every file
    [<path>] below [wheels_dir], and no other member (no directory, and
    nothing of [wheels_dir] when wheels are not asked for). *)
Theorem build_zip_archive (fs : gmap (list string) Entry) (root_dir : list string)
    (addon_name : string) (include_wheels : bool) (wheels_dir : list string)
    (init : list byte) :
  path_component addon_name ->
  directory_path fs root_dir ->
  (∀ c, fs !! (root_dir ++ ["dist"]) ≠ Some (File c)) ->
  fs !! (root_dir ++ ["__init__.py"]) = Some (File init) ->
  fs !! (root_dir ++ ["dist"] ++ [addon_name +:+ ".zip"]) ≠ Some Directory ->
  (include_wheels = true ->
   stat fs wheels_dir = Some Directory ∨ wheels_dir = root_dir ++ ["dist"]) ->
  ∃ members,
    build_zip zip_deflated fs root_dir addon_name include_wheels wheels_dir
    = (<[root_dir ++ ["dist"] ++ [addon_name +:+ ".zip"] := File (zip_deflated members)]>
         (<[root_dir ++ ["dist"] := Directory]> fs),
       inr (root_dir ++ ["dist"] ++ [addon_name +:+ ".zip"]))
    ∧ ∀ q c, members !! q = Some c
        ↔ (q = [addon_name; "__init__.py"] ∧ c = init)
          ∨ (include_wheels = true
             ∧ ∃ rel, q = addon_name :: "wheels" :: rel
                      ∧ fs !! (wheels_dir ++ rel) = Some (File c)).
Proof.
  intros _. apply build_zip_success.
Qed.

(** What a build that returns a path has found. *)
Lemma build_zip_inv (fs : gmap (list string) Entry) (root_dir : list string)
    (addon_name : string) (include_wheels : bool) (wheels_dir : list string)
    (fs' : gmap (list string) Entry) (zip_path : list string) :
  directory_path fs root_dir ->
  build_zip zip_deflated fs root_dir addon_name include_wheels wheels_dir
  = (fs', inr zip_path) ->
  (∀ c, fs !! (root_dir ++ ["dist"]) ≠ Some (File c))
  ∧ (∃ init, fs !! (root_dir ++ ["__init__.py"]) = Some (File init))
  ∧ fs !! (root_dir ++ ["dist"] ++ [addon_name +:+ ".zip"]) ≠ Some Directory
  ∧ (include_wheels = true ->
     stat fs wheels_dir = Some Directory ∨ wheels_dir = root_dir ++ ["dist"]).
Proof.
  intros Hroot H. unfold build_zip in H. rewrite (mkdir_dist _ _ _ Hroot) in H.
  set (dist_dir := root_dir ++ ["dist"]) in *.
  assert (Hne1 : dist_dir ≠ root_dir ++ ["__init__.py"]).
  { unfold dist_dir. intros E. by apply app_inv_head in E. }
  assert (Hne2 : dist_dir ≠ dist_dir ++ [addon_name +:+ ".zip"]).
  { intros E. apply (f_equal length) in E. rewrite length_app in E. simpl in E. lia. }
  assert (Hdist : ∀ c, fs !! dist_dir ≠ Some (File c)).
  { intros c Hc. rewrite Hc in H. discriminate. }
  assert (H1 : ∃ fs1, fs1 = <[dist_dir := Directory]> fs
             ∧ match stat fs1 (root_dir ++ ["__init__.py"]) with
               | Some (File init) =>
                   match
                     (if include_wheels then
                        match stat fs1 wheels_dir with
                        | Some (File _) => inl NotADirectoryError
                        | Some Directory =>
                            inr (copytree wheels_dir ([addon_name] ++ ["wheels"]) fs1
                                 ∪ <[[addon_name] ++ ["__init__.py"] := File init]>
                                     {[ [addon_name] := Directory ]})
                        | None => inl (Wheels_directory_not_found wheels_dir)
                        end
                      else inr (<[[addon_name] ++ ["__init__.py"] := File init]>
                                  {[ [addon_name] := Directory ]}))
                   with
                   | inl e => (fs1, inl e)
                   | inr tmp =>
                       match
                         match stat fs1 (dist_dir ++ [addon_name +:+ ".zip"]) with
                         | Some (File _) =>
                             inr (delete (dist_dir ++ [addon_name +:+ ".zip"]) fs1)
                         | Some Directory => inl IsADirectoryError
                         | None => inr fs1
                         end
                       with
                       | inl e => (fs1, inl e)
                       | inr fs2 =>
                           (<[dist_dir ++ [addon_name +:+ ".zip"] :=
                                File (zip_deflated
                                        (omap file_content (rglob [addon_name] tmp)))]> fs2,
                            inr (dist_dir ++ [addon_name +:+ ".zip"]))
                       end
                   end
               | Some Directory => (fs1, inl IsADirectoryError)
               | None => (fs1, inl (Missing_addon_entrypoint (root_dir ++ ["__init__.py"])))
               end = (fs', inr zip_path)).
  { eexists. split; [reflexivity|].
    destruct (fs !! dist_dir) as [[c|]|] eqn:Hd; [by destruct (Hdist c)|done..]. }
  clear H. destruct H1 as (fs1 & Hfs1 & H).
  rewrite !stat_snoc in H.
  assert (Hlook : ∀ p, p ≠ dist_dir -> fs1 !! p = fs !! p).
  { intros p Hp. subst fs1. by rewrite lookup_insert_ne. }
  rewrite (Hlook (root_dir ++ ["__init__.py"])) in H by done.
  rewrite (Hlook (dist_dir ++ [addon_name +:+ ".zip"])) in H by done.
  split; [done|].
  destruct (fs !! (root_dir ++ ["__init__.py"])) as [[init|]|]; [|done..].
  split; [eauto|].
  assert (Hw : include_wheels = true ->
               stat fs wheels_dir = Some Directory ∨ wheels_dir = dist_dir).
  { intros ->. destruct (decide (wheels_dir = dist_dir)) as [|Hne]; [by right|left].
    destruct wheels_dir as [|x wd]; [done|]. simpl in *.
    rewrite (Hlook (x :: wd)) in H by done.
    destruct (fs !! (x :: wd)) as [[c|]|]; done. }
  split; [|done].
  rewrite app_assoc. fold dist_dir. intros Hz.
  rewrite Hz in H.
  destruct include_wheels; [|done].
  destruct (stat fs1 wheels_dir) as [[c|]|]; done.
Qed.

(** X25. A build that asks for wheels that are not there.  With
    [addon_name] one component of a path (not empty, not ["."] or [".."],
    without ["/"]), the entry point in place and [wheels_dir] missing,
    [build_zip] raises the
    wheels-not-found error after it has made the [dist] directory; an
    archive of an earlier build is still there, unchanged. *)
Theorem build_zip_missing_wheels (fs : gmap (list string) Entry)
    (root_dir : list string) (addon_name : string) (wheels_dir : list string)
    (init : list byte) :
  path_component addon_name ->
  directory_path fs root_dir ->
  (∀ c, fs !! (root_dir ++ ["dist"]) ≠ Some (File c)) ->
  fs !! (root_dir ++ ["__init__.py"]) = Some (File init) ->
  stat fs wheels_dir = None ->
  wheels_dir ≠ root_dir ++ ["dist"] ->
  build_zip zip_deflated fs root_dir addon_name true wheels_dir
  = (<[root_dir ++ ["dist"] := Directory]> fs,
     inl (Wheels_directory_not_found wheels_dir))
  ∧ <[root_dir ++ ["dist"] := Directory]> fs
      !! (root_dir ++ ["dist"] ++ [addon_name +:+ ".zip"])
    = fs !! (root_dir ++ ["dist"] ++ [addon_name +:+ ".zip"]).
Proof.
  intros _ Hroot Hdist Hinit Hwheels Hne. split.
  - unfold build_zip. rewrite (mkdir_dist _ _ _ Hroot).
    assert (Hne1 : root_dir ++ ["dist"] ≠ root_dir ++ ["__init__.py"]).
    { intros H. by apply app_inv_head in H. }
    assert (Hw : stat (<[root_dir ++ ["dist"] := Directory]> fs) wheels_dir = None).
    { destruct wheels_dir as [|x wd]; [done|]. simpl in *.
      by rewrite lookup_insert_ne. }
    destruct (fs !! (root_dir ++ ["dist"])) as [[c|]|] eqn:Hd;
      [by destruct (Hdist c)|..].
    all: by rewrite stat_snoc, lookup_insert_ne, Hinit, Hw by done.
  - rewrite lookup_insert_ne; [done|].
    intros H. apply (f_equal length) in H. rewrite !length_app in H. simpl in H. lia.
Qed.

(** X26. Building again changes nothing.  With [addon_name] one component
    of a path (not empty, not ["."] or [".."], without ["/"]), after a build
    that returned the archive path, the same build on the file system it left returns the same
    path and leaves the file system as it is, archive included, provided the
    archive is not below [wheels_dir] when wheels are asked for (then the
    second archive would hold the first). *)
Theorem build_zip_twice (fs : gmap (list string) Entry) (root_dir : list string)
    (addon_name : string) (include_wheels : bool) (wheels_dir : list string)
    (fs' : gmap (list string) Entry) (zip_path : list string) :
  path_component addon_name ->
  directory_path fs root_dir ->
  build_zip zip_deflated fs root_dir addon_name include_wheels wheels_dir
  = (fs', inr zip_path) ->
  (include_wheels = true -> ¬ wheels_dir `prefix_of` zip_path) ->
  build_zip zip_deflated fs' root_dir addon_name include_wheels wheels_dir
  = (fs', inr zip_path).
Proof.
  intros _ Hroot H Hout.
  destruct (build_zip_inv _ _ _ _ _ _ _ Hroot H) as (Hdist & [init Hinit] & Hzip & Hwheels).
  destruct (build_zip_success _ _ _ _ _ _ Hroot Hdist Hinit Hzip Hwheels)
    as (members & Hbuild & Hmembers).
  rewrite Hbuild in H. injection H as <- <-.
  set (dist_dir := root_dir ++ ["dist"]) in *.
  set (zip := root_dir ++ ["dist"] ++ [addon_name +:+ ".zip"]) in *.
  set (fs' := <[zip := File (zip_deflated members)]> (<[dist_dir := Directory]> fs)).
  assert (Hne1 : dist_dir ≠ root_dir ++ ["__init__.py"]).
  { unfold dist_dir. intros E. by apply app_inv_head in E. }
  assert (Hne2 : zip ≠ dist_dir).
  { intros E. apply (f_equal length) in E. unfold zip, dist_dir in E.
    rewrite !length_app in E. simpl in E. lia. }
  assert (Hne3 : zip ≠ root_dir ++ ["__init__.py"]).
  { intros E. apply (f_equal length) in E. unfold zip in E.
    rewrite !length_app in E. simpl in E. lia. }
  assert (Hlook : ∀ p, p ≠ zip -> p ≠ dist_dir -> fs' !! p = fs !! p).
  { intros p ? ?. unfold fs'. by rewrite !lookup_insert_ne. }
  assert (Hdist' : fs' !! dist_dir = Some Directory).
  { unfold fs'. by rewrite lookup_insert_ne, lookup_insert_eq. }
  assert (Hzip' : fs' !! zip = Some (File (zip_deflated members))).
  { unfold fs'. by rewrite lookup_insert_eq. }
  destruct (build_zip_success fs' root_dir addon_name include_wheels wheels_dir init)
    as (members' & Hbuild' & Hmembers').
  - intros q Hq Hpre. rewrite Hlook; [by apply Hroot| |].
    + intros ->. apply prefix_length in Hpre. unfold zip in Hpre.
      rewrite !length_app in Hpre. simpl in Hpre. lia.
    + intros ->. apply prefix_length in Hpre. unfold dist_dir in Hpre.
      rewrite !length_app in Hpre. simpl in Hpre. lia.
  - intros c. fold dist_dir. by rewrite Hdist'.
  - by rewrite Hlook.
  - fold zip. by rewrite Hzip'.
  - intros Hw. destruct (Hwheels Hw) as [Hstat|?]; [|by right].
    destruct (decide (wheels_dir = dist_dir)) as [|Hned]; [by right|left].
    destruct wheels_dir as [|x wd]; [done|]. simpl in *.
    rewrite Hlook; [done| |done]. intros E. rewrite E in Hstat. by destruct Hzip.
  - fold zip dist_dir in Hbuild'.
    change (build_zip zip_deflated fs' root_dir addon_name include_wheels wheels_dir
            = (fs', inr zip)).
    rewrite Hbuild'.
    assert (members' = members) as ->.
    { apply map_eq. intros q. apply option_eq. intros c.
      rewrite Hmembers, Hmembers'.
      assert (Hsame : include_wheels = true -> ∀ rel,
                fs' !! (wheels_dir ++ rel) = Some (File c)
                ↔ fs !! (wheels_dir ++ rel) = Some (File c)).
      { intros Hw rel. destruct (decide (wheels_dir ++ rel = zip)) as [E|?].
        { destruct (Hout Hw). exists rel. symmetry. exact E. }
        destruct (decide (wheels_dir ++ rel = dist_dir)) as [E|?].
        - rewrite E, Hdist'. split; [done|]. intros Hc. by destruct (Hdist c).
        - by rewrite Hlook. }
      split.
      - intros [?|[Hw (rel & -> & Hrel)]]; [by left|right].
        split; [done|]. exists rel. split; [done|]. by apply Hsame.
      - intros [?|[Hw (rel & -> & Hrel)]]; [by left|right].
        split; [done|]. exists rel. split; [done|]. by apply Hsame. }
    f_equal. rewrite (insert_id fs' dist_dir) by done. by apply insert_id.
Qed.

End PackagingProperties.

Lemma sample_fs_repo : directory_path sample_fs ["repo"].
Proof.
  intros q Hq [k Hk]. destruct q as [|a [|b q]]; [done| |by destruct q].
  injection Hk as <- _. vm_compute. reflexivity.
Qed.

Lemma sample_fs_wheels : directory_path sample_fs ["repo"; "wheels"].
Proof.
  intros q Hq [k Hk]. destruct q as [|a [|b [|c q]]]; [done|..].
  - injection Hk as <- _. vm_compute. reflexivity.
  - injection Hk as <- <- _. vm_compute. reflexivity.
  - by destruct q.
Qed.

Lemma addon_component : path_component "addon".
Proof.
  split; [discriminate|]. split; [discriminate|]. split; [discriminate|].
  split; [|vm_compute; lia].
  repeat (constructor; [split; discriminate|]). constructor.
Qed.

(** The sample build goes through. *)
Lemma sample_build :
  ∃ members,
    build_zip sample_zip sample_fs ["repo"] "addon" true ["repo"; "wheels"]
    = (<[["repo"; "dist"; "addon.zip"] := File (sample_zip members)]>
         (<[["repo"; "dist"] := Directory]> sample_fs),
       inr ["repo"; "dist"; "addon.zip"]).
Proof.
  destruct (build_zip_success sample_zip sample_fs ["repo"] "addon" true
              ["repo"; "wheels"] [x69; x6d; x70])
    as (members & Hbuild & _).
  - exact sample_fs_repo.
  - intros c Hc. vm_compute in Hc. discriminate.
  - vm_compute. reflexivity.
  - intros Hz. vm_compute in Hz. discriminate.
  - intros _. left. vm_compute. reflexivity.
  - exists members. exact Hbuild.
Qed.

Lemma build_zip_missing_entrypoint_witness :
  (build_zip sample_zip sample_fs ["repo"; "wheels"] "addon" false []).2
  = inl (Missing_addon_entrypoint ["repo"; "wheels"; "__init__.py"]).
Proof.
  rewrite (build_zip_missing_entrypoint sample_zip sample_fs ["repo"; "wheels"]).
  - reflexivity.
  - exact sample_fs_wheels.
  - intros c Hc. vm_compute in Hc. discriminate.
  - vm_compute. reflexivity.
Defined.

Lemma build_zip_archive_witness :
  ∃ members,
    build_zip sample_zip sample_fs ["repo"] "addon" true ["repo"; "wheels"]
    = (<[["repo"; "dist"; "addon.zip"] := File (sample_zip members)]>
         (<[["repo"; "dist"] := Directory]> sample_fs),
       inr ["repo"; "dist"; "addon.zip"])
    ∧ members !! ["addon"; "__init__.py"] = Some [x69; x6d; x70]
    ∧ members !! ["addon"; "wheels"; "cv2.whl"] = Some [x50; x4b]
    ∧ members !! ["addon"; "wheels"] = None.
Proof.
  destruct (build_zip_archive sample_zip sample_fs ["repo"] "addon" true
              ["repo"; "wheels"] [x69; x6d; x70])
    as (members & Hbuild & Hmembers).
  - exact addon_component.
  - exact sample_fs_repo.
  - intros c Hc. vm_compute in Hc. discriminate.
  - vm_compute. reflexivity.
  - intros Hz. vm_compute in Hz. discriminate.
  - intros _. left. vm_compute. reflexivity.
  - exists members. split; [exact Hbuild|]. split; [|split].
    + apply Hmembers. left. split; reflexivity.
    + apply Hmembers. right. split; [reflexivity|]. exists ["cv2.whl"]. split; [reflexivity|].
      vm_compute. reflexivity.
    + destruct (members !! ["addon"; "wheels"]) as [c|] eqn:Hc; [|reflexivity].
      apply Hmembers in Hc.
      destruct Hc as [[Hq _]|[_ (rel & Hq & Hrel)]].
      * discriminate Hq.
      * injection Hq as <-. vm_compute in Hrel. discriminate.
Defined.

Lemma build_zip_missing_wheels_witness :
  (build_zip sample_zip sample_fs ["repo"] "addon" true ["repo"; "wheelhouse"]).2
  = inl (Wheels_directory_not_found ["repo"; "wheelhouse"]).
Proof.
  destruct (build_zip_missing_wheels sample_zip sample_fs ["repo"] "addon"
              ["repo"; "wheelhouse"] [x69; x6d; x70]) as [-> _].
  - exact addon_component.
  - exact sample_fs_repo.
  - intros c Hc. vm_compute in Hc. discriminate.
  - vm_compute. reflexivity.
  - vm_compute. reflexivity.
  - discriminate.
  - reflexivity.
Defined.

Lemma build_zip_twice_witness :
  build_zip sample_zip sample_built ["repo"] "addon" true ["repo"; "wheels"]
  = (sample_built, inr ["repo"; "dist"; "addon.zip"]).
Proof.
  apply (build_zip_twice sample_zip sample_fs ["repo"] "addon" true ["repo"; "wheels"]
           sample_built ["repo"; "dist"; "addon.zip"]).
  - exact addon_component.
  - exact sample_fs_repo.
  - unfold sample_built. destruct sample_build as [members ->]. reflexivity.
  - intros _ [k Hk]. discriminate Hk.
Defined.

(** ** A start that is cancelled *)

(** X27. A start that returns [CANCELLED] has done nothing but record an
    error message (in [STATE.last_error] and on the console): either cv2 is
    not available, and then the resolver was not called, or the resolver's
    failure condition holds for the scene's target. *)
Theorem cancelled_start_only_records_error (w : World) (self : nat) (w' : World) :
  WM_OT_webcam_stream_start_execute w self = Some (CANCELLED, w') ->
  running (STATE w) = false
  ∧ error_recorded w w'
  ∧ (_CV2_AVAILABLE w = false
     ∨ _CV2_AVAILABLE w = true
       ∧ failure_condition w (webcam_target_object (scene w))).
Proof.
  unfold WM_OT_webcam_stream_start_execute. intros H.
  destruct (running (STATE w)) eqn:Hrun; [discriminate|]. split; [done|].
  destruct (_CV2_AVAILABLE w) eqn:Hcv; simpl in H.
  - destruct (_ensure_material_for_object _ _) as [[[[img|] mat] w1]|] eqn:Hens;
      simplify_eq/=.
    + destruct (stream_operators w1 !! self); simplify_eq/=.
      destruct (images (data w1) !! img); simplify_eq/=.
    + split.
      * by apply ensure_cases in Hens as [[_ ?]|(i & m & d' & ? & _)].
      * right. split; [done|]. by eapply ensure_fails_inv.
  - simplify_eq. split; [by apply error_recorded_intro|by left].
Qed.

Lemma cancelled_start_only_records_error_witness :
  error_recorded (sample_world (Some Lamp) 2 1)
    (set_error "Target object must be a mesh." (sample_world (Some Lamp) 2 1)).
Proof.
  assert (Hexec : WM_OT_webcam_stream_start_execute (sample_world (Some Lamp) 2 1) 0
                  = Some (CANCELLED,
                          set_error "Target object must be a mesh."
                            (sample_world (Some Lamp) 2 1))).
  { vm_compute. reflexivity. }
  destruct (cancelled_start_only_records_error _ _ _ Hexec) as (_ & Herr & _).
  exact Herr.
Defined.
